(** * Migration-Agent: port/service correlation and utilization-log
    normalisation

    A shallow embedding of the correlation code of
    [migration_agent_deb_rep.py] (class [ServerInventory]) and
    [migration_agent_windows.py] (class [WindowsServerInventory]):

    - [_identify_service_by_port] / [identify_service_by_port]
    - [get_network_info]
    - [get_application_communication_map]
    - [get_port_dependencies]
    - [get_previous_day_cpu_utilization] (both platforms)
    - the part of [collect_all] that assembles the inventory.

    Conventions.  Python [str] is [string] (8-bit characters), [int] is [Z],
    [None]-able values are [option].  A Python [dict] whose iteration order
    is observable is an insertion-ordered association list ([odict]); the
    literal tables and the [cpu_history] dictionary are [gmap]s.  A function
    that can let an exception escape returns [result]. *)

From Stdlib Require Import Ascii String.
From stdpp Require Import base tactics option list numbers strings pretty gmap sorting.

Local Open Scope Z_scope.

(** ** Exceptions and results *)

Inductive exn :=
| ValueError (msg : string)
| IndexError (msg : string)
| AttributeError (msg : string)
| TypeError (msg : string)
| FileNotFoundError (msg : string)
| TimeoutExpired (msg : string)
| OSError (msg : string).

(** [str(e)] *)
Definition str_exn (e : exn) : string :=
  match e with
  | ValueError m | IndexError m | AttributeError m | TypeError m
  | FileNotFoundError m | TimeoutExpired m | OSError m => m
  end.

Inductive result (A : Type) :=
| Ok (a : A)
| Raise (e : exn).
Arguments Ok {A} a.
Arguments Raise {A} e.

Definition rbind {A B} (r : result A) (k : A → result B) : result B :=
  match r with
  | Ok a => k a
  | Raise e => Raise e
  end.

Global Instance result_fmap : FMap result := λ A B f r,
  match r with
  | Ok a => Ok (f a)
  | Raise e => Raise e
  end.

Notation "x ←! r ; k" := (rbind r (λ x, k))
  (at level 20, r at level 100, k at level 200, only parsing, right associativity).
Notation "' p ←! r ; k" := (rbind r (λ p, k))
  (at level 20, p pattern, r at level 100, k at level 200, only parsing, right associativity).

(** ** Python string primitives *)

Module PyStr.

(** [s.startswith(p)] *)
Definition startswith (p s : string) : bool := String.prefix p s.

(** [sub in s] *)
Fixpoint contains (sub s : string) : bool :=
  String.prefix sub s ||
  match s with
  | EmptyString => false
  | String _ s' => contains sub s'
  end.

(** [s.endswith(p)] *)
Fixpoint endswith (p s : string) : bool :=
  if String.eqb p s then true
  else match s with
       | EmptyString => false
       | String _ s' => endswith p s'
       end.

(** The whitespace characters of Python in the 7-bit range:
    tab, LF, VT, FF, CR, FS, GS, RS, US and space. *)
Definition isspace (c : ascii) : bool :=
  let n := nat_of_ascii c in
  ((9 <=? n) && (n <=? 13) || (28 <=? n) && (n <=? 32))%nat.

Fixpoint lstrip (s : string) : string :=
  match s with
  | String c s' => if isspace c then lstrip s' else s
  | EmptyString => EmptyString
  end.

Fixpoint rstrip (s : string) : string :=
  match s with
  | EmptyString => EmptyString
  | String c s' =>
      match rstrip s' with
      | EmptyString => if isspace c then EmptyString else String c EmptyString
      | r => String c r
      end
  end.

(** [s.strip()] *)
Definition strip (s : string) : string := rstrip (lstrip s).

(** [s.strip(c)] for a one-character argument. *)
Fixpoint lstrip_char (c : ascii) (s : string) : string :=
  match s with
  | String a s' => if Ascii.eqb a c then lstrip_char c s' else s
  | EmptyString => EmptyString
  end.

Fixpoint rstrip_char (c : ascii) (s : string) : string :=
  match s with
  | EmptyString => EmptyString
  | String a s' =>
      match rstrip_char c s' with
      | EmptyString => if Ascii.eqb a c then EmptyString else String a EmptyString
      | r => String a r
      end
  end.

Definition strip_char (c : ascii) (s : string) : string :=
  rstrip_char c (lstrip_char c s).

(** [s.split(c)] for a one-character separator: every occurrence splits,
    empty fields are kept, at least one field is returned. *)
Fixpoint split (c : ascii) (s : string) : list string :=
  match s with
  | EmptyString => [EmptyString]
  | String a s' =>
      if Ascii.eqb a c then EmptyString :: split c s'
      else match split c s' with
           | h :: t => String a h :: t
           | [] => [String a EmptyString]
           end
  end.

(** [s.split()] with no argument: fields are the maximal runs of
    non-whitespace characters. *)
Fixpoint split_ws_go (cur : option string) (s : string) : list string :=
  match s with
  | EmptyString => option_list (String.rev <$> cur)
  | String a s' =>
      if isspace a
      then option_list (String.rev <$> cur) ++ split_ws_go None s'
      else split_ws_go (Some (String a (default EmptyString cur))) s'
  end.
Definition split_ws : string → list string := split_ws_go None.

Fixpoint drop (n : nat) (s : string) : string :=
  match n, s with
  | O, _ => s
  | S n', String _ s' => drop n' s'
  | S _, EmptyString => EmptyString
  end.

(** [s.rsplit(sep, 1)] for a non-empty separator: [None] when [sep] does not
    occur (Python returns the one-element list [[s]]), otherwise the text
    before and after the last occurrence. *)
Fixpoint rsplit1 (sep s : string) : option (string * string) :=
  match s with
  | EmptyString => None
  | String a s' =>
      match rsplit1 sep s' with
      | Some (l, r) => Some (String a l, r)
      | None =>
          if String.prefix sep s
          then Some (EmptyString, drop (String.length sep) s)
          else None
      end
  end.

Definition digit_val (c : ascii) : option Z :=
  match Ascii.is_nat c with
  | Some n => Some (Z.of_nat n)
  | None => None
  end.

(** Digits of an integer literal, left to right; a single underscore is
    allowed between two digits. [prev] tells whether the previous character
    was a digit. *)
Fixpoint digits_go (prev : bool) (acc : Z) (s : string) : option Z :=
  match s with
  | EmptyString => if prev then Some acc else None
  | String c s' =>
      match digit_val c with
      | Some d => digits_go true (acc * 10 + d) s'
      | None =>
          if Ascii.eqb c "_"%char && prev
          then match s' with
               | String c' _ =>
                   match digit_val c' with
                   | Some _ => digits_go false acc s'
                   | None => None
                   end
               | EmptyString => None
               end
          else None
      end
  end.

(** [int(s)] on a string: surrounding whitespace is ignored, an optional
    sign precedes the decimal digits; [None] stands for [ValueError]. *)
Definition int (s : string) : option Z :=
  match strip s with
  | String "-"%char ds => Z.opp <$> digits_go false 0 ds
  | String "+"%char ds => digits_go false 0 ds
  | ds => digits_go false 0 ds
  end.

(** [str(n)] / [f"{n}"] for an integer. *)
Definition str_int (n : Z) : string := pretty n.

End PyStr.

(** ** The well-known port tables *)

(** [common_ports] of [ServerInventory._identify_service_by_port]. *)
Definition common_ports : gmap Z string :=
  list_to_map
    [ (20, "FTP-DATA"); (21, "FTP"); (22, "SSH"); (23, "Telnet");
      (25, "SMTP"); (53, "DNS"); (80, "HTTP"); (110, "POP3");
      (143, "IMAP"); (443, "HTTPS"); (445, "SMB");
      (587, "SMTP-Submission"); (993, "IMAPS"); (995, "POP3S");
      (1433, "MS-SQL"); (1521, "Oracle-DB"); (3306, "MySQL");
      (5432, "PostgreSQL"); (5672, "AMQP/RabbitMQ"); (6379, "Redis");
      (8080, "HTTP-Alt"); (8443, "HTTPS-Alt"); (9200, "Elasticsearch");
      (27017, "MongoDB"); (11211, "Memcached"); (50000, "DB2") ].

(** [common_ports.get(int(port), f'Unknown-{port}')]; the port is an [int]
    at every call site, so [int(port)] is the port itself. *)
Definition _identify_service_by_port (port : Z) : string :=
  default ("Unknown-" +:+ PyStr.str_int port) (common_ports !! port).

(** [well_known_ports] of [WindowsServerInventory.identify_service_by_port]. *)
Definition well_known_ports : gmap Z string :=
  list_to_map
    [ (20, "FTP-DATA"); (21, "FTP"); (22, "SSH"); (23, "Telnet");
      (25, "SMTP"); (53, "DNS"); (80, "HTTP"); (110, "POP3");
      (143, "IMAP"); (443, "HTTPS"); (445, "SMB"); (3306, "MySQL");
      (3389, "RDP"); (5432, "PostgreSQL"); (5900, "VNC");
      (6379, "Redis"); (8080, "HTTP-Alt"); (8443, "HTTPS-Alt");
      (27017, "MongoDB"); (1433, "MSSQL"); (1521, "Oracle") ].

(** [well_known_ports.get(port, f'Port-{port}')] *)
Definition identify_service_by_port (port : Z) : string :=
  default ("Port-" +:+ PyStr.str_int port) (well_known_ports !! port).

(** ** Insertion-ordered dictionaries

    Python dictionaries iterate in insertion order and assigning to an
    existing key keeps its position. *)

Section odict.
Context {K V : Type} `{EqDecision K}.

(** [d.get(k)] *)
Fixpoint oget (k : K) (d : list (K * V)) : option V :=
  match d with
  | [] => None
  | (k', v) :: d' => if decide (k = k') then Some v else oget k d'
  end.

(** [k in d] *)
Definition omem (k : K) (d : list (K * V)) : bool :=
  match oget k d with Some _ => true | None => false end.

(** [d[k] = v] *)
Fixpoint oset (k : K) (v : V) (d : list (K * V)) : list (K * V) :=
  match d with
  | [] => [(k, v)]
  | (k', v') :: d' =>
      if decide (k = k') then (k, v) :: d' else (k', v') :: oset k v d'
  end.

(** [d[k] = f(d[k])] for a key that is present (no change otherwise). *)
Definition oalter (f : V → V) (k : K) (d : list (K * V)) : list (K * V) :=
  match oget k d with
  | Some v => oset k (f v) d
  | None => d
  end.

End odict.

(** ** Facts delivered by psutil *)

(** [conn.laddr] / [conn.raddr] when not the empty tuple. *)
Record addr := Addr { ip : string; port : Z }.

Inductive SocketKind := SOCK_STREAM | SOCK_DGRAM.

Global Instance SocketKind_eq_dec : EqDecision SocketKind.
Proof. solve_decision. Defined.

(** One element of [psutil.net_connections(kind='inet')].  [family_str] and
    [type_str] are [str(conn.family)] and [str(conn.type)] as the running
    interpreter prints them. *)
Record sconn := Sconn {
  fd : Z;
  family_str : string;
  type_ : SocketKind;
  type_str : string;
  laddr : option addr;
  raddr : option addr;
  status : string;
  pid : option Z
}.

(** What [psutil.Process(pid)] gives access to; [None] in a field means the
    accessor raises [NoSuchProcess] or [AccessDenied]. *)
Record Process := MkProcess {
  p_name : option string;
  p_username : option string;
  p_cmdline : option (list string)
}.

(** The process table: [None] when [psutil.Process(pid)] itself raises. *)
Definition process_table := Z → option Process.

(** [' '.join(l)] *)
Fixpoint join_space (l : list string) : string :=
  match l with
  | [] => ""
  | [x] => x
  | x :: l' => x +:+ " " +:+ join_space l'
  end.

(** Truth value of an optional pid ([None] and [0] are false). *)
Definition pid_truthy (p : option Z) : option Z :=
  match p with
  | Some n => if decide (n = 0) then None else Some n
  | None => None
  end.

(** Truth value of an optional string ([None] and [''] are false). *)
Definition str_truthy (s : option string) : option string :=
  match s with
  | Some x => if decide (x = "") then None else Some x
  | None => None
  end.

(** ** Records built by [get_network_info] *)

(** The three process keys of a [conn_info] dictionary. *)
Inductive proc_fields :=
| PF_absent
| PF_failed
| PF_found (name user cmdline : string).

Record conn_info := ConnInfo {
  ci_fd : Z;
  ci_family : string;
  ci_type : string;
  ci_local_address : option string;
  ci_remote_address : option string;
  ci_status : string;
  ci_pid : option Z;
  ci_proc : proc_fields
}.

(** [conn_info.get('process_name')] and its two siblings. *)
Definition ci_process_name (c : conn_info) : option string :=
  match ci_proc c with PF_found n _ _ => Some n | _ => None end.
Definition ci_process_user (c : conn_info) : option string :=
  match ci_proc c with PF_found _ u _ => Some u | _ => None end.
Definition ci_process_cmdline (c : conn_info) : option string :=
  match ci_proc c with PF_found _ _ l => Some l | _ => None end.

Record service_info := ServiceInfo {
  si_port : Z;
  si_protocol : string;
  si_address : string;
  si_pid : option Z;
  si_process_name : option string;
  si_process_user : option string;
  si_process_cmdline : option string
}.

(** A value of [self.port_service_map]. *)
Record port_service := PortService {
  ps_service : string;
  ps_pid : option Z
}.

(** The three instance attributes the correlation code shares. *)
Record inventory_state := State {
  service_port_map : list (string * list Z);
  port_service_map : list (Z * port_service);
  process_connections : list (Z * list conn_info)
}.

(** The state set up by [__init__]. *)
Definition init_state : inventory_state := State [] [] [].

(** The connection part of the dictionary [get_network_info] returns; the
    two last keys are only written when the [try] block completes. *)
Record network_info := NetworkInfo {
  connections : list conn_info;
  listening_ports : option (list service_info);
  established_connections : option (list conn_info)
}.

(** [f"{a.ip}:{a.port}" if a else None] *)
Definition fmt_addr (a : option addr) : option string :=
  (λ a, ip a +:+ ":" +:+ PyStr.str_int (port a)) <$> a.

(** The three accessors called inside the inner [try] of the loop. *)
Definition lookup_all (ps : process_table) (p : Z) : option (string * string * string) :=
  pr ← ps p;
  n ← p_name pr;
  u ← p_username pr;
  c ← p_cmdline pr;
  Some (n, u, join_space c).

(** [self.process_connections[pid].append(ci)] on a [defaultdict(list)]. *)
Definition pc_append (p : Z) (ci : conn_info) (pcs : list (Z * list conn_info))
  : list (Z * list conn_info) :=
  oset p (default [] (oget p pcs) ++ [ci]) pcs.

(** [self.service_port_map[name].append(port)], creating the list first. *)
Definition spm_append (name : string) (p : Z) (m : list (string * list Z))
  : list (string * list Z) :=
  oset name (default [] (oget name m) ++ [p]) m.

(** Variables of the loop of [get_network_info]. *)
Record net_loop := NetLoop {
  nl_self : inventory_state;
  nl_listening : list (Z * service_info);
  nl_established : list conn_info;
  nl_connections : list conn_info
}.

(** [conn_info] after the [if conn.pid:] block, and the updated
    [process_connections]. *)
Definition resolve_conn (ps : process_table) (conn : sconn)
    (pcs : list (Z * list conn_info)) : conn_info * list (Z * list conn_info) :=
  let mk pf :=
    ConnInfo (fd conn) (family_str conn) (type_str conn)
             (fmt_addr (laddr conn)) (fmt_addr (raddr conn))
             (status conn) (pid conn) pf in
  match pid_truthy (pid conn) with
  | Some p =>
      match lookup_all ps p with
      | Some (n, u, c) =>
          let ci := mk (PF_found n u c) in (ci, pc_append p ci pcs)
      | None => (mk PF_failed, pcs)
      end
  | None => (mk PF_absent, pcs)
  end.

(** The [if conn.status == 'LISTEN':] block for a port not yet in
    [listening_ports]. *)
Definition index_listener (conn : sconn) (a : addr) (ci : conn_info)
    (st : net_loop) (self : inventory_state) : net_loop :=
  let p := port a in
  let protocol := if decide (type_ conn = SOCK_STREAM) then "TCP" else "UDP" in
  let si := ServiceInfo p protocol (ip a) (pid conn)
              (ci_process_name ci) (ci_process_user ci) (ci_process_cmdline ci) in
  let self' :=
    match str_truthy (ci_process_name ci) with
    | Some name =>
        State (spm_append name p (service_port_map self))
              (oset p (PortService name (pid conn)) (port_service_map self))
              (process_connections self)
    | None => self
    end in
  NetLoop self' (oset p si (nl_listening st)) (nl_established st)
          (nl_connections st ++ [ci]).

(** One iteration of [for conn in connections:]. *)
Definition net_step (ps : process_table) (st : net_loop) (conn : sconn)
  : result net_loop :=
  let '(ci, pcs) := resolve_conn ps conn (process_connections (nl_self st)) in
  let self := State (service_port_map (nl_self st))
                    (port_service_map (nl_self st)) pcs in
  if decide (status conn = "LISTEN") then
    match laddr conn with
    | None => Raise (AttributeError "'tuple' object has no attribute 'port'")
    | Some a =>
        if omem (port a) (nl_listening st)
        then Ok (NetLoop self (nl_listening st) (nl_established st)
                         (nl_connections st ++ [ci]))
        else Ok (index_listener conn a ci st self)
    end
  else if decide (status conn = "ESTABLISHED") then
    Ok (NetLoop self (nl_listening st) (nl_established st ++ [ci])
                (nl_connections st ++ [ci]))
  else
    Ok (NetLoop self (nl_listening st) (nl_established st)
                (nl_connections st ++ [ci])).

Fixpoint net_loop_run (ps : process_table) (st : net_loop) (l : list sconn)
  : result net_loop :=
  match l with
  | [] => Ok st
  | conn :: l' => st' ←! net_step ps st conn; net_loop_run ps st' l'
  end.

(** Insertion into a list sorted by port, after the entries with an equal
    port: the stable sort [sorted(..., key=lambda x: x['port'])]. *)
Fixpoint insert_by_port (x : service_info) (l : list service_info)
  : list service_info :=
  match l with
  | [] => [x]
  | y :: l' =>
      if decide (si_port x < si_port y) then x :: y :: l'
      else y :: insert_by_port x l'
  end.

Definition sorted_by_port (l : list service_info) : list service_info :=
  foldl (λ acc x, insert_by_port x acc) [] l.

(** [get_network_info], connection part.  [net] is the outcome of
    [psutil.net_connections(kind='inet')]: [None] when it raises
    [AccessDenied] or [PermissionError], which the function catches. *)
Definition get_network_info (self : inventory_state) (ps : process_table)
    (net : option (list sconn)) : result (inventory_state * network_info) :=
  match net with
  | None => Ok (self, NetworkInfo [] None None)
  | Some conns =>
      st ←! net_loop_run ps (NetLoop self [] [] []) conns;
      Ok (nl_self st,
          NetworkInfo (nl_connections st)
                      (Some (sorted_by_port (nl_listening st).*2))
                      (Some (nl_established st)))
  end.

(** ** Loops that an exception can leave

    [Stop e s]: exception [e] left the loop body; [s] is the state the
    mutated objects were in at that point. *)

Inductive flow (S : Type) :=
| Next (s : S)
| Stop (e : exn) (s : S).
Arguments Next {S} s.
Arguments Stop {S} e s.

Fixpoint fold_flow {S X} (f : S → X → flow S) (s : S) (l : list X) : flow S :=
  match l with
  | [] => Next s
  | x :: l' =>
      match f s x with
      | Next s' => fold_flow f s' l'
      | Stop e s' => Stop e s'
      end
  end.

Definition flow_state {S} (r : flow S) : S :=
  match r with Next s | Stop _ s => s end.

(** ** [get_application_communication_map] *)

Record connection_detail := ConnectionDetail {
  cd_remote_host : string;
  cd_remote_port : Z;
  cd_local_port : option string;
  cd_protocol : string;
  cd_connection_type : string;
  cd_target_service : option string;
  cd_service_name : option string
}.

Record pts_entry := PtsEntry {
  pts_pid : Z;
  pts_cmdline : string;
  local_connections : list connection_detail;
  external_connections : list connection_detail
}.

(** An element of a [service_clients] list. *)
Record client_entry := ClientEntry {
  client : string;
  ce_client_pid : Z;
  ce_port : Z
}.

(** An element of [communication_matrix]; local edges carry
    [target_service], external ones [target_host] and [likely_service]. *)
Record matrix_entry := MatrixEntry {
  source_process : string;
  source_pid : Z;
  me_target_service : option string;
  me_target_host : option string;
  target_port : Z;
  connection_type : string;
  protocol : string;
  likely_service : option string
}.

(** The returned dictionary ([process_to_external] stays empty). *)
Record comm_map := CommMap {
  process_to_service : list (string * pts_entry);
  service_clients : list (string * list client_entry);
  communication_matrix : list matrix_entry
}.

(** [remote_ip in ['127.0.0.1', '::1', 'localhost'] or
    remote_ip.startswith('127.')] *)
Definition comm_is_local (remote_ip : string) : bool :=
  bool_decide (remote_ip ∈ ["127.0.0.1"; "::1"; "localhost"])
  || PyStr.startswith "127." remote_ip.

(** [self.port_service_map.get(remote_port, {}).get('service',
    f'unknown-port-{remote_port}')] *)
Definition target_service_of (self : inventory_state) (remote_port : Z) : string :=
  match oget remote_port (port_service_map self) with
  | Some b => ps_service b
  | None => "unknown-port-" +:+ PyStr.str_int remote_port
  end.

(** [conn['local_address'].split(':')[1] if conn['local_address'] else None] *)
Definition local_port_of (c : conn_info) : result (option string) :=
  match str_truthy (ci_local_address c) with
  | Some la =>
      match PyStr.split ":" la !! 1%nat with
      | Some x => Ok (Some x)
      | None => Raise (IndexError "list index out of range")
      end
  | None => Ok None
  end.

(** [remote_ip, remote_port = conn['remote_address'].split(':')] followed
    by [remote_port = int(remote_port)]. *)
Definition comm_parse_remote (ra : string) : result (string * Z) :=
  match PyStr.split ":" ra with
  | [remote_ip; remote_port] =>
      match PyStr.int remote_port with
      | Some n => Ok (remote_ip, n)
      | None => Raise (ValueError "invalid literal for int() with base 10")
      end
  | [_] => Raise (ValueError "not enough values to unpack (expected 2, got 1)")
  | _ => Raise (ValueError "too many values to unpack (expected 2)")
  end.

(** The local branch: the process view, the per-service client list
    (a client name is added once) and the matrix. *)
Definition comm_local (self : inventory_state) (proc_name : string) (pid : Z)
    (remote_ip : string) (remote_port : Z) (lp : option string) (proto : string)
    (cm : comm_map) : comm_map :=
  let target_service := target_service_of self remote_port in
  let detail := ConnectionDetail remote_ip remote_port lp proto "local"
                                 (Some target_service) None in
  let pts := oalter (λ e, PtsEntry (pts_pid e) (pts_cmdline e)
                            (local_connections e ++ [detail])
                            (external_connections e))
                    proc_name (process_to_service cm) in
  let clients := default [] (oget target_service (service_clients cm)) in
  let clients' :=
    if bool_decide (proc_name ∈ client <$> clients) then clients
    else clients ++ [ClientEntry proc_name pid remote_port] in
  CommMap pts (oset target_service clients' (service_clients cm))
          (communication_matrix cm ++
             [MatrixEntry proc_name pid (Some target_service) None remote_port
                          "local" proto None]).

(** The external branch. *)
Definition comm_external (proc_name : string) (pid : Z)
    (remote_ip : string) (remote_port : Z) (lp : option string) (proto : string)
    (cm : comm_map) : comm_map :=
  let service_name := _identify_service_by_port remote_port in
  let detail := ConnectionDetail remote_ip remote_port lp proto "external"
                                 None (Some service_name) in
  let pts := oalter (λ e, PtsEntry (pts_pid e) (pts_cmdline e)
                            (local_connections e)
                            (external_connections e ++ [detail]))
                    proc_name (process_to_service cm) in
  CommMap pts (service_clients cm)
          (communication_matrix cm ++
             [MatrixEntry proc_name pid None (Some remote_ip) remote_port
                          "external" proto (Some service_name)]).

(** Body of [for conn in connections:]. *)
Definition comm_conn (self : inventory_state) (proc_name : string) (pid : Z)
    (cm : comm_map) (conn : conn_info) : flow comm_map :=
  if decide (ci_status conn = "ESTABLISHED") then
    match str_truthy (ci_remote_address conn) with
    | None => Next cm
    | Some ra =>
        match comm_parse_remote ra with
        | Raise e => Stop e cm
        | Ok (remote_ip, remote_port) =>
            match local_port_of conn with
            | Raise e => Stop e cm
            | Ok lp =>
                let proto :=
                  if PyStr.contains "STREAM" (ci_type conn) then "TCP" else "UDP" in
                if comm_is_local remote_ip
                then Next (comm_local self proc_name pid remote_ip remote_port lp proto cm)
                else Next (comm_external proc_name pid remote_ip remote_port lp proto cm)
            end
        end
    end
  else Next cm.

(** [proc.name()] and [' '.join(proc.cmdline())] inside the per-pid [try]. *)
Definition lookup_name_cmdline (ps : process_table) (p : Z) : option (string * string) :=
  pr ← ps p;
  n ← p_name pr;
  c ← p_cmdline pr;
  Some (n, join_space c).

(** Body of [for pid, connections in self.process_connections.items():].
    A failed process lookup is the [continue] of the inner handler. *)
Definition comm_pid (self : inventory_state) (ps : process_table)
    (cm : comm_map) (item : Z * list conn_info) : flow comm_map :=
  let '(pid, conns) := item in
  match lookup_name_cmdline ps pid with
  | None => Next cm
  | Some (proc_name, proc_cmdline) =>
      let pts :=
        if omem proc_name (process_to_service cm) then process_to_service cm
        else oset proc_name (PtsEntry pid proc_cmdline [] [])
                  (process_to_service cm) in
      fold_flow (comm_conn self proc_name pid)
                (CommMap pts (service_clients cm) (communication_matrix cm))
                conns
  end.

(** The loop of [get_application_communication_map], keeping the exception
    that ended it, if any. *)
Definition comm_run (self : inventory_state) (ps : process_table) : flow comm_map :=
  fold_flow (comm_pid self ps) (CommMap [] [] []) (process_connections self).

(** [get_application_communication_map]: the outer handler catches every
    exception, prints it and returns the map as built so far. *)
Definition get_application_communication_map (self : inventory_state)
    (ps : process_table) : comm_map :=
  flow_state (comm_run self ps).

(** ** [get_port_dependencies] *)

Record client_info := ClientInfo {
  client_process : string;
  client_pid : Z
}.

Global Instance client_info_eq_dec : EqDecision client_info.
Proof. solve_decision. Defined.

Record listening_service := ListeningService {
  ls_service : string;
  ls_pid : option Z;
  ls_well_known_service : string;
  ls_clients : list client_info
}.

Record dependency_edge := DependencyEdge {
  de_client_process : string;
  de_client_pid : Z;
  de_server_port : Z;
  de_server_service : string;
  de_dependency_type : string
}.

Record port_usage := PortUsage {
  pu_service : string;
  pu_well_known_name : string;
  pu_client_count : nat;
  pu_clients : list string
}.

(** The returned dictionary ([well_known_ports] stays empty). *)
Record port_deps := PortDeps {
  listening_services : list (Z * listening_service);
  port_usage_map : list (Z * port_usage);
  dependency_graph : list dependency_edge
}.

(** The first loop: one entry per key of [port_service_map]. *)
Definition init_listening_services (self : inventory_state)
  : list (Z * listening_service) :=
  foldl (λ acc '(p, b),
           oset p (ListeningService (ps_service b) (ps_pid b)
                                    (_identify_service_by_port p) []) acc)
        [] (port_service_map self).

(** The address parsing of the second loop.  [remote_address] is a string in
    every record [get_network_info] stores, never a tuple. *)
Definition deps_parse_remote (remote_addr : string) : result (string * Z) :=
  let parts :=
    if PyStr.startswith "[" remote_addr
    then PyStr.rsplit1 "]:" (PyStr.drop 1 remote_addr)
    else PyStr.rsplit1 ":" remote_addr in
  match parts with
  | None => Raise (ValueError "not enough values to unpack (expected 2, got 1)")
  | Some (remote_ip, remote_port) =>
      match PyStr.int remote_port with
      | Some n => Ok (remote_ip, n)
      | None => Raise (ValueError "invalid literal for int() with base 10")
      end
  end.

(** [remote_ip == '::1' or remote_ip.startswith('127.')] *)
Definition deps_is_local (remote_ip : string) : bool :=
  bool_decide (remote_ip = "::1") || PyStr.startswith "127." remote_ip.

(** Variables of the second loop. *)
Record deps_loop := DepsLoop {
  dl_listening : list (Z * listening_service);
  dl_graph : list dependency_edge
}.

(** Body of [for conn in connections:]. *)
Definition deps_conn (proc_name : string) (pid : Z) (st : deps_loop)
    (conn : conn_info) : result deps_loop :=
  if decide (ci_status conn = "ESTABLISHED") then
    match str_truthy (ci_remote_address conn) with
    | None => Ok st
    | Some remote_addr =>
        '(remote_ip, remote_port) ←! deps_parse_remote remote_addr;
        if deps_is_local remote_ip then
          match oget remote_port (dl_listening st) with
          | Some ls =>
              let ci := ClientInfo proc_name pid in
              let clients :=
                if bool_decide (ci ∈ ls_clients ls) then ls_clients ls
                else ls_clients ls ++ [ci] in
              Ok (DepsLoop
                    (oset remote_port
                          (ListeningService (ls_service ls) (ls_pid ls)
                                            (ls_well_known_service ls) clients)
                          (dl_listening st))
                    (dl_graph st ++
                       [DependencyEdge proc_name pid remote_port (ls_service ls)
                                       "port-level"]))
          | None => Ok st
          end
        else Ok st
    end
  else Ok st.

Fixpoint deps_conns (proc_name : string) (pid : Z) (st : deps_loop)
    (l : list conn_info) : result deps_loop :=
  match l with
  | [] => Ok st
  | c :: l' => st' ←! deps_conn proc_name pid st c; deps_conns proc_name pid st' l'
  end.

(** Body of [for pid, connections in self.process_connections.items():];
    only [proc.name()] is needed here. *)
Definition deps_pid (ps : process_table) (st : deps_loop)
    (item : Z * list conn_info) : result deps_loop :=
  let '(pid, conns) := item in
  match ps pid ≫= p_name with
  | None => Ok st
  | Some proc_name => deps_conns proc_name pid st conns
  end.

Fixpoint deps_pids (ps : process_table) (st : deps_loop)
    (l : list (Z * list conn_info)) : result deps_loop :=
  match l with
  | [] => Ok st
  | it :: l' => st' ←! deps_pid ps st it; deps_pids ps st' l'
  end.

(** The third loop: the per-port summary. *)
Definition usage_of (ls : list (Z * listening_service)) : list (Z * port_usage) :=
  foldl (λ acc '(p, info),
           oset p (PortUsage (ls_service info) (ls_well_known_service info)
                             (length (ls_clients info))
                             (client_process <$> ls_clients info)) acc)
        [] ls.

(** [get_port_dependencies]; a [ValueError] of the address parsing is not
    caught in the function. *)
Definition get_port_dependencies (self : inventory_state) (ps : process_table)
  : result port_deps :=
  st ←! deps_pids ps (DepsLoop (init_listening_services self) [])
                  (process_connections self);
  Ok (PortDeps (dl_listening st) (usage_of (dl_listening st)) (dl_graph st)).

(** ** The correlation pipeline of [collect_all]

    [get_network_info], [get_application_communication_map] and
    [get_port_dependencies] run in this order on a fresh instance, over one
    snapshot of connections and one process table. *)
Record correlation := Correlation {
  network : network_info;
  application_communication : comm_map;
  port_dependencies : port_deps
}.

Definition correlate (ps : process_table) (net : option (list sconn))
  : result correlation :=
  '(self, ni) ←! get_network_info init_state ps net;
  let cm := get_application_communication_map self ps in
  pd ←! get_port_dependencies self ps;
  Ok (Correlation ni cm pd).

(** ** Values of the [cpu_history] dictionary

    Floating-point numbers are kept abstract: [float(s)] either raises
    [ValueError] ([None]) or yields a value, and the aggregates are
    uninterpreted operations.  None of the properties below depends on the
    numeric value of a sample. *)

Class FloatOps := {
  float : Type;
  (** [float(s)] *)
  float_of_string : string → option float;
  (** [round(x, 2)] *)
  round2 : float → float;
  (** [sum(l) / len(l)], [min(l)] and [max(l)] on a non-empty list *)
  fmean : list float → float;
  fmin : list float → float;
  fmax : list float → float
}.

#[local] Unset Elimination Schemes.
Inductive pyval `{FloatOps} :=
| PNone
| PBool (b : bool)
| PInt (n : Z)
| PFloat (x : float)
| PStr (s : string)
| PList (l : list pyval)
| PDict (d : list (string * pyval)).
#[local] Set Elimination Schemes.

(** Outcome of [subprocess.run(..., capture_output=True, text=True,
    timeout=...)]. *)
Inductive run_outcome :=
| Completed (returncode : Z) (stdout stderr : string)
| RunRaises (e : exn).

Section cpu_history.
Context `{FO : FloatOps}.

(** The dictionary literal both collectors start from. *)
Definition cpu_history_init : gmap string pyval :=
  list_to_map
    [ ("available", PBool false); ("date", PNone); ("average", PDict []);
      ("hourly_data", PList []); ("raw_output", PNone); ("error", PNone) ].

(** ** [ServerInventory.get_previous_day_cpu_utilization] (sar) *)

Record sar_env := SarEnv {
  (** [yesterday.strftime('%d')] and [yesterday.strftime('%Y-%m-%d')] *)
  sa_file_day : string;
  yesterday_ymd : string;
  (** [shutil.which("rpm")] is not [None] *)
  has_rpm : bool;
  (** [os.path.exists] *)
  path_exists : string → bool;
  (** [subprocess.run(['sar', '-u', '-f', path], ..., timeout=30)] *)
  run_sar : string → run_outcome
}.

(** The two objects the parsing loop mutates: the value of
    [cpu_history['average']] and the list [cpu_history['hourly_data']]. *)
Record sar_state := SarState {
  sar_average : list (string * pyval);
  sar_hourly : list pyval
}.

(** [float(parts[i])]; [parts[i]] exists at every use in the Average
    branch, and a missing index is an [IndexError] in the data branch. *)
Definition float_at (parts : list string) (i : nat) : result float :=
  match parts !! i with
  | None => Raise (IndexError "list index out of range")
  | Some x =>
      match float_of_string x with
      | Some v => Ok v
      | None => Raise (ValueError ("could not convert string to float: " +:+ x))
      end
  end.

(** The six float fields, evaluated left to right from [parts[base]]. *)
Definition six_floats (parts : list string) (base : nat)
  : result (list (string * pyval)) :=
  u ←! float_at parts base;
  n ←! float_at parts (base + 1);
  sy ←! float_at parts (base + 2);
  io ←! float_at parts (base + 3);
  st ←! float_at parts (base + 4);
  idl ←! float_at parts (base + 5);
  Ok [ ("user", PFloat u); ("nice", PFloat n); ("system", PFloat sy);
       ("iowait", PFloat io); ("steal", PFloat st); ("idle", PFloat idl) ].

(** The dictionary appended to [hourly_data] for a data line. *)
Definition sar_sample (parts : list string) (time_col : nat)
  : result pyval :=
  match parts !! time_col, parts !! (time_col + 1)%nat with
  | Some t, Some c =>
      fl ←! six_floats parts (time_col + 2);
      Ok (PDict (("time", PStr t) :: ("cpu", PStr c) :: fl))
  | _, _ => Raise (IndexError "list index out of range")
  end.

(** [':' in parts[i]] for an index known to exist. *)
Definition colon_at (parts : list string) (i : nat) : bool :=
  match parts !! i with
  | Some x => PyStr.contains ":" x
  | None => false
  end.

(** Body of [for line in lines:]. *)
Definition sar_line (st : sar_state) (line0 : string) : flow sar_state :=
  let line := PyStr.strip line0 in
  if decide (line = "") then Next st
  else if PyStr.startswith "Average:" line then
    let parts := PyStr.split_ws line in
    if decide (8 ≤ length parts)%nat then
      match six_floats parts 2 with
      | Ok avg => Next (SarState avg (sar_hourly st))
      | Raise e => Stop e st
      end
    else Next st
  else if PyStr.contains ":" line
          && negb (PyStr.startswith "Linux" line)
          && negb (PyStr.startswith "Average" line) then
    let parts := PyStr.split_ws line in
    if bool_decide (8 ≤ length parts)%nat
       && (colon_at parts 0 || colon_at parts 1) then
      let time_col := if colon_at parts 0 then 0%nat else 1%nat in
      match sar_sample parts time_col with
      | Ok d => Next (SarState (sar_average st) (sar_hourly st ++ [d]))
      | Raise _ => Next st
      end
    else Next st
  else Next st.

(** Writes the loop's two objects back under their keys. *)
Definition sar_store (st : sar_state) (h : gmap string pyval) : gmap string pyval :=
  <["hourly_data" := PList (sar_hourly st)]>
    (<["average" := PDict (sar_average st)]> h).

(** The sysstat file of yesterday, under the directory of the
    distribution family. *)
Definition sa_file_path (env : sar_env) : string :=
  if has_rpm env then "/var/log/sa/sa" +:+ sa_file_day env
  else "/var/log/sysstat/sa" +:+ sa_file_day env.

(** The [try] block: [Next] when it runs to its end or returns, [Stop]
    when an exception leaves it. *)
Definition sar_try (env : sar_env) : flow (gmap string pyval) :=
  let h := cpu_history_init in
  if negb (path_exists env (sa_file_path env)) then
    Next (<["error" := PStr ("Sysstat file not found: " +:+ sa_file_path env)]> h)
  else
    match run_sar env (sa_file_path env) with
    | RunRaises e => Stop e h
    | Completed rc out err =>
        if decide (rc = 0) then
          let h1 := <["raw_output" := PStr out]>
                      (<["date" := PStr (yesterday_ymd env)]>
                         (<["available" := PBool true]> h)) in
          let lines := PyStr.split "010" (PyStr.strip out) in
          match fold_flow sar_line (SarState [] []) lines with
          | Next st => Next (sar_store st h1)
          | Stop e st => Stop e (sar_store st h1)
          end
        else Next (<["error" := PStr ("sar command failed: " +:+ err)]> h)
    end.

(** The three [except] clauses, in order. *)
Definition sar_handler (e : exn) : string :=
  match e with
  | FileNotFoundError _ => "sar command not found. Install sysstat package."
  | TimeoutExpired _ => "sar command timed out"
  | _ => "Error collecting previous day CPU data: " +:+ str_exn e
  end.

Definition get_previous_day_cpu_utilization (env : sar_env)
  : result (gmap string pyval) :=
  match sar_try env with
  | Next h => Ok h
  | Stop e h => Ok (<["error" := PStr (sar_handler e)]> h)
  end.

End cpu_history.

(** ** [WindowsServerInventory.get_previous_day_cpu_utilization]
    (Performance Monitor logs)

    The [print] calls of the function are not modelled. *)

Module Windows.
Section cpu_history.
Context `{FO : FloatOps}.

(** A file met by [os.walk(perf_log_dir)]: its joined path, its name, and
    [(now - mtime).days], [None] when reading the time raises. *)
Record walk_file := WalkFile {
  wf_path : string;
  wf_name : string;
  wf_age_days : option Z
}.

(** A row of [csv.DictReader]: the key [None] holds the surplus fields of a
    long row, the value [None] fills the missing fields of a short one. *)
Definition dict_row := list (option string * option string).

Record perf_env := PerfEnv {
  (** [yesterday.strftime('%Y-%m-%d')] *)
  w_yesterday_ymd : string;
  (** [os.path.exists(perf_log_dir)] *)
  w_dir_exists : bool;
  w_walk : list walk_file;
  (** [list(csv.reader(open(path)))] *)
  w_read_csv : string → result (list (list string));
  (** [datetime.now().strftime("%Y%m%d%H%M%S")] *)
  w_stamp : string;
  (** [subprocess.run(['relog', log, '-f', 'CSV', '-o', out, '-y'],
      timeout=60)] *)
  w_relog : string → string → run_outcome;
  (** [os.path.exists(csv_output)] after the conversion *)
  w_output_exists : string → bool;
  (** [list(csv.DictReader(open(path)))] *)
  w_read_dict_csv : string → result (list dict_row);
  (** [os.remove(path)]: the exception it raises, if any *)
  w_remove : string → option exn;
  (** [self.check_performance_monitor_status()]: ['exists'], ['running'] *)
  w_pm_exists : bool;
  w_pm_running : bool
}.

Definition perf_log_dir : string := "C:\PerfLogs\Admin\SystemInventoryCPU".

(** The two lists built while walking the directory. *)
Definition recent (f : walk_file) : bool :=
  match wf_age_days f with
  | Some d => bool_decide (d ≤ 2)
  | None => false
  end.

Definition blg_files (env : perf_env) : list string :=
  wf_path <$> filter (λ f, recent f && PyStr.endswith ".blg" (wf_name f)) (w_walk env).

Definition csv_files (env : perf_env) : list string :=
  wf_path <$> filter (λ f, recent f && negb (PyStr.endswith ".blg" (wf_name f))
                           && PyStr.endswith ".csv" (wf_name f)) (w_walk env).

(** [not idx] for a column index: [None] and [0] are false values. *)
Definition idx_unset (i : option nat) : bool :=
  match i with
  | None | Some O => true
  | Some (S _) => false
  end.

Record columns := Columns {
  timestamp_idx : option nat;
  cpu_idx : option nat;
  memory_idx : option nat;
  disk_idx : option nat
}.

(** Body of [for i, header in enumerate(headers):]. *)
Definition find_column (c : columns) (ih : nat * string) : columns :=
  let '(i, header) := ih in
  let pick cur (cond : bool) := if idx_unset cur && cond then Some i else cur in
  Columns
    (pick (timestamp_idx c)
          (PyStr.contains "Time" header || PyStr.contains "PDH-CSV" header))
    (pick (cpu_idx c)
          (PyStr.contains "Processor Time" header && PyStr.contains "_Total" header))
    (pick (memory_idx c) (PyStr.contains "Available MBytes" header))
    (pick (disk_idx c)
          (PyStr.contains "Disk Time" header && PyStr.contains "_Total" header)).

Definition find_columns (headers : list string) : columns :=
  foldl find_column (Columns None None None None) (imap pair headers).

(** [max(filter(None, [timestamp_idx, cpu_idx, memory_idx, disk_idx]))] *)
Definition max_index (c : columns) : result nat :=
  let kept := omap (λ i, match i with Some (S n) => Some (S n) | _ => None end)
                   [timestamp_idx c; cpu_idx c; memory_idx c; disk_idx c] in
  match kept with
  | [] => Raise (ValueError "max() arg is an empty sequence")
  | x :: l => Ok (foldl Nat.max x l)
  end.

(** The double quote character. *)
Definition dquote : ascii := ascii_of_nat 34.

(** [float(row[i].strip(q))], [q] the double quote, guarded by [i is not None and len(row) > i];
    [None] when the guard fails or the conversion raises. *)
Definition cell_float (row : list string) (i : option nat) : option float :=
  i ← i; x ← row !! i; float_of_string (PyStr.strip_char dquote x).

(** Lists the CSV loops append to. *)
Record perf_acc := PerfAcc {
  cpu_values : list float;
  hourly_data : list pyval
}.

(** The entries a row contributes to [data_point], in insertion order. *)
Definition data_point_of (ts : option string) (cpu mem disk : option float)
  : list (string * pyval) :=
  option_list ((λ t, ("timestamp", PStr t)) <$> ts)
  ++ option_list ((λ v, ("cpu_percent", PFloat (round2 v))) <$> cpu)
  ++ option_list ((λ v, ("memory_available_mb", PFloat (round2 v))) <$> mem)
  ++ option_list ((λ v, ("disk_percent", PFloat (round2 v))) <$> disk).

(** The two appends that end the processing of a row. *)
Definition add_point (ts : option string) (cpu mem disk : option float)
    (acc : perf_acc) : perf_acc :=
  let dp := data_point_of ts cpu mem disk in
  PerfAcc (cpu_values acc ++ option_list cpu)
          (if bool_decide (dp ≠ [])
              && (bool_decide (is_Some cpu) || bool_decide (is_Some mem))
           then hourly_data acc ++ [PDict dp] else hourly_data acc).

(** Body of [for row in rows[1:]:] of the CSV branch. *)
Definition csv_row (c : columns) (acc : perf_acc) (row : list string)
  : flow perf_acc :=
  match max_index c with
  | Raise e => Stop e acc
  | Ok m =>
      if decide (length row ≤ m)%nat then Next acc
      else
        let ts := i ← timestamp_idx c; x ← row !! i;
                  Some (PyStr.strip_char dquote x) in
        Next (add_point ts (cell_float row (cpu_idx c))
                        (cell_float row (memory_idx c))
                        (cell_float row (disk_idx c)) acc)
  end.

(** The [try] block of one CSV file. *)
Definition csv_file_try (env : perf_env) (acc : perf_acc) (csv_file : string)
  : flow perf_acc :=
  match w_read_csv env csv_file with
  | Raise e => Stop e acc
  | Ok rows =>
      match rows with
      | headers :: data =>
          match data with
          | [] => Next acc
          | _ :: _ => fold_flow (csv_row (find_columns headers)) acc data
          end
      | [] => Next acc
      end
  end.

(** [cpu_history['file_errors'] = cpu_history.get('file_errors', [])]
    followed by the append. *)
Definition add_file_error (msg : string) (h : gmap string pyval) : gmap string pyval :=
  let old := match h !! "file_errors" with
             | Some (PList l) => l
             | _ => []
             end in
  <["file_errors" := PList (old ++ [PStr msg])]> h.

(** Body of [for csv_file in csv_files:], handler included. *)
Definition csv_file_step (env : perf_env)
    (st : perf_acc * gmap string pyval) (csv_file : string)
  : perf_acc * gmap string pyval :=
  match csv_file_try env st.1 csv_file with
  | Next acc => (acc, st.2)
  | Stop e acc => (acc, add_file_error (csv_file +:+ ": " +:+ str_exn e) st.2)
  end.

(** The assignments made when [cpu_values] is not empty (both branches). *)
Definition store_samples (acc : perf_acc) (h : gmap string pyval) : gmap string pyval :=
  <["total_samples" := PInt (Z.of_nat (length (hourly_data acc)))]>
    (<["sample_interval_minutes" := PInt 5]>
       (<["hourly_data" := PList (hourly_data acc)]>
          (<["data_points" := PInt (Z.of_nat (length (cpu_values acc)))]>
             (<["average" := PDict
                   [ ("total", PFloat (round2 (fmean (cpu_values acc))));
                     ("min", PFloat (round2 (fmin (cpu_values acc))));
                     ("max", PFloat (round2 (fmax (cpu_values acc)))) ]]>
                (<["available" := PBool true]> h))))).

(** The [if csv_files:] branch. *)
Definition csv_branch (env : perf_env) (h : gmap string pyval) : gmap string pyval :=
  let '(acc, h1) := foldl (csv_file_step env) (PerfAcc [] [], h) (csv_files env) in
  match cpu_values acc with
  | _ :: _ => store_samples acc h1
  | [] =>
      <["debug_info" := PDict
          [ ("csv_files_processed", PInt (Z.of_nat (length (csv_files env))));
            ("total_rows_found", PInt (Z.of_nat (length (hourly_data acc))));
            ("suggestion", PStr "Run diagnose_csv.py to inspect the CSV file contents") ]]>
        (<["note" := PStr "Performance Monitor may have just started. Wait a few minutes for data collection, or check that the collector is running properly."]>
           (<["error" := PStr "CSV files found but no valid CPU data extracted"]> h1))
  end.

Record dict_columns := DictColumns {
  timestamp_key : option string;
  cpu_key : option string;
  memory_key : option string;
  disk_key : option string
}.

(** [not key] for a column name: [None] and [''] are false values. *)
Definition key_unset (k : option string) : bool :=
  match str_truthy k with Some _ => false | None => true end.

(** Body of [for key in first_row.keys():]; a [None] key makes the first
    substring test that is evaluated raise [TypeError]. *)
Definition find_dict_column (c : dict_columns) (key : option string)
  : flow dict_columns :=
  match key with
  | None =>
      if key_unset (timestamp_key c) || key_unset (cpu_key c)
         || key_unset (memory_key c) || key_unset (disk_key c)
      then Stop (TypeError "argument of type 'NoneType' is not iterable") c
      else Next c
  | Some k =>
      let pick cur (cond : bool) := if key_unset cur && cond then Some k else cur in
      Next (DictColumns
              (pick (timestamp_key c)
                    (PyStr.contains "PDH-CSV" k || PyStr.contains "Time" k))
              (pick (cpu_key c)
                    (PyStr.contains "Processor Time" k && PyStr.contains "_Total" k))
              (pick (memory_key c) (PyStr.contains "Available MBytes" k))
              (pick (disk_key c)
                    (PyStr.contains "Disk Time" k && PyStr.contains "_Total" k)))
  end.

(** [row.get(key)] when [key] is set and the value is a non-empty string. *)
Definition dict_cell (row : dict_row) (key : option string) : option string :=
  k ← str_truthy key; str_truthy (mjoin (oget (Some k) row)).

(** Body of [for row in rows:] of the converted-log branch. *)
Definition dict_row_step (c : dict_columns) (acc : perf_acc) (row : dict_row)
  : perf_acc :=
  add_point (dict_cell row (timestamp_key c))
            (dict_cell row (cpu_key c) ≫= float_of_string)
            (dict_cell row (memory_key c) ≫= float_of_string)
            (dict_cell row (disk_key c) ≫= float_of_string) acc.

(** The inner [try] of the converted-log branch, up to [os.remove]. *)
Definition blg_parse_try (env : perf_env) (csv_output : string)
    (h : gmap string pyval) : flow (gmap string pyval) :=
  match w_read_dict_csv env csv_output with
  | Raise e => Stop e h
  | Ok rows =>
      let parsed :=
        match rows with
        | [] => Next h
        | first_row :: _ =>
            match fold_flow find_dict_column
                            (DictColumns None None None None) first_row.*1 with
            | Stop e _ => Stop e h
            | Next c =>
                let acc := foldl (dict_row_step c) (PerfAcc [] []) rows in
                match cpu_values acc with
                | _ :: _ => Next (store_samples acc h)
                | [] => Next h
                end
            end
        end in
      match parsed with
      | Stop e h' => Stop e h'
      | Next h' =>
          match w_remove env csv_output with
          | Some e => Stop e h'
          | None => Next h'
          end
      end
  end.

(** The temporary file the binary log is converted into. *)
Definition csv_output (env : perf_env) : string :=
  "C:\PerfLogs\temp_cpu_export_" +:+ w_stamp env +:+ ".csv".

(** The [elif log_files:] branch with its two handlers. *)
Definition blg_branch (env : perf_env) (log_files : list string)
    (h : gmap string pyval) : gmap string pyval :=
  match log_files with
  | [] => <["extraction_error" := PStr "list index out of range"]> h
  | log_file :: _ =>
      let csv_output := csv_output env in
      match w_relog env log_file csv_output with
      | RunRaises e => <["extraction_error" := PStr (str_exn e)]> h
      | Completed rc out err =>
          if bool_decide (rc = 0) && w_output_exists env csv_output then
            match blg_parse_try env csv_output h with
            | Next h' => h'
            | Stop e h' => <["parse_error" := PStr (str_exn e)]> h'
            end
          else <["relog_error" := PStr err]> h
      end
  end.

Definition is_available (h : gmap string pyval) : bool :=
  match h !! "available" with
  | Some (PBool true) => true
  | _ => false
  end.

(** The body of the outer [try]; no exception leaves it. *)
Definition perf_try (env : perf_env) : gmap string pyval :=
  let h := <["date" := PStr (w_yesterday_ymd env)]> cpu_history_init in
  if w_dir_exists env then
    let files_to_process :=
      match csv_files env with [] => blg_files env | l => l end in
    match files_to_process with
    | [] =>
        <["note" := PStr "Data collector may need to run for at least 24 hours to collect historical data."]>
          (<["error" := PStr ("No Performance Monitor logs (.csv or .blg) found in " +:+ perf_log_dir)]> h)
    | _ :: _ =>
        let h1 := <["file_type" := PStr (match csv_files env with [] => "blg" | _ => "csv" end)]>
                    (<["log_files_found" := PList (PStr <$> files_to_process)]> h) in
        let h2 := match csv_files env with
                  | _ :: _ => csv_branch env h1
                  | [] => blg_branch env (blg_files env) h1
                  end in
        if is_available h2 then h2
        else <["note" := PStr "Performance Monitor logs found but data extraction needs more time or configuration."]> h2
    end
  else if negb (w_pm_exists env) then
    <["note" := PStr "Run with --enable-perfmon to automatically configure CPU data collection"]>
      (<["error" := PStr "Performance Monitor data collector not configured"]> h)
  else
    <["note" := PStr (if w_pm_running env
                      then "Data collector is running but needs time to collect data (wait 24 hours)"
                      else "Data collector exists but is not running. Run with --enable-perfmon to start it.")]>
      (<["error" := PStr ("Performance Monitor log directory not found: " +:+ perf_log_dir)]> h).

Definition get_previous_day_cpu_utilization (env : perf_env)
  : result (gmap string pyval) :=
  Ok (perf_try env).

End cpu_history.
End Windows.

(** ** [collect_all]

    The collectors that are not embedded above appear through their
    outcomes, in the order [collect_all] calls them; the first exception
    leaves [collect_all]. *)

Inductive section `{FloatOps} (O : Type) :=
| Opaque (o : O)
| Text (s : string)
| CpuHistory (h : gmap string pyval)
| Network (n : network_info)
| AppComm (c : comm_map)
| PortDependencies (d : port_deps).
Arguments Opaque {_ O} o.
Arguments Text {_ O} s.
Arguments CpuHistory {_ O} h.
Arguments Network {_ O} n.
Arguments AppComm {_ O} c.
Arguments PortDependencies {_ O} d.

Record collaborators (O : Type) := Collaborators {
  now_isoformat : string;
  get_system_info : result O;
  get_os_info : result O;
  get_cpu_info : result O;
  check_and_install_sysstat : result O;
  get_memory_info : result O;
  get_disk_info : result O;
  get_service_dependencies : result O;
  get_docker_info : result O;
  get_firewall_info : result O;
  get_users : result O;
  get_installed_packages : result O;
  get_running_services : result O;
  get_running_processes : result O
}.
Arguments now_isoformat {O} _.
Arguments get_system_info {O} _.
Arguments get_os_info {O} _.
Arguments get_cpu_info {O} _.
Arguments check_and_install_sysstat {O} _.
Arguments get_memory_info {O} _.
Arguments get_disk_info {O} _.
Arguments get_service_dependencies {O} _.
Arguments get_docker_info {O} _.
Arguments get_firewall_info {O} _.
Arguments get_users {O} _.
Arguments get_installed_packages {O} _.
Arguments get_running_services {O} _.
Arguments get_running_processes {O} _.

(** [ServerInventory.collect_all] on the instance [main] creates. *)
Definition collect_all `{FloatOps} {O} (c : collaborators O) (env : sar_env)
    (ps : process_table) (net : option (list sconn))
  : result (list (string * section O)) :=
  system ←! get_system_info c;
  os_info ←! get_os_info c;
  cpu ←! get_cpu_info c;
  sysstat_status ←! check_and_install_sysstat c;
  cpu_history ←! get_previous_day_cpu_utilization env;
  memory ←! get_memory_info c;
  disks ←! get_disk_info c;
  '(self, network) ←! get_network_info init_state ps net;
  service_deps ←! get_service_dependencies c;
  let app_comm := get_application_communication_map self ps in
  port_deps ←! get_port_dependencies self ps;
  docker ←! get_docker_info c;
  firewall ←! get_firewall_info c;
  users ←! get_users c;
  packages ←! get_installed_packages c;
  services ←! get_running_services c;
  processes ←! get_running_processes c;
  Ok [ ("timestamp", Text (now_isoformat c));
       ("system", Opaque system);
       ("os", Opaque os_info);
       ("cpu", Opaque cpu);
       ("cpu_history_previous_day", CpuHistory cpu_history);
       ("sysstat_service_status", Opaque sysstat_status);
       ("memory", Opaque memory);
       ("disks", Opaque disks);
       ("network", Network network);
       ("service_dependencies", Opaque service_deps);
       ("application_communication", AppComm app_comm);
       ("port_dependencies", PortDependencies port_deps);
       ("docker", Opaque docker);
       ("firewall", Opaque firewall);
       ("users", Opaque users);
       ("packages", Opaque packages);
       ("services", Opaque services);
       ("top_processes", Opaque processes) ].

(** The keys of the dictionary [ServerInventory.collect_all] assigns to
    [self.inventory]. *)
Definition inventory_keys : list string :=
  [ "timestamp"; "system"; "os"; "cpu"; "cpu_history_previous_day";
    "sysstat_service_status"; "memory"; "disks"; "network";
    "service_dependencies"; "application_communication"; "port_dependencies";
    "docker"; "firewall"; "users"; "packages"; "services"; "top_processes" ].

Module WindowsCollect.

(** The Windows class has its own network collectors; they are
    collaborators here, like the remaining ones. *)
Record collaborators (O : Type) := Collaborators {
  now_isoformat : string;
  get_system_info : result O;
  get_os_info : result O;
  get_cpu_info : result O;
  get_memory_info : result O;
  get_disk_info : result O;
  get_network_info : result O;
  get_service_dependencies : result O;
  get_application_communication : result O;
  get_port_dependencies : result O;
  get_docker_info : result O;
  get_firewall_info : result O;
  get_users : result O;
  get_installed_packages : result O;
  get_running_services : result O;
  get_running_processes : result O;
  (** the final [check_performance_monitor_status()], which catches every
      exception, and the [scheduled_task_info] literal *)
  pm_status_final : O;
  scheduled_task_info : result O
}.
Arguments now_isoformat {O} _.
Arguments get_system_info {O} _.
Arguments get_os_info {O} _.
Arguments get_cpu_info {O} _.
Arguments get_memory_info {O} _.
Arguments get_disk_info {O} _.
Arguments get_network_info {O} _.
Arguments get_service_dependencies {O} _.
Arguments get_application_communication {O} _.
Arguments get_port_dependencies {O} _.
Arguments get_docker_info {O} _.
Arguments get_firewall_info {O} _.
Arguments get_users {O} _.
Arguments get_installed_packages {O} _.
Arguments get_running_services {O} _.
Arguments get_running_processes {O} _.
Arguments pm_status_final {O} _.
Arguments scheduled_task_info {O} _.

(** [WindowsServerInventory.collect_all], from ["Collecting:"] on; the
    Performance Monitor set-up before it catches its own exceptions. *)
Definition collect_all `{FloatOps} {O} (c : collaborators O)
    (env : Windows.perf_env) : result (list (string * section O)) :=
  system ←! get_system_info c;
  os_info ←! get_os_info c;
  cpu ←! get_cpu_info c;
  cpu_history ←! Windows.get_previous_day_cpu_utilization env;
  memory ←! get_memory_info c;
  disks ←! get_disk_info c;
  network ←! get_network_info c;
  service_deps ←! get_service_dependencies c;
  app_comm ←! get_application_communication c;
  port_deps ←! get_port_dependencies c;
  docker ←! get_docker_info c;
  firewall ←! get_firewall_info c;
  users ←! get_users c;
  packages ←! get_installed_packages c;
  services ←! get_running_services c;
  processes ←! get_running_processes c;
  task_info ←! scheduled_task_info c;
  Ok [ ("timestamp", Text (now_isoformat c));
       ("system", Opaque system);
       ("os", Opaque os_info);
       ("cpu", Opaque cpu);
       ("cpu_history_previous_day", CpuHistory cpu_history);
       ("memory", Opaque memory);
       ("disks", Opaque disks);
       ("network", Opaque network);
       ("service_dependencies", Opaque service_deps);
       ("application_communication", Opaque app_comm);
       ("port_dependencies", Opaque port_deps);
       ("docker", Opaque docker);
       ("firewall", Opaque firewall);
       ("users", Opaque users);
       ("packages", Opaque packages);
       ("services", Opaque services);
       ("top_processes", Opaque processes);
       ("scheduled_task_info", Opaque task_info);
       ("performance_monitor_status", Opaque (pm_status_final c)) ].

Definition inventory_keys : list string :=
  [ "timestamp"; "system"; "os"; "cpu"; "cpu_history_previous_day";
    "memory"; "disks"; "network"; "service_dependencies";
    "application_communication"; "port_dependencies"; "docker"; "firewall";
    "users"; "packages"; "services"; "top_processes";
    "scheduled_task_info"; "performance_monitor_status" ].

End WindowsCollect.

(** ** More Python string primitives

    As in [PyStr], the character classes are those of Python in the 7-bit
    range. *)

Module PyText.

(** The line boundaries of [str.splitlines]: LF, VT, FF, CR, FS, GS, RS. *)
Definition is_linebreak (c : ascii) : bool :=
  let n := nat_of_ascii c in
  ((10 <=? n) && (n <=? 13) || (28 <=? n) && (n <=? 30))%nat.

(** [s.splitlines()]: a CR LF pair is one boundary, and no empty string
    follows a final boundary.  [cur] is the current line, reversed. *)
Fixpoint splitlines_go (cur : string) (s : string) : list string :=
  match s with
  | EmptyString =>
      match cur with EmptyString => [] | _ => [String.rev cur] end
  | String c s' =>
      if is_linebreak c then
        String.rev cur ::
          match s' with
          | String c' s'' =>
              if Ascii.eqb c "013" && Ascii.eqb c' "010"
              then splitlines_go EmptyString s''
              else splitlines_go EmptyString s'
          | EmptyString => []
          end
      else splitlines_go (String c cur) s'
  end.
Definition splitlines : string → list string := splitlines_go EmptyString.

Definition is_digit (c : ascii) : bool :=
  match PyStr.digit_val c with Some _ => true | None => false end.

Fixpoint all_digit (s : string) : bool :=
  match s with
  | EmptyString => true
  | String c s' => is_digit c && all_digit s'
  end.

(** [s.isdigit()] *)
Definition isdigit (s : string) : bool :=
  match s with EmptyString => false | _ => all_digit s end.

Definition lower_char (c : ascii) : ascii :=
  let n := nat_of_ascii c in
  if ((65 <=? n) && (n <=? 90))%nat then ascii_of_nat (n + 32) else c.

(** [s.lower()] *)
Fixpoint lower (s : string) : string :=
  match s with
  | EmptyString => EmptyString
  | String c s' => String (lower_char c) (lower s')
  end.

(** [s.replace(a, b)] for one-character arguments. *)
Fixpoint replace (a b : ascii) (s : string) : string :=
  match s with
  | EmptyString => EmptyString
  | String c s' => String (if Ascii.eqb c a then b else c) (replace a b s')
  end.

(** [s.split(c, 1)] for a one-character separator: the text before and
    after the first occurrence, or [s] alone. *)
Fixpoint split1 (c : ascii) (s : string) : string * option string :=
  match s with
  | EmptyString => (EmptyString, None)
  | String a s' =>
      if Ascii.eqb a c then (EmptyString, Some s')
      else let '(h, t) := split1 c s' in (String a h, t)
  end.

(** [sep.join(l)] *)
Fixpoint join (sep : string) (l : list string) : string :=
  match l with
  | [] => ""
  | [x] => x
  | x :: l' => x +:+ sep +:+ join sep l'
  end.

End PyText.

(** ** Sorting by a key, largest first

    [l.sort(key=..., reverse=True)]: the sort is stable, elements with
    equal keys keep their order.  [lt] is the comparison [<] of the
    keys. *)

Section sort_desc.
Context {A K : Type} (key : A → K) (lt : K → K → bool).

(** Insertion before the first element with a smaller key. *)
Fixpoint insert_desc (x : A) (l : list A) : list A :=
  match l with
  | [] => [x]
  | y :: l' =>
      if lt (key y) (key x) then x :: y :: l' else y :: insert_desc x l'
  end.

Definition sorted_desc (l : list A) : list A :=
  foldl (λ acc x, insert_desc x acc) [] l.

End sort_desc.

(** ** What [print_summary] prints for the listening ports

    The text handed to each [print] call of the block, and how the block
    ends: it runs to its end, or a subscript raises [KeyError]. *)

Inductive summary_outcome :=
| Printed (out : list string)
| KeyError (key : string) (out : list string).

(** A dictionary key of type [int] or [str]. *)
Inductive pykey :=
| KInt (n : Z)
| KStr (s : string).

Global Instance pykey_eq_dec : EqDecision pykey.
Proof. solve_decision. Defined.

(** ** The network collectors of [WindowsServerInventory]

    Each of the three collectors takes its own snapshot with
    [psutil.net_connections(kind='inet')]; [None] stands for the
    [PermissionError] / [AccessDenied] the collector catches. *)

Module WinNet.

(** What [psutil.Process(pid)] gives access to; [None] in a field means the
    accessor raises [NoSuchProcess] or [AccessDenied]. *)
Record Process := MkProcess {
  p_name : option string;
  p_exe : option string;
  p_cmdline : option (list string)
}.

(** The process table: [None] when [psutil.Process(pid)] itself raises. *)
Definition process_table := Z → option Process.

(** *** [get_network_info], connection part *)

Record conn_info := ConnInfo {
  ci_fd : Z;
  ci_family : string;
  ci_type : string;
  ci_local_address : option string;
  ci_remote_address : option string;
  ci_status : string;
  ci_pid : option Z
}.

(** The part of the returned dictionary the connection loop writes. *)
Record network_info := NetworkInfo {
  connections : list conn_info;
  connections_error : option string
}.

Definition conn_info_of (conn : sconn) : conn_info :=
  ConnInfo (fd conn) (family_str conn) (type_str conn)
           (fmt_addr (laddr conn)) (fmt_addr (raddr conn))
           (status conn) (pid conn).

(** Body of [for conn in connections:]; the second component is
    [self.process_connections], a [defaultdict(list)]. *)
Definition net_step (st : list conn_info * list (Z * list conn_info))
    (conn : sconn) : list conn_info * list (Z * list conn_info) :=
  let ci := conn_info_of conn in
  (st.1 ++ [ci],
   match pid_truthy (pid conn) with
   | Some p => oset p (default [] (oget p st.2) ++ [ci]) st.2
   | None => st.2
   end).

Definition get_network_info (pcs : list (Z * list conn_info))
    (net : option (list sconn)) : list (Z * list conn_info) * network_info :=
  match net with
  | None => (pcs, NetworkInfo [] (Some "Requires administrator privileges"))
  | Some conns =>
      let st := foldl net_step ([], pcs) conns in
      (st.2, NetworkInfo st.1 None)
  end.

(** *** [get_application_communication] *)

Record proc_info := ProcInfo {
  pi_pid : Z;
  pi_name : string;
  pi_exe : string;
  pi_cmdline : string
}.

(** An element of [communication_matrix]. *)
Record comm_entry := CommEntry {
  source_process : string;
  source_pid : Z;
  source_address : string;
  destination_address : string;
  destination_port : Z;
  destination_service : string;
  protocol : string;
  ce_status : string
}.

(** An element of a [connects_to] list. *)
Record connects_to_entry := ConnectsTo {
  ct_service : string;
  ct_address : string;
  ct_port : Z
}.

Record pts_entry := PtsEntry {
  process_info : proc_info;
  connects_to : list connects_to_entry
}.

(** An element of a [service_clients] list. *)
Record client_entry := ClientEntry {
  client_process : string;
  client_pid : Z;
  local_address : string
}.

Record communication := Communication {
  process_to_service : list (string * pts_entry);
  service_clients : list (string * list client_entry);
  communication_matrix : list comm_entry;
  ac_error : option string
}.

(** [proc.name()] and the [proc_info] literal: every accessor is called
    before anything is stored, and a failing one is the [continue] of the
    handler. *)
Definition lookup_proc_info (ps : process_table) (p : Z) : option proc_info :=
  pr ← ps p;
  n ← p_name pr;
  e ← p_exe pr;
  c ← p_cmdline pr;
  Some (ProcInfo p n (if decide (e = "") then "unknown" else e)
                 (match c with [] => "" | _ => join_space (take 3 c) end)).

(** Body of [for conn in connections:]. *)
Definition comm_step (ps : process_table) (cm : communication) (conn : sconn)
  : communication :=
  match pid_truthy (pid conn), raddr conn with
  | Some p, Some ra =>
      match lookup_proc_info ps p with
      | None => cm
      | Some info =>
          let proc_name := pi_name info in
          let local_addr := default "unknown" (fmt_addr (laddr conn)) in
          let remote_addr := ip ra +:+ ":" +:+ PyStr.str_int (port ra) in
          let remote_service := identify_service_by_port (port ra) in
          let pts :=
            if omem proc_name (process_to_service cm) then process_to_service cm
            else oset proc_name (PtsEntry info []) (process_to_service cm) in
          let pts' :=
            oalter (λ e, PtsEntry (process_info e)
                           (connects_to e ++
                              [ConnectsTo remote_service remote_addr (port ra)]))
                   proc_name pts in
          let sc :=
            if decide (remote_service = "") then service_clients cm
            else oset remote_service
                   (default [] (oget remote_service (service_clients cm))
                      ++ [ClientEntry proc_name p local_addr])
                   (service_clients cm) in
          Communication pts' sc
            (communication_matrix cm ++
               [CommEntry proc_name p local_addr remote_addr (port ra)
                          remote_service (type_str conn) (status conn)])
            (ac_error cm)
      end
  | _, _ => cm
  end.

Definition get_application_communication (ps : process_table)
    (net : option (list sconn)) : communication :=
  match net with
  | None => Communication [] [] [] (Some "Requires administrator privileges")
  | Some conns => foldl (comm_step ps) (Communication [] [] [] None) conns
  end.

(** *** [get_port_dependencies] *)

(** The [proc_info] dictionary of a listening process. *)
Record listener_proc := ListenerProc {
  lp_pid : Z;
  lp_name : string;
  lp_exe : string
}.

Global Instance listener_proc_eq_dec : EqDecision listener_proc.
Proof. solve_decision. Defined.

(** The [client_info] dictionary; the key [process_name] is absent when the
    connection has no pid or the lookup raises. *)
Record client_info := ClientInfo {
  address : string;
  cl_pid : option Z;
  process_name : option string
}.

Global Instance win_client_info_eq_dec : EqDecision client_info.
Proof. solve_decision. Defined.

Record listening_service := ListeningService {
  ls_port : Z;
  well_known_service : string;
  processes : list listener_proc;
  clients : list client_info
}.

(** The returned dictionary ([outbound_connections] stays empty). *)
Record port_deps := PortDeps {
  listening_services : list (Z * listening_service);
  port_to_process : list (Z * list listener_proc);
  pd_error : option string
}.

Definition lookup_listener (ps : process_table) (p : Z) : option listener_proc :=
  pr ← ps p;
  n ← p_name pr;
  e ← p_exe pr;
  Some (ListenerProc p n (if decide (e = "") then "unknown" else e)).

(** [l.append(x)] guarded by [if x not in l]. *)
Definition add_new {A} `{EqDecision A} (x : A) (l : list A) : list A :=
  if bool_decide (x ∈ l) then l else l ++ [x].

(** The [if conn.status == 'LISTEN':] block. *)
Definition listen_step (ps : process_table) (st : port_deps) (conn : sconn)
    (local_port : Z) : port_deps :=
  let ls :=
    if omem local_port (listening_services st) then listening_services st
    else oset local_port
           (ListeningService local_port (identify_service_by_port local_port) [] [])
           (listening_services st) in
  match pid_truthy (pid conn) ≫= lookup_listener ps with
  | None => PortDeps ls (port_to_process st) (pd_error st)
  | Some info =>
      PortDeps
        (oalter (λ e, ListeningService (ls_port e) (well_known_service e)
                        (add_new info (processes e)) (clients e))
                local_port ls)
        (oset local_port
              (add_new info (default [] (oget local_port (port_to_process st))))
              (port_to_process st))
        (pd_error st)
  end.

(** The [elif conn.status == 'ESTABLISHED' and conn.raddr:] block. *)
Definition client_step (ps : process_table) (st : port_deps) (conn : sconn)
    (a ra : addr) : port_deps :=
  let remote_port := port ra in
  match oget remote_port (listening_services st) with
  | None => st
  | Some e =>
      let ci := ClientInfo (ip a +:+ ":" +:+ PyStr.str_int (port a)) (pid conn)
                  (p ← pid_truthy (pid conn); pr ← ps p; p_name pr) in
      PortDeps
        (oset remote_port
              (ListeningService (ls_port e) (well_known_service e) (processes e)
                                (add_new ci (clients e)))
              (listening_services st))
        (port_to_process st) (pd_error st)
  end.

(** Body of [for conn in connections:]. *)
Definition deps_step (ps : process_table) (st : port_deps) (conn : sconn)
  : port_deps :=
  match laddr conn with
  | None => st
  | Some a =>
      if decide (status conn = "LISTEN") then listen_step ps st conn (port a)
      else if decide (status conn = "ESTABLISHED") then
        match raddr conn with
        | Some ra => client_step ps st conn a ra
        | None => st
        end
      else st
  end.

Definition get_port_dependencies (ps : process_table)
    (net : option (list sconn)) : port_deps :=
  match net with
  | None => PortDeps [] [] (Some "Requires administrator privileges")
  | Some conns => foldl (deps_step ps) (PortDeps [] [] None) conns
  end.

(** *** [print_summary], the port-dependencies block

    The keys of [listening_services] are the [int] ports of the facts; the
    block looks them up as [str]. *)

(** [for port in sorted([int(p) for p in listening.keys()])[:10]:] *)
Fixpoint summary_ports_loop (listening : list (pykey * listening_service))
    (out : list string) (ports : list Z) : summary_outcome :=
  match ports with
  | [] => Printed out
  | port :: rest =>
      let key := PyStr.str_int port in
      match oget (KStr key) listening with
      | None => KeyError key out
      | Some info =>
          let process_names := PyText.join ", " (lp_name <$> take 2 (processes info)) in
          summary_ports_loop listening
            (out ++
               ["    - Port " +:+ key +:+ ": " +:+ process_names +:+ " ("
                +:+ well_known_service info +:+ ") - "
                +:+ PyStr.str_int (Z.of_nat (length (clients info)))
                +:+ " clients"])
            rest
      end
  end.

Definition summary_ports (pd : port_deps) : summary_outcome :=
  let listening := listening_services pd in
  let out :=
    [ String "010" "Port-Level Dependencies:";
      "  - Listening ports: " +:+ PyStr.str_int (Z.of_nat (length listening)) ] in
  match listening with
  | [] => Printed out
  | _ :: _ =>
      summary_ports_loop (prod_map KInt id <$> listening)
        (out ++ [String "010" "  Key Listening Services:"])
        (take 10 (merge_sort Z.le listening.*1))
  end.

End WinNet.

(** ** The command-output parsers of [ServerInventory] *)

Module DebRep.

(** *** [_parse_iptables_output] *)

Record iptables_rule := IptablesRule {
  rule_number : option string;
  pkts : option string;
  bytes : option string;
  target : option string;
  prot : option string;
  opt : option string;
  source : option string;
  destination : option string;
  extra : option string;
  raw_line : string
}.

(** The dictionary built for a line with at least three fields. *)
Definition rule_of (line : string) : option iptables_rule :=
  let parts := PyStr.split_ws line in
  if decide (3 ≤ length parts)%nat then
    Some (IptablesRule
            (x ← parts !! 0%nat; if PyText.isdigit x then Some x else None)
            (parts !! 1%nat) (parts !! 2%nat) (parts !! 3%nat) (parts !! 4%nat)
            (parts !! 5%nat) (parts !! 6%nat) (parts !! 7%nat)
            (if decide (8 < length parts)%nat
             then Some (join_space (drop 8 parts)) else None)
            (PyStr.strip line))
  else None.

(** Body of [for line in lines:]; the state is [data_start] and [rules]. *)
Definition iptables_step (st : bool * list iptables_rule) (line : string)
  : bool * list iptables_rule :=
  if PyStr.startswith "num" line then (true, st.2)
  else if st.1 && negb (bool_decide (PyStr.strip line = "")) then
    (st.1, st.2 ++ option_list (rule_of line))
  else st.

Definition _parse_iptables_output (output : string) : list iptables_rule :=
  (foldl iptables_step (false, []) (PyStr.split "010" (PyStr.strip output))).2.

(** *** [_parse_ufw_rules] *)

Record ufw_rule := UfwRule {
  raw_rule : string;
  action : string
}.

Definition ufw_step (rules : list ufw_rule) (line : string) : list ufw_rule :=
  if PyStr.contains "Default:" line then rules
  else if PyStr.contains "ALLOW" line || PyStr.contains "DENY" line
          || PyStr.contains "REJECT" line || PyStr.contains "LIMIT" line then
    rules ++
      [UfwRule (PyStr.strip line)
               (if PyStr.contains "ALLOW" line then "ALLOW"
                else if PyStr.contains "DENY" line then "DENY"
                else if PyStr.contains "REJECT" line then "REJECT"
                else "LIMIT")]
  else rules.

Definition _parse_ufw_rules (output : string) : list ufw_rule :=
  foldl ufw_step [] (PyStr.split "010" (PyStr.strip output)).

(** *** [get_installed_packages] *)

Record package := Package {
  pkg_name : string;
  pkg_version : string;
  pkg_architecture : option string;
  pkg_source : string
}.

Record pkg_env := PkgEnv {
  (** [shutil.which(name)] is not [None] *)
  which : string → bool;
  (** the six [subprocess.run(..., timeout=30, check=True)] calls *)
  run_apt_mark : run_outcome;
  run_dpkg : run_outcome;
  run_dnf_history : run_outcome;
  run_dnf_repoquery : run_outcome;
  run_yum_history : run_outcome;
  run_rpm : run_outcome
}.

(** A run with [check=True] under
    [except (CalledProcessError, TimeoutExpired)]: the standard output,
    [None] when one of the two caught exceptions is raised, and any other
    exception escapes. *)
Definition checked (r : run_outcome) : result (option string) :=
  match r with
  | Completed rc out _ => if decide (rc = 0) then Ok (Some out) else Ok None
  | RunRaises (TimeoutExpired _) => Ok None
  | RunRaises e => Raise e
  end.

(** [set(line.strip() for line in out.splitlines() if line.strip())] *)
Definition manual_set (out : string) : list string :=
  filter (λ l, l ≠ "") (PyStr.strip <$> PyText.splitlines out).

(** Body of [for line in dpkg.stdout.splitlines():]. *)
Definition dpkg_line (manual : list string) (line : string) : option package :=
  if PyStr.startswith "ii" line then
    let parts := PyStr.split_ws line in
    if decide (3 ≤ length parts)%nat then
      name ← parts !! 1%nat;
      version ← parts !! 2%nat;
      if bool_decide (name ∈ manual)
      then Some (Package name version (parts !! 3%nat) "apt") else None
    else None
  else None.

(** The text starts with a hyphen and a digit: [-\d] matches here. *)
Definition starts_hyphen_digit (s : string) : bool :=
  match s with
  | String a (String d _) => Ascii.eqb a "-" && PyText.is_digit d
  | _ => false
  end.

(** [re.match(r'^(.+?)-\d', s)], group 1: the shortest non-empty prefix,
    free of line feeds, that a hyphen and a digit follow. *)
Fixpoint nevra_match (s : string) : option string :=
  match s with
  | EmptyString => None
  | String c rest =>
      if Ascii.eqb c "010" then None
      else if starts_hyphen_digit rest then Some (String c EmptyString)
      else String c <$> nevra_match rest
  end.

(** The name added to [user_installed] for a package text. *)
Definition nevra_name (s : string) : string := default s (nevra_match s).

(** The loop over the output of [dnf history userinstalled]. *)
Definition dnf_history_names (out : string) : list string :=
  omap (λ line0,
          let line := PyStr.strip line0 in
          if decide (line = "") then None
          else if PyStr.startswith "Packages installed" line
                  || PyStr.startswith "Last argument" line then None
          else nevra_name <$> head (PyStr.split_ws line))
       (PyText.splitlines out).

(** The loop over the output of [dnf repoquery --userinstalled]. *)
Definition dnf_repoquery_names (out : string) : list string :=
  omap (λ line0,
          let line := PyStr.strip line0 in
          if decide (line = "") then None else Some (nevra_name line))
       (PyText.splitlines out).

(** The loop over the output of [yum history userinstalled]. *)
Definition yum_history_names (out : string) : list string :=
  omap (λ line0,
          let line := PyStr.strip line0 in
          if bool_decide (line = "") || PyStr.startswith "Packages installed" line
          then None
          else nevra_name <$> head (PyStr.split_ws line))
       (PyText.splitlines out).

(** Body of [for line in rpm.stdout.splitlines():]. *)
Definition rpm_line (user_installed : list string) (line : string)
  : option package :=
  if decide (PyStr.strip line = "") then None
  else
    match PyStr.split_ws line with
    | name :: version :: arch :: _ =>
        match user_installed with
        | _ :: _ =>
            if bool_decide (name ∈ user_installed)
            then Some (Package name version (Some arch) "dnf/yum") else None
        | [] => Some (Package name version (Some arch) "rpm-unknown")
        end
    | _ => None
    end.

(** The Debian branch: [Some packages] is the [return] inside the [try],
    [None] the [pass] of its handler. *)
Definition apt_branch (env : pkg_env) : result (option (list package)) :=
  if which env "dpkg" && which env "apt-mark" then
    manual ←! checked (run_apt_mark env);
    match manual with
    | None => Ok None
    | Some mout =>
        dpkg ←! checked (run_dpkg env);
        match dpkg with
        | None => Ok None
        | Some dout =>
            Ok (Some (omap (dpkg_line (manual_set mout)) (PyText.splitlines dout)))
        end
    end
  else Ok None.

(** [user_installed] after the DNF block. *)
Definition dnf_block (env : pkg_env) : result (list string) :=
  if which env "dnf" then
    r ←! checked (run_dnf_history env);
    match r with
    | Some out => Ok (dnf_history_names out)
    | None =>
        r2 ←! checked (run_dnf_repoquery env);
        match r2 with
        | Some out => Ok (dnf_repoquery_names out)
        | None => Ok []
        end
    end
  else Ok [].

(** [user_installed] after the YUM block. *)
Definition yum_block (env : pkg_env) (user_installed : list string)
  : result (list string) :=
  match user_installed with
  | [] =>
      if which env "yum" then
        r ←! checked (run_yum_history env);
        match r with
        | Some out => Ok (yum_history_names out)
        | None => Ok []
        end
      else Ok []
  | _ :: _ => Ok user_installed
  end.

(** The RPM block. *)
Definition rpm_block (env : pkg_env) (user_installed : list string)
  : result (list package) :=
  if which env "rpm" then
    r ←! checked (run_rpm env);
    match r with
    | Some out => Ok (omap (rpm_line user_installed) (PyText.splitlines out))
    | None => Ok []
    end
  else Ok [].

Definition get_installed_packages (env : pkg_env) : result (list package) :=
  apt ←! apt_branch env;
  match apt with
  | Some packages => Ok packages
  | None =>
      u1 ←! dnf_block env;
      u2 ←! yum_block env u1;
      rpm_block env u2
  end.

(** *** [get_running_processes]

    [P] is the [proc.info] dictionary of a process and [memory_percent] its
    entry of that name, [None] when psutil was denied access.  The sort
    compares every key when there are two processes or more, and a
    comparison with [None] raises [TypeError]. *)

Section processes.
Context {P K : Type} (memory_percent : P → option K) (lt : K → K → bool).

Definition get_running_processes (limit : nat) (procs : list P)
  : result (list P) :=
  match mapM (λ p, k ← memory_percent p; Some (p, k)) procs with
  | Some keyed => Ok (take limit (sorted_desc snd lt keyed).*1)
  | None =>
      if decide (2 ≤ length procs)%nat
      then Raise (TypeError "'<' not supported between instances of 'NoneType' and 'float'")
      else Ok (take limit procs)
  end.

End processes.

(** *** [print_summary], the port-dependencies block *)

(** [for port in sorted(listening.keys())[:10]:] *)
Fixpoint summary_ports_loop (listening : list (Z * listening_service))
    (out : list string) (ports : list Z) : summary_outcome :=
  match ports with
  | [] => Printed out
  | port :: rest =>
      match oget port listening with
      | None => KeyError (PyStr.str_int port) out
      | Some info =>
          summary_ports_loop listening
            (out ++
               ["    - Port " +:+ PyStr.str_int port +:+ ": " +:+ ls_service info
                +:+ " (" +:+ ls_well_known_service info +:+ ") - "
                +:+ PyStr.str_int (Z.of_nat (length (ls_clients info)))
                +:+ " clients"])
            rest
      end
  end.

Definition summary_ports (pd : port_deps) : summary_outcome :=
  let listening := listening_services pd in
  let out :=
    [ String "010" "Port-Level Dependencies:";
      "  - Listening ports: " +:+ PyStr.str_int (Z.of_nat (length listening)) ] in
  match listening with
  | [] => Printed out
  | _ :: _ =>
      summary_ports_loop listening
        (out ++ [String "010" "  Key Listening Services:"])
        (take 10 (merge_sort Z.le listening.*1))
  end.

End DebRep.

(** ** The command-output parsers of [WindowsServerInventory] *)

Module WinCmd.

(** *** [get_users] *)

(** The returned value: the list of [{'username': ...}] dictionaries, or
    the [{'error': ...}] dictionary of the handler. *)
Inductive users_result :=
| Users (usernames : list string)
| UsersError (msg : string).

(** Body of [for line in lines:]; the state is [user_section] and
    [users]. *)
Definition users_step (st : bool * list string) (line0 : string)
  : bool * list string :=
  let line := PyStr.strip line0 in
  if PyStr.contains "---" line then (true, st.2)
  else if st.1 && negb (bool_decide (line = "")) then
    (st.1,
     st.2 ++ filter (λ username,
                       negb (bool_decide (username = ""))
                       && negb (PyStr.startswith "The command" username))
                    (PyStr.split_ws line))
  else st.

(** [run] is the outcome of [subprocess.run(['net', 'user'], ...)]. *)
Definition get_users (run : run_outcome) : users_result :=
  match run with
  | RunRaises e => UsersError (str_exn e)
  | Completed rc out _ =>
      if decide (rc = 0)
      then Users (foldl users_step (false, []) (PyStr.split "010" out)).2
      else Users []
  end.

(** *** [get_firewall_info] *)

Record firewall_info := FirewallInfo {
  (** profile name to its ['state'] entry, if set *)
  profiles : list (string * option string);
  state_error : option string;
  rules : list (list (string * string));
  rules_note : option string;
  rules_error : option string
}.

(** Body of the loop over the profile listing; the state is
    [current_profile] and [firewall_info['profiles']]. *)
Definition profile_step (st : option string * list (string * option string))
    (line0 : string) : flow (option string * list (string * option string)) :=
  let line := PyStr.strip line0 in
  if PyStr.contains "Profile Settings" line then
    match head (PyStr.split_ws line) with
    | None => Stop (IndexError "list index out of range") st
    | Some w =>
        let current_profile := PyText.lower w in
        Next (Some current_profile, oset current_profile None st.2)
    end
  else
    match (if PyStr.contains "State" line then str_truthy st.1 else None) with
    | Some current_profile =>
        match last (PyStr.split_ws line) with
        | None => Stop (IndexError "list index out of range") st
        | Some state => Next (st.1, oset current_profile (Some state) st.2)
        end
    | None => Next st
    end.

Definition max_rules : nat := 100.

(** Variables of the loop over the rule listing. *)
Record rules_loop := RulesLoop {
  rl_rule : list (string * string);
  rl_rule_count : nat;
  rl_rules : list (list (string * string))
}.

(** The body of the loop, up to the test that ends the iteration. *)
Definition rule_line (st : rules_loop) (line0 : string) : result rules_loop :=
  let line := PyStr.strip line0 in
  if decide (line = "") then
    match rl_rule st with
    | _ :: _ =>
        if decide (rl_rule_count st < max_rules)%nat
        then Ok (RulesLoop [] (S (rl_rule_count st)) (rl_rules st ++ [rl_rule st]))
        else Ok (RulesLoop [] (rl_rule_count st) (rl_rules st))
    | [] => Ok (RulesLoop [] (rl_rule_count st) (rl_rules st))
    end
  else if PyStr.contains ":" line then
    match PyText.split1 ":" line with
    | (key, Some value) =>
        Ok (RulesLoop
              (oset (PyText.replace " " "_" (PyText.lower (PyStr.strip key)))
                    (PyStr.strip value) (rl_rule st))
              (rl_rule_count st) (rl_rules st))
    | (_, None) =>
        Raise (ValueError "not enough values to unpack (expected 2, got 1)")
    end
  else Ok st.

(** The loop, with its [break]. *)
Fixpoint rules_run (st : rules_loop) (lines : list string) : flow rules_loop :=
  match lines with
  | [] => Next st
  | line :: rest =>
      match rule_line st line with
      | Raise e => Stop e st
      | Ok st' =>
          if decide (max_rules ≤ rl_rule_count st')%nat then Next st'
          else rules_run st' rest
      end
  end.

(** [state] and [listing] are the outcomes of the two [netsh] runs. *)
Definition get_firewall_info (state listing : run_outcome) : firewall_info :=
  let '(profiles, state_error) :=
    match state with
    | RunRaises e => ([], Some (str_exn e))
    | Completed rc out _ =>
        if decide (rc = 0) then
          match fold_flow profile_step (None, []) (PyStr.split "010" out) with
          | Next st => (st.2, None)
          | Stop e st => (st.2, Some (str_exn e))
          end
        else ([], None)
    end in
  match listing with
  | RunRaises e => FirewallInfo profiles state_error [] None (Some (str_exn e))
  | Completed rc out _ =>
      if decide (rc = 0) then
        match rules_run (RulesLoop [] 0 []) (PyStr.split "010" out) with
        | Next st =>
            FirewallInfo profiles state_error (rl_rules st)
              (if decide (max_rules ≤ rl_rule_count st)%nat
               then Some "Showing first 100 rules only" else None)
              None
        | Stop e st =>
            FirewallInfo profiles state_error (rl_rules st) None (Some (str_exn e))
        end
      else FirewallInfo profiles state_error [] None None
  end.

(** *** [get_running_processes]

    Each process comes with the outcome of [proc.cpu_percent(interval=0.1)]:
    [None] when it raises [NoSuchProcess] or [AccessDenied], and the
    process is then left out.  The value replaces the [cpu_percent] entry
    of [proc.info]. *)

Section processes.
Context {P K : Type} (lt : K → K → bool).

Definition get_running_processes (top_n : nat) (procs : list (P * option K))
  : list (P * K) :=
  take top_n (sorted_desc snd lt (omap (λ pk, pair pk.1 <$> pk.2) procs)).

End processes.

End WinCmd.

(** ** [WindowsServerInventory.get_running_services] *)

Module WinServices.

(** A service dictionary: the keys [name], [display_name] and [state], in
    insertion order. *)
Definition service := list (string * string).

(** The returned value: the list of services, or the [{'error': ...}]
    dictionary of the handler. *)
Inductive services_result :=
| Services (services : list service)
| ServicesError (msg : string).

(** [line.split(':', 1)[1].strip()] *)
Definition after_colon (line : string) : result string :=
  match (PyText.split1 ":" line).2 with
  | Some rest => Ok (PyStr.strip rest)
  | None => Raise (IndexError "list index out of range")
  end.

(** [if service: services.append(service)] *)
Definition flush (st : service * list service) : list service :=
  match st.1 with
  | [] => st.2
  | _ :: _ => st.2 ++ [st.1]
  end.

(** Body of [for line in result.stdout.split('\n'):]; the state is
    [service] and [services]. *)
Definition service_step (st : service * list service) (line0 : string)
  : flow (service * list service) :=
  let line := PyStr.strip line0 in
  if PyStr.contains "SERVICE_NAME:" line then
    match after_colon line with
    | Ok name => Next ([("name", name)], flush st)
    | Raise e => Stop e (st.1, flush st)
    end
  else if PyStr.contains "DISPLAY_NAME:" line then
    match after_colon line with
    | Ok v => Next (oset "display_name" v st.1, st.2)
    | Raise e => Stop e st
    end
  else if PyStr.contains "STATE" line then
    match PyStr.split ":" line with
    | _ :: p1 :: _ =>
        let state_info := PyStr.strip p1 in
        if PyStr.contains "RUNNING" state_info
        then Next (oset "state" "running" st.1, st.2)
        else if PyStr.contains "STOPPED" state_info
        then Next (oset "state" "stopped" st.1, st.2)
        else if PyStr.contains "PAUSED" state_info
        then Next (oset "state" "paused" st.1, st.2)
        else Next st
    | _ => Next st
    end
  else Next st.

(** [run] is the outcome of
    [subprocess.run(['sc', 'query', 'state=', 'all'], ...)]. *)
Definition get_running_services (run : run_outcome) : services_result :=
  match run with
  | RunRaises e => ServicesError (str_exn e)
  | Completed rc out _ =>
      if decide (rc = 0) then
        match fold_flow service_step ([], []) (PyStr.split "010" out) with
        | Next st => Services (flush st)
        | Stop e _ => ServicesError (str_exn e)
        end
      else Services []
  end.

End WinServices.

(** ** Specification vocabulary *)

(** Orders on the entries of [listening_ports]. *)
Definition port_le (x y : service_info) : Prop := si_port x ≤ si_port y.
Definition port_lt (x y : service_info) : Prop := si_port x < si_port y.

(** The [conn_info] dictionary built for a fact; it does not depend on the
    state of the instance. *)
Definition conn_info_of (ps : process_table) (conn : sconn) : conn_info :=
  (resolve_conn ps conn []).1.

(** A LISTEN fact bound to port [p]. *)
Definition listens_on (p : Z) (c : sconn) : bool :=
  bool_decide (status c = "LISTEN") && bool_decide (port <$> laddr c = Some p).

(** The first LISTEN fact for port [p] in enumeration order. *)
Definition first_listener (p : Z) (conns : list sconn) : option sconn :=
  List.find (listens_on p) conns.

(** The [service_info] dictionary of a LISTEN fact. *)
Definition service_info_of (ps : process_table) (c : sconn) : option service_info :=
  a ← laddr c;
  Some (ServiceInfo (port a)
          (if decide (type_ c = SOCK_STREAM) then "TCP" else "UDP")
          (ip a) (pid c)
          (ci_process_name (conn_info_of ps c))
          (ci_process_user (conn_info_of ps c))
          (ci_process_cmdline (conn_info_of ps c))).

(** The [port_service_map] value of a LISTEN fact, when its process name
    was resolved to a non-empty string. *)
Definition binding_of (ps : process_table) (c : sconn) : option port_service :=
  n ← str_truthy (ci_process_name (conn_info_of ps c));
  Some (PortService n (pid c)).

(** Every LISTEN fact carries a local address (psutil reports one for every
    listening socket). *)
Definition wf_listen (c : sconn) : Prop :=
  status c = "LISTEN" → is_Some (laddr c).

(** The two invariants of the [listening_ports] dictionary: every entry is
    stored under its own port. *)
Definition listening_ok (d : list (Z * service_info)) : Prop :=
  NoDup d.*1 ∧ Forall (λ kv, si_port kv.2 = kv.1) d.

(** Every port listed under a service name is a key of the port index. *)
Definition spm_ok (self : inventory_state) : Prop :=
  ∀ name ports p,
    oget name (service_port_map self) = Some ports → p ∈ ports →
    is_Some (oget p (port_service_map self)).

(** ** Sample snapshots *)

(** A process whose three accessors succeed. *)
Definition proc (n : string) : Process :=
  MkProcess (Some n) (Some "root") (Some [n]).

(** A TCP/IPv4 socket in state LISTEN. *)
Definition listener (a : string) (p : Z) (owner : option Z) : sconn :=
  Sconn 3 "AddressFamily.AF_INET" SOCK_STREAM "SocketKind.SOCK_STREAM"
        (Some (Addr a p)) None "LISTEN" owner.

(** An ESTABLISHED TCP socket from [127.0.0.1:lport] to [rip:rport]. *)
Definition established (owner : Z) (lport : Z) (rip : string) (rport : Z) : sconn :=
  Sconn 4 "AddressFamily.AF_INET" SOCK_STREAM "SocketKind.SOCK_STREAM"
        (Some (Addr "127.0.0.1" lport)) (Some (Addr rip rport))
        "ESTABLISHED" (Some owner).

(** Two web servers bound to port 80 (a shared socket), and sshd. *)
Definition web_table : process_table := λ p,
  if decide (p = 1) then Some (proc "nginx")
  else if decide (p = 2) then Some (proc "apache")
  else if decide (p = 3) then Some (proc "sshd")
  else None.

Definition nginx80 : sconn := listener "0.0.0.0" 80 (Some 1).
Definition apache80 : sconn := listener "0.0.0.0" 80 (Some 2).
Definition sshd22 : sconn := listener "0.0.0.0" 22 (Some 3).

(** A listening socket whose owner cannot be looked up (pid 9 is not in
    [web_table]). *)
Definition orphan8080 : sconn := listener "0.0.0.0" 8080 (Some 9).

(** Strings made of decimal digits only. *)
Fixpoint all_digits (s : string) : bool :=
  match s with
  | EmptyString => true
  | String c s' =>
      match PyStr.digit_val c with Some _ => true | None => false end
      && all_digits s'
  end.

(** [c in s] for a character. *)
Fixpoint has_char (c : ascii) (s : string) : bool :=
  match s with
  | EmptyString => false
  | String a s' => Ascii.eqb a c || has_char c s'
  end.



(** The [(pid, conn_info)] pairs of [process_connections], in the order
    the two nested loops visit them. *)
Definition pairs_of (pcs : list (Z * list conn_info)) : list (Z * conn_info) :=
  pcs ≫= λ item, pair item.1 <$> item.2.

(** The pair a fact contributes to [process_connections]: none when the
    fact has no pid or one of the process accessors raises. *)
Definition resolved_pair (ps : process_table) (c : sconn) : option (Z * conn_info) :=
  p ← pid_truthy (pid c);
  _ ← lookup_all ps p;
  Some (p, conn_info_of ps c).

(** The service name recorded for each listening port. *)
Definition services_of (L : list (Z * listening_service)) (p : Z) : option string :=
  ls_service <$> oget p L.

(** The dependency edge one stored connection stands for, given the
    service of each listening port. *)
Definition edge_of (svc : Z → option string) (proc_name : string) (pid : Z)
    (conn : conn_info) : option dependency_edge :=
  if decide (ci_status conn = "ESTABLISHED") then
    ra ← str_truthy (ci_remote_address conn);
    match deps_parse_remote ra with
    | Ok (remote_ip, remote_port) =>
        if deps_is_local remote_ip then
          s ← svc remote_port;
          Some (DependencyEdge proc_name pid remote_port s "port-level")
        else None
    | Raise _ => None
    end
  else None.

Definition pair_edge (ps : process_table) (svc : Z → option string)
    (item : Z * conn_info) : option dependency_edge :=
  n ← ps item.1 ≫= p_name; edge_of svc n item.1 item.2.

(** The dependency edge one ESTABLISHED fact of the snapshot stands for:
    its owner must be resolved, its remote address must be a loopback
    address and its remote port must have a binding in the port index. *)
Definition fact_edge (ps : process_table) (conns : list sconn) (c : sconn)
  : option dependency_edge :=
  if decide (status c = "ESTABLISHED") then
    a ← raddr c;
    p ← pid_truthy (pid c);
    r ← lookup_all ps p;
    if deps_is_local (ip a) then
      b ← first_listener (port a) conns ≫= binding_of ps;
      Some (DependencyEdge r.1.1 p (port a) (ps_service b) "port-level")
    else None
  else None.

(** No remote address of the snapshot starts with a bracket (psutil reports
    bare IPv4 and IPv6 literals). *)
Definition wf_remote (c : sconn) : Prop :=
  ∀ a, raddr c = Some a → PyStr.startswith "[" (ip a) = false.

Definition wf_snapshot (conns : list sconn) : Prop :=
  Forall (λ c, wf_listen c ∧ wf_remote c) conns.

(** The loops raise nothing when every stored remote address parses. *)
Definition parses (item : Z * conn_info) : Prop :=
  ci_status item.2 = "ESTABLISHED" →
  ∀ ra, str_truthy (ci_remote_address item.2) = Some ra →
        ∃ r, deps_parse_remote ra = Ok r.

(** The per-port client list never holds the same (name, pid) twice. *)
Definition clients_ok (L : list (Z * listening_service)) : Prop :=
  ∀ q ls, oget q L = Some ls → NoDup (ls_clients ls).





(** The remote address of the fact has no colon of its own: an IPv4
    literal, which [split(':')] cuts in two. *)
Definition ipv4_remote (c : sconn) : Prop :=
  ∀ a, raddr c = Some a → has_char ":" (ip a) = false.

(** Two clients named "app" (pids 20 and 21) of a PostgreSQL server. *)
Definition app_table : process_table := λ p,
  if decide (p = 10) then Some (proc "postgres")
  else if decide (p = 20) then Some (proc "app")
  else if decide (p = 21) then Some (proc "app")
  else None.

Definition postgres5432 : sconn := listener "127.0.0.1" 5432 (Some 10).



(** Two connections of pid 20 and one of pid 21, all from processes named
    "app", to the PostgreSQL listener. *)
Definition app_snapshot : list sconn :=
  [ postgres5432;
    established 20 40000 "127.0.0.1" 5432;
    established 21 40001 "127.0.0.1" 5432 ].


(** The fact set of the PostgreSQL scenario: a LISTEN fact for port 5432
    owned by pid 10 and an ESTABLISHED fact of pid 20 towards
    [127.0.0.1:5432]; every other field of the two facts is a parameter. *)
Definition scenario_listen (fd1 : Z) (fam1 ty1 : string) (k1 : SocketKind)
    (lip : string) : sconn :=
  Sconn fd1 fam1 k1 ty1 (Some (Addr lip 5432)) None "LISTEN" (Some 10).

Definition scenario_established (fd2 : Z) (fam2 ty2 : string) (k2 : SocketKind)
    (la : option addr) : sconn :=
  Sconn fd2 fam2 k2 ty2 la (Some (Addr "127.0.0.1" 5432)) "ESTABLISHED" (Some 20).

(** A process table in which pid 10 is "postgres" and pid 20 is "app". *)
Definition scenario_table (u10 u20 : string) (cmd10 cmd20 : list string)
    (rest : process_table) : process_table := λ p,
  if decide (p = 10) then Some (MkProcess (Some "postgres") (Some u10) (Some cmd10))
  else if decide (p = 20) then Some (MkProcess (Some "app") (Some u20) (Some cmd20))
  else rest p.

(** A client reaching the PostgreSQL listener over the IPv6 loopback. *)
Definition ipv6_snapshot : list sconn :=
  [ postgres5432; established 20 40000 "::1" 5432 ].

(** ** Vocabulary for the utilization series *)

(** A float kept symbolic: the literal it was parsed from and the
    operations applied since.  This instance runs the collectors on
    concrete inputs; it recognises plain decimal literals. *)
#[local] Unset Elimination Schemes.
Inductive sym_float :=
| FLit (s : string)
| FRound2 (x : sym_float)
| FMean (l : list sym_float)
| FMin (l : list sym_float)
| FMax (l : list sym_float).
#[local] Set Elimination Schemes.

Fixpoint decimal_chars (s : string) : bool :=
  match s with
  | EmptyString => true
  | String c s' =>
      (match PyStr.digit_val c with Some _ => true | None => Ascii.eqb c "." end)
      && decimal_chars s'
  end.

Definition is_decimal (s : string) : bool :=
  match s with
  | EmptyString => false
  | String c _ =>
      match PyStr.digit_val c with Some _ => decimal_chars s | None => false end
  end.

Global Instance sym_float_ops : FloatOps := {|
  float := sym_float;
  float_of_string s := if is_decimal s then Some (FLit s) else None;
  round2 := FRound2;
  fmean := FMean;
  fmin := FMin;
  fmax := FMax
|}.

Section series_vocabulary.
Context `{FO : FloatOps}.

(** The five keys every consumer of the cpu-history section reads. *)
Definition series_keys : list string :=
  ["available"; "date"; "average"; "hourly_data"; "error"].

Definition has_series_keys (h : gmap string pyval) : Prop :=
  Forall (λ k, is_Some (h !! k)) series_keys.

(** [available] is false and [error] is a non-empty string holding [msg]. *)
Definition unavailable_with (msg : string) (h : gmap string pyval) : Prop :=
  h !! "available" = Some (PBool false)
  ∧ h !! "error" = Some (PStr msg) ∧ msg ≠ "".

(** [available] is true and the sample sequence is not empty. *)
Definition available_with_samples (h : gmap string pyval) : Prop :=
  h !! "available" = Some (PBool true)
  ∧ ∃ l, h !! "hourly_data" = Some (PList l) ∧ l ≠ [].

(** The two states the specification allows for a series. *)
Definition series_unambiguous (h : gmap string pyval) : Prop :=
  available_with_samples h ∨ ∃ msg, unavailable_with msg h.

(** The helper [sar] ran and timed out or exited with a non-zero status;
    [diag] is the text the collector stores. *)
Definition sar_fails (env : sar_env) (diag : string) : Prop :=
  path_exists env (sa_file_path env) = true
  ∧ ((∃ m, run_sar env (sa_file_path env) = RunRaises (TimeoutExpired m)
           ∧ diag = "sar command timed out")
     ∨ (∃ rc out err, run_sar env (sa_file_path env) = Completed rc out err
                      ∧ rc ≠ 0 ∧ diag = "sar command failed: " +:+ err)).

(** The helper [relog] ran on the first binary log and timed out or exited
    with a non-zero status; [key] and [diag] are the key and the text the
    collector stores the diagnostic under. *)
Definition relog_fails (env : Windows.perf_env) (key diag : string) : Prop :=
  Windows.w_dir_exists env = true
  ∧ Windows.csv_files env = []
  ∧ ∃ log rest, Windows.blg_files env = log :: rest
    ∧ ((∃ m, Windows.w_relog env log (Windows.csv_output env)
             = RunRaises (TimeoutExpired m)
             ∧ key = "extraction_error" ∧ diag = m)
       ∨ (∃ rc out err, Windows.w_relog env log (Windows.csv_output env)
                        = Completed rc out err
                        ∧ rc ≠ 0 ∧ key = "relog_error" ∧ diag = err)).

End series_vocabulary.

(** Every collaborator of [collect_all] returns. *)
Definition is_ok {A} (r : result A) : Prop :=
  match r with Ok _ => True | Raise _ => False end.

Definition all_return {O} (c : collaborators O) : Prop :=
  is_ok (get_system_info c) ∧ is_ok (get_os_info c) ∧ is_ok (get_cpu_info c)
  ∧ is_ok (check_and_install_sysstat c) ∧ is_ok (get_memory_info c)
  ∧ is_ok (get_disk_info c) ∧ is_ok (get_service_dependencies c)
  ∧ is_ok (get_docker_info c) ∧ is_ok (get_firewall_info c)
  ∧ is_ok (get_users c) ∧ is_ok (get_installed_packages c)
  ∧ is_ok (get_running_services c) ∧ is_ok (get_running_processes c).

Definition win_all_return {O} (c : WindowsCollect.collaborators O) : Prop :=
  is_ok (WindowsCollect.get_system_info c)
  ∧ is_ok (WindowsCollect.get_os_info c)
  ∧ is_ok (WindowsCollect.get_cpu_info c)
  ∧ is_ok (WindowsCollect.get_memory_info c)
  ∧ is_ok (WindowsCollect.get_disk_info c)
  ∧ is_ok (WindowsCollect.get_network_info c)
  ∧ is_ok (WindowsCollect.get_service_dependencies c)
  ∧ is_ok (WindowsCollect.get_application_communication c)
  ∧ is_ok (WindowsCollect.get_port_dependencies c)
  ∧ is_ok (WindowsCollect.get_docker_info c)
  ∧ is_ok (WindowsCollect.get_firewall_info c)
  ∧ is_ok (WindowsCollect.get_users c)
  ∧ is_ok (WindowsCollect.get_installed_packages c)
  ∧ is_ok (WindowsCollect.get_running_services c)
  ∧ is_ok (WindowsCollect.get_running_processes c)
  ∧ is_ok (WindowsCollect.scheduled_task_info c).

(** Every key of [h] is still a key of [h']. *)
Definition keeps `{FO : FloatOps} (h h' : gmap string pyval) : Prop :=
  ∀ k, is_Some (h !! k) → is_Some (h' !! k).

(** Every CPU value was stored together with a sample. *)
Definition acc_ok `{FO : FloatOps} (acc : Windows.perf_acc) : Prop :=
  (length (Windows.cpu_values acc) ≤ length (Windows.hourly_data acc))%nat.

(** What holds of every series the Performance Monitor collector
    returns. *)
Definition perf_series_ok `{FO : FloatOps} (h : gmap string pyval) : Prop :=
  has_series_keys h
  ∧ (available_with_samples h ∨ h !! "available" = Some (PBool false)).

(** ** Sample environments of the utilization collectors *)

(** The sysstat file exists and [sar] behaves as [run] says. *)
Definition sar_env_with (run : run_outcome) : sar_env :=
  SarEnv "02" "2026-11-02" false (λ _, true) (λ _, run).

(** [sar] exits with status 0 and prints nothing. *)
Definition sar_silent_env : sar_env := sar_env_with (Completed 0 "" "").

(** [sar] does not answer within 30 seconds. *)
Definition sar_timeout_env : sar_env :=
  sar_env_with
    (RunRaises (TimeoutExpired "Command 'sar' timed out after 30 seconds")).

(** [sar] exits with status 1. *)
Definition sar_error_env : sar_env :=
  sar_env_with (Completed 1 "" "Cannot open /var/log/sysstat/sa02").

(** One recent binary log and no CSV file; [relog] behaves as [run] says. *)
Definition perf_env_with (run : run_outcome) : Windows.perf_env :=
  Windows.PerfEnv "2026-11-02" true
    [Windows.WalkFile "C:\PerfLogs\Admin\SystemInventoryCPU\cpu.blg" "cpu.blg"
                      (Some 1)]
    (λ _, Ok []) "20261103120000" (λ _ _, run) (λ _, false) (λ _, Ok [])
    (λ _, None) true true.

(** [relog] does not answer within 60 seconds. *)
Definition relog_timeout_env : Windows.perf_env :=
  perf_env_with
    (RunRaises (TimeoutExpired "Command 'relog' timed out after 60 seconds")).

(** [relog] exits with status 1. *)
Definition relog_error_env : Windows.perf_env :=
  perf_env_with (Completed 1 "" "Error: unable to open the log file").

(** Collaborators that all return (their sections are left opaque). *)
Definition quiet_collaborators : collaborators unit :=
  Collaborators unit "2026-11-03T12:00:00" (Ok ()) (Ok ()) (Ok ()) (Ok ())
    (Ok ()) (Ok ()) (Ok ()) (Ok ()) (Ok ()) (Ok ()) (Ok ()) (Ok ()) (Ok ()).

Definition win_quiet_collaborators : WindowsCollect.collaborators unit :=
  WindowsCollect.Collaborators unit "2026-11-03T12:00:00"
    (Ok ()) (Ok ()) (Ok ()) (Ok ()) (Ok ()) (Ok ()) (Ok ()) (Ok ()) (Ok ())
    (Ok ()) (Ok ()) (Ok ()) (Ok ()) (Ok ()) (Ok ()) () (Ok ()).



(** The text psutil gives for an IPv4 address. *)
Definition dotted_quad (a b c d : N) : string :=
  pretty a +:+ "." +:+ pretty b +:+ "." +:+ pretty c +:+ "." +:+ pretty d.

(** The report of [sar -u] with 24-hour time stamps. *)
Definition sar_24h_output : string :=
"Linux 5.15.0 (host)  11/02/2026  _x86_64_  (4 CPU)

00:00:01        CPU     %user     %nice   %system   %iowait    %steal     %idle
00:10:01        all      1.20      0.00      0.50      0.10      0.00     98.20
00:20:01        all      2.00      0.00      0.70      0.10      0.00     97.20
Average:        all      1.60      0.00      0.60      0.10      0.00     97.70
".

(** The same report under a locale that prints AM/PM after the time. *)
Definition sar_12h_output : string :=
"Linux 5.15.0 (host)  11/02/2026  _x86_64_  (4 CPU)

12:00:01 AM     CPU     %user     %nice   %system   %iowait    %steal     %idle
12:10:01 AM     all      1.20      0.00      0.50      0.10      0.00     98.20
Average:        all      1.60      0.00      0.60      0.10      0.00     97.70
".

(** One recent CSV log with the given rows. *)
Definition csv_env (rows : list (list string)) : Windows.perf_env :=
  Windows.PerfEnv "2026-11-02" true
    [Windows.WalkFile "C:\PerfLogs\Admin\SystemInventoryCPU\cpu.csv" "cpu.csv"
                      (Some 1)]
    (λ _, Ok rows) "20261103120000" (λ _ _, RunRaises (OSError "relog"))
    (λ _, false) (λ _, Ok []) (λ _, None) true true.



(** ** Vocabulary for the Windows network collectors *)

(** The client record an ESTABLISHED fact contributes, with the port whose
    client list receives it. *)
Definition win_client_of (ps : WinNet.process_table) (c : sconn)
  : option (Z * WinNet.client_info) :=
  if decide (status c = "ESTABLISHED") then
    a ← laddr c;
    ra ← raddr c;
    Some (port ra,
          WinNet.ClientInfo (ip a +:+ ":" +:+ PyStr.str_int (port a)) (pid c)
            (p ← pid_truthy (pid c); pr ← ps p; WinNet.p_name pr))
  else None.

(** The client list recorded for port [p] ([[]] when the port has no
    entry). *)
Definition win_clients_at (p : Z) (pd : WinNet.port_deps) : list WinNet.client_info :=
  default [] (WinNet.clients <$> oget p (WinNet.listening_services pd)).

(** Fact number [i] of the enumeration is a client connection to port [p]
    that comes after a LISTEN fact for [p]. *)
Definition win_client_after_listener (ps : WinNet.process_table)
    (conns : list sconn) (p : Z) (ci : WinNet.client_info) (i : nat) : Prop :=
  ∃ c, conns !! i = Some c ∧ win_client_of ps c = Some (p, ci)
       ∧ ∃ j x, (j < i)%nat ∧ conns !! j = Some x ∧ listens_on p x = true.

(** The matrix entry a fact contributes to the Windows communication map:
    none when the fact has no pid or no remote address, or when an accessor
    of its process raises. *)
Definition win_comm_entry_of (ps : WinNet.process_table) (c : sconn)
  : option WinNet.comm_entry :=
  p ← pid_truthy (pid c);
  ra ← raddr c;
  info ← WinNet.lookup_proc_info ps p;
  Some (WinNet.CommEntry (WinNet.pi_name info) p
          (default "unknown" (fmt_addr (laddr c)))
          (ip ra +:+ ":" +:+ PyStr.str_int (port ra)) (port ra)
          (identify_service_by_port (port ra)) (type_str c) (status c)).

(** A Windows process whose accessors succeed. *)
Definition win_proc (n : string) : WinNet.Process :=
  WinNet.MkProcess (Some n) (Some ("C:\bin\" +:+ n)) (Some [n]).

Definition win_table : WinNet.process_table := λ p,
  if decide (p = 10) then Some (win_proc "sqlservr.exe")
  else if decide (p = 20) then Some (win_proc "w3wp.exe")
  else None.

(** A web server listening on port 443, and a worker of pid 20 connected to
    a remote host on port 443. *)
Definition win_snapshot : list sconn :=
  [ listener "0.0.0.0" 443 (Some 20);
    Sconn 5 "AddressFamily.AF_INET" SOCK_STREAM "SocketKind.SOCK_STREAM"
          (Some (Addr "10.0.0.5" 50123)) (Some (Addr "93.184.216.34" 443))
          "ESTABLISHED" (Some 20) ].

(** [port_to_process] as a view of [listening_services]. *)
Definition win_mirror (st : WinNet.port_deps) : Prop :=
  ∀ p, oget p (WinNet.port_to_process st)
       = match oget p (WinNet.listening_services st) with
         | Some e =>
             if decide (WinNet.processes e = []) then None
             else Some (WinNet.processes e)
         | None => None
         end.

(** ** Vocabulary for the Linux correlation stages, continued *)

(** The (process name, pid) pairs of the edges of [g] into port [q]. *)
Definition edge_clients (q : Z) (g : list dependency_edge) : list client_info :=
  (λ e, ClientInfo (de_client_process e) (de_client_pid e))
    <$> filter (λ e, de_server_port e = q) g.

(** Every client list holds the clients of the edges into its port. *)
Definition clients_mirror_graph (st : deps_loop) : Prop :=
  ∀ q ls, oget q (dl_listening st) = Some ls →
          ∀ ci, ci ∈ ls_clients ls ↔ ci ∈ edge_clients q (dl_graph st).

(** [connection_detail['protocol']] of a fact. *)
Definition protocol_of (c : sconn) : string :=
  if PyStr.contains "STREAM" (type_str c) then "TCP" else "UDP".

(** The matrix entry one stored connection of process [proc_name] / [pid]
    stands for. *)
Definition conn_matrix_entry (self : inventory_state) (proc_name : string)
    (pid : Z) (conn : conn_info) : option matrix_entry :=
  if decide (ci_status conn = "ESTABLISHED") then
    ra ← str_truthy (ci_remote_address conn);
    match comm_parse_remote ra with
    | Ok (remote_ip, remote_port) =>
        let proto :=
          if PyStr.contains "STREAM" (ci_type conn) then "TCP" else "UDP" in
        Some (if comm_is_local remote_ip
              then MatrixEntry proc_name pid
                     (Some (target_service_of self remote_port)) None
                     remote_port "local" proto None
              else MatrixEntry proc_name pid None (Some remote_ip) remote_port
                     "external" proto
                     (Some (_identify_service_by_port remote_port)))
    | Raise _ => None
    end
  else None.

Definition pair_matrix_entry (self : inventory_state) (ps : process_table)
    (item : Z * conn_info) : option matrix_entry :=
  r ← lookup_name_cmdline ps item.1;
  conn_matrix_entry self r.1 item.1 item.2.

(** The matrix entry one ESTABLISHED fact of the snapshot stands for: its
    owner must be resolved and it must have a remote address.  A loopback
    address makes it a local edge, to the service bound to the port or to
    [unknown-port-N]; any other address makes it an external edge. *)
Definition fact_matrix_entry (ps : process_table) (conns : list sconn)
    (c : sconn) : option matrix_entry :=
  if decide (status c = "ESTABLISHED") then
    a ← raddr c;
    p ← pid_truthy (pid c);
    r ← lookup_all ps p;
    Some (if comm_is_local (ip a)
          then MatrixEntry r.1.1 p
                 (Some (match first_listener (port a) conns ≫= binding_of ps with
                        | Some b => ps_service b
                        | None => "unknown-port-" +:+ PyStr.str_int (port a)
                        end))
                 None (port a) "local" (protocol_of c) None
          else MatrixEntry r.1.1 p None (Some (ip a)) (port a) "external"
                 (protocol_of c) (Some (_identify_service_by_port (port a))))
  else None.

(** A client of pid 20 with a loopback connection to a port nobody listens
    on and a connection to a remote web server. *)
Definition mixed_snapshot : list sconn :=
  [ postgres5432;
    established 20 40000 "127.0.0.1" 5432;
    established 20 40001 "127.0.0.1" 9999;
    established 20 40002 "93.184.216.34" 443 ].

(** ** Vocabulary for the command-output parsers *)

(** The line feed, as a string. *)
Definition nl : string := String "010" "".

(** The first character of [w] is not white space ([w] is not empty). *)
Definition head_nonspace (w : string) : bool :=
  match w with
  | String c _ => negb (PyStr.isspace c)
  | EmptyString => false
  end.

(** The last character of [w] is not white space ([w] is not empty). *)
Fixpoint last_nonspace (w : string) : bool :=
  match w with
  | EmptyString => false
  | String c EmptyString => negb (PyStr.isspace c)
  | String _ w' => last_nonspace w'
  end.

(** What an iptables rule is read from: its own [raw_line] gives the rule
    back, and the packet and byte counters are present. *)
Definition iptables_rule_ok (r : DebRep.iptables_rule) : Prop :=
  DebRep.rule_of (DebRep.raw_line r) = Some r
  ∧ is_Some (DebRep.pkts r) ∧ is_Some (DebRep.bytes r)
  ∧ DebRep.raw_line r ≠ "".

(** The action read off the text of a ufw rule: the first of ALLOW, DENY,
    REJECT and LIMIT, in this order, that occurs in it. *)
Definition ufw_action_of (text : string) : option string :=
  if PyStr.contains "ALLOW" text then Some "ALLOW"
  else if PyStr.contains "DENY" text then Some "DENY"
  else if PyStr.contains "REJECT" text then Some "REJECT"
  else if PyStr.contains "LIMIT" text then Some "LIMIT"
  else None.

Definition ufw_rule_ok (r : DebRep.ufw_rule) : Prop :=
  ufw_action_of (DebRep.raw_rule r) = Some (DebRep.action r)
  ∧ PyStr.contains "Default:" (DebRep.raw_rule r) = false
  ∧ PyStr.strip (DebRep.raw_rule r) = DebRep.raw_rule r.

(** A hyphen followed by a digit occurs in [s]. *)
Fixpoint hyphen_digit (s : string) : bool :=
  match s with
  | EmptyString => false
  | String c r => DebRep.starts_hyphen_digit s || hyphen_digit r
  end.

(** The Debian tools are installed and both queries succeed. *)
Definition apt_succeeds (env : DebRep.pkg_env) (mout dout : string) : Prop :=
  DebRep.which env "dpkg" = true ∧ DebRep.which env "apt-mark" = true
  ∧ (∃ err, DebRep.run_apt_mark env = Completed 0 mout err)
  ∧ (∃ err, DebRep.run_dpkg env = Completed 0 dout err).

(** An ['ii'] line of [dpkg -l] with at least three fields whose name
    field is [name]. *)
Definition dpkg_installed (dout : string) (name : string) : Prop :=
  ∃ line, line ∈ PyText.splitlines dout
          ∧ PyStr.startswith "ii" line = true
          ∧ (3 ≤ length (PyStr.split_ws line))%nat
          ∧ PyStr.split_ws line !! 1%nat = Some name.

(** A Debian host: three packages installed, two of them by hand. *)
Definition apt_env : DebRep.pkg_env :=
  DebRep.PkgEnv (λ n, bool_decide (n ∈ ["dpkg"; "apt-mark"]))
    (Completed 0 ("nginx" +:+ nl +:+ "curl" +:+ nl) "")
    (Completed 0
       ("Desired=Unknown/Install/Remove/Purge/Hold" +:+ nl
        +:+ "ii  curl   7.81.0-1  amd64  command line tool" +:+ nl
        +:+ "ii  libc6:amd64  2.35-0  amd64  GNU C Library" +:+ nl
        +:+ "ii  nginx  1.18.0-6  all  web server" +:+ nl) "")
    (RunRaises (FileNotFoundError "dnf")) (RunRaises (FileNotFoundError "dnf"))
    (RunRaises (FileNotFoundError "yum")) (RunRaises (FileNotFoundError "rpm")).

(** An RPM host: the history names one package, [rpm -qa] lists two. *)
Definition rpm_env : DebRep.pkg_env :=
  DebRep.PkgEnv (λ n, bool_decide (n ∈ ["dnf"; "rpm"]))
    (RunRaises (FileNotFoundError "apt-mark")) (RunRaises (FileNotFoundError "dpkg"))
    (Completed 0
       ("Packages installed by user" +:+ nl
        +:+ "containerd.io-2.2.1-1.el9.x86_64" +:+ nl) "")
    (RunRaises (FileNotFoundError "dnf"))
    (RunRaises (FileNotFoundError "yum"))
    (Completed 0
       ("containerd.io 2.2.1-1.el9 x86_64" +:+ nl
        +:+ "bash 5.1.8-9.el9 x86_64" +:+ nl) "").

(** ** Vocabulary for the process lists and the user list *)

(** The comparison [<] of the keys is a strict weak order, as [<] is on
    numbers. *)
Definition strict_weak {K} (lt : K → K → bool) : Prop :=
  (∀ x y, lt x y = true → lt y x = false)
  ∧ (∀ x y z, lt x y = false → lt y z = false → lt x z = false).

(** The key of [x] is not smaller than the key of [y]. *)
Definition key_ge {A K} (key : A → K) (lt : K → K → bool) (x y : A) : Prop :=
  lt (key x) (key y) = false.

(** [r] holds the [n] elements of [all] with the largest keys, largest
    first: it is sorted, it has [n] elements unless [all] has fewer, and no
    element left out has a larger key than an element of [r]. *)
Definition top_of {A K} (key : A → K) (lt : K → K → bool) (n : nat)
    (all r : list A) : Prop :=
  StronglySorted (key_ge key lt) r
  ∧ length r = (n `min` length all)%nat
  ∧ ∃ rest, r ++ rest ≡ₚ all
            ∧ ∀ x y, x ∈ r → y ∈ rest → key_ge key lt x y.

(** [<] on two keys that are numbers. *)
Definition key_lt {K} (lt : K → K → bool) (a b : option K) : bool :=
  match a, b with
  | Some x, Some y => lt x y
  | _, _ => false
  end.

(** A user name holds no white space. *)
Fixpoint no_space (w : string) : bool :=
  match w with
  | EmptyString => true
  | String c w' => negb (PyStr.isspace c) && no_space w'
  end.

(** What [net user] prints on a host with three accounts. *)
Definition net_user_output : string :=
  "User accounts for \\HOST" +:+ nl +:+ nl
  +:+ "-------------------------------------------------------" +:+ nl
  +:+ "Administrator            Guest                    svc_backup" +:+ nl
  +:+ "The command completed successfully." +:+ nl.

(** Three processes with their memory share, and four with the outcome of
    the CPU measurement. *)
Definition linux_processes : list (string * option Z) :=
  [("systemd", Some 1); ("postgres", Some 9); ("nginx", Some 4)].

Definition win_processes : list (string * option Z) :=
  [("System", Some 3); ("lsass.exe", None); ("w3wp.exe", Some 7);
   ("sqlservr.exe", Some 5)].

(** ** Vocabulary for the samples of the sar series *)

(** The six percentages of a sar line, under their keys and in the order
    of the columns. *)
Definition sar_percentages `{FO : FloatOps} (d : list (string * pyval)) : Prop :=
  ∃ u n sy io st idl,
    d = [ ("user", PFloat u); ("nice", PFloat n); ("system", PFloat sy);
          ("iowait", PFloat io); ("steal", PFloat st); ("idle", PFloat idl) ].

(** A sample of [hourly_data]: a time that holds a colon, the CPU column
    and the six percentages. *)
Definition sar_sample_ok `{FO : FloatOps} (d : pyval) : Prop :=
  ∃ t c fl, d = PDict (("time", PStr t) :: ("cpu", PStr c) :: fl)
            ∧ PyStr.contains ":" t = true
            ∧ sar_percentages fl.

(** The two objects of the parsing loop hold well-formed values only: the
    samples, and the average, which is empty until an [Average:] line is
    read. *)
Definition sar_state_ok `{FO : FloatOps} (st : sar_state) : Prop :=
  Forall sar_sample_ok (sar_hourly st)
  ∧ (sar_average st = [] ∨ sar_percentages (sar_average st)).

(** ** Vocabulary for the Windows service list *)

(** The service name a line of [sc query] announces: the text after the
    first colon of a line that holds [SERVICE_NAME:], stripped. *)
Definition service_name_of (line0 : string) : option string :=
  let line := PyStr.strip line0 in
  if PyStr.contains "SERVICE_NAME:" line
  then PyStr.strip <$> (PyText.split1 ":" line).2 else None.

(** The names announced by the lines of [out], in order. *)
Definition service_names (out : string) : list string :=
  omap service_name_of (PyStr.split "010" out).

(** The record of a service holds the key [name]. *)
Definition has_name (s : WinServices.service) : Prop :=
  is_Some (oget "name" s).

(** What the loop keeps of its two variables: [service] is empty only
    before anything is appended, and is named once something is; every
    appended service but the first is named. *)
Definition services_inv (st : WinServices.service * list WinServices.service)
  : Prop :=
  (st.1 = [] → st.2 = [])
  ∧ (st.2 ≠ [] → has_name st.1)
  ∧ Forall has_name (tail st.2).

(** ** The decimal form of a port *)

(** The first character of [s] is not the digit zero ([s] is not empty). *)
Definition nonzero_head (s : string) : bool :=
  match s with
  | String c _ => negb (Ascii.eqb c "0")
  | EmptyString => false
  end.

(** [s] is a decimal numeral: digits only, after a minus sign for a
    negative number, and no leading zero apart from the numeral [0]. *)
Definition is_numeral (s : string) : bool :=
  match s with
  | String "-"%char ds => all_digits ds && nonzero_head ds
  | _ => all_digits s && (nonzero_head s || String.eqb s "0")
  end.

(** [s] is the decimal numeral of [P]: the text Python's [int] reads back
    as [P]. *)
Definition decimal_of (P : Z) (s : string) : Prop :=
  is_numeral s = true ∧ PyStr.int s = Some P.

(** ** The states of a utilization series *)

(** The sysstat file of yesterday exists and [sar] exits with status 0. *)
Definition sar_exits_zero (env : sar_env) : bool :=
  path_exists env (sa_file_path env)
  && match run_sar env (sa_file_path env) with
     | Completed rc _ _ => bool_decide (rc = 0)
     | RunRaises _ => false
     end.

(** Recent logs were found in the collector's directory and none of them
    is a CSV file: the first binary log is converted with [relog]. *)
Definition blg_only (env : Windows.perf_env) : Prop :=
  Windows.w_dir_exists env = true
  ∧ Windows.csv_files env = []
  ∧ Windows.blg_files env ≠ [].

(** The keys the conversion branch stores its diagnostics under. *)
Definition conversion_keys : list string :=
  ["relog_error"; "extraction_error"; "parse_error"].

(** Where the conversion branch leaves its diagnostic: under
    [extraction_error] when [relog] raises, under [relog_error] (the
    standard error of the helper) when the conversion fails, and under
    [parse_error] or nowhere when the converted file yields no sample. *)
Definition conversion_diagnostic `{FO : FloatOps} (env : Windows.perf_env)
    (h : gmap string pyval) : Prop :=
  ∃ log_file rest,
    Windows.blg_files env = log_file :: rest
    ∧ match Windows.w_relog env log_file (Windows.csv_output env) with
      | RunRaises e => h !! "extraction_error" = Some (PStr (str_exn e))
      | Completed rc _ err =>
          if bool_decide (rc = 0)
             && Windows.w_output_exists env (Windows.csv_output env)
          then (∃ msg, h !! "parse_error" = Some (PStr msg))
               ∨ Forall (λ k, h !! k = None) conversion_keys
          else h !! "relog_error" = Some (PStr err)
      end.

(** Unavailable with a null [error]: no sample is stored and the note on
    the found logs is set. *)
Definition unavailable_with_note `{FO : FloatOps} (h : gmap string pyval) : Prop :=
  h !! "available" = Some (PBool false)
  ∧ h !! "error" = Some PNone
  ∧ h !! "hourly_data" = Some (PList [])
  ∧ h !! "note"
    = Some (PStr "Performance Monitor logs found but data extraction needs more time or configuration.").

(** The three states of the series of the Performance Monitor collector;
    the third one belongs to the conversion branch. *)
Definition perf_state `{FO : FloatOps} (env : Windows.perf_env)
    (h : gmap string pyval) : Prop :=
  available_with_samples h
  ∨ (∃ msg, unavailable_with msg h)
  ∨ (blg_only env ∧ unavailable_with_note h ∧ conversion_diagnostic env h).

(** * Properties *)

(** ** Results *)

Lemma rbind_Ok {A B} (r : result A) (k : A → result B) b :
  rbind r k = Ok b ↔ ∃ a, r = Ok a ∧ k a = Ok b.
Proof.
  destruct r; simpl; split.
  - eauto.
  - by intros (? & [= ->] & ?).
  - done.
  - by intros (? & ? & ?).
Qed.

(** ** Insertion-ordered dictionaries *)

Section odict_facts.
Context {K V : Type} `{EqDecision K}.
Implicit Types (k : K) (v : V) (d : list (K * V)).

Lemma oget_oset k k' v d :
  oget k (oset k' v d) = if decide (k = k') then Some v else oget k d.
Proof.
  induction d as [|[k0 v0] d IH]; simpl.
  - by destruct (decide (k = k')).
  - destruct (decide (k' = k0)) as [->|Hne]; simpl.
    + by destruct (decide (k = k0)).
    + rewrite IH. destruct (decide (k = k0)) as [->|]; [|done].
      by rewrite decide_False.
Qed.

Lemma oget_oset_eq k v d : oget k (oset k v d) = Some v.
Proof. by rewrite oget_oset, decide_True. Qed.

Lemma oget_oset_ne k k' v d : k ≠ k' → oget k (oset k' v d) = oget k d.
Proof. intros. by rewrite oget_oset, decide_False. Qed.

Lemma oget_None k d : oget k d = None ↔ k ∉ d.*1.
Proof.
  induction d as [|[k0 v0] d IH]; simpl.
  - split; [intros _; apply not_elem_of_nil | done].
  - rewrite not_elem_of_cons. destruct (decide (k = k0)) as [->|Hne].
    + split; [done|]. by intros [? _].
    + rewrite IH. split; [done|]. by intros [_ ?].
Qed.

Lemma oget_Some_elem k v d : oget k d = Some v → (k, v) ∈ d.
Proof.
  induction d as [|[k0 v0] d IH]; simpl; [done|].
  destruct (decide (k = k0)) as [->|].
  - intros [= ->]. apply list_elem_of_here.
  - intros. apply list_elem_of_further. auto.
Qed.

Lemma elem_oget k v d : NoDup d.*1 → (k, v) ∈ d → oget k d = Some v.
Proof.
  induction d as [|[k0 v0] d IH]; simpl.
  - intros _ H. by apply elem_of_nil in H.
  - rewrite NoDup_cons. intros [Hk Hd] [[= -> ->]|Hin]%elem_of_cons.
    + by rewrite decide_True.
    + rewrite decide_False; [auto|].
      intros ->. apply Hk. apply list_elem_of_fmap. by exists (k0, v).
Qed.

Lemma omem_true k d : omem k d = true ↔ k ∈ d.*1.
Proof.
  unfold omem. destruct (oget k d) eqn:E.
  - split; [intros _|done].
    apply oget_Some_elem in E. apply list_elem_of_fmap. by eexists (_, _).
  - apply oget_None in E. split; [done|]. intros. by destruct E.
Qed.

Lemma omem_false k d : omem k d = false ↔ oget k d = None.
Proof. unfold omem. by destruct (oget k d). Qed.

Lemma oset_keys k v d :
  (oset k v d).*1 = if omem k d then d.*1 else d.*1 ++ [k].
Proof.
  unfold omem. induction d as [|[k0 v0] d IH]; csimpl; [done|].
  destruct (decide (k = k0)) as [->|]; csimpl; [done|].
  rewrite IH. by destruct (oget k d).
Qed.

Lemma NoDup_oset k v d : NoDup d.*1 → NoDup (oset k v d).*1.
Proof.
  intros Hd. rewrite oset_keys. destruct (omem k d) eqn:E; [done|].
  apply NoDup_app. split_and!; [done| |apply NoDup_singleton].
  intros x Hx ->%list_elem_of_singleton.
  apply omem_false, oget_None in E. by destruct E.
Qed.

Lemma oset_values_fresh k v d :
  oget k d = None → (oset k v d).*2 = d.*2 ++ [v].
Proof.
  induction d as [|[k0 v0] d IH]; csimpl; [done|].
  destruct (decide (k = k0)); [done|]. intros. csimpl. by rewrite IH.
Qed.

End odict_facts.

(** ** The stable sort by port *)

Lemma insert_by_port_perm x l : insert_by_port x l ≡ₚ x :: l.
Proof.
  induction l as [|y l IH]; simpl; [done|].
  destruct (decide (si_port x < si_port y)); [done|].
  rewrite IH. apply Permutation_swap.
Qed.

Lemma sorted_by_port_perm l : sorted_by_port l ≡ₚ l.
Proof.
  unfold sorted_by_port.
  cut (∀ acc, foldl (λ acc x, insert_by_port x acc) acc l ≡ₚ acc ++ l).
  { intros H. apply (H []). }
  induction l as [|x l IH]; intros acc; simpl.
  - by rewrite app_nil_r.
  - rewrite IH, insert_by_port_perm. by rewrite <- Permutation_middle.
Qed.

Lemma insert_by_port_sorted x l :
  StronglySorted port_le l → StronglySorted port_le (insert_by_port x l).
Proof.
  induction 1 as [|y l Hl IH Hy]; simpl.
  - repeat constructor.
  - destruct (decide (si_port x < si_port y)) as [Hlt|Hge].
    + constructor; [by constructor|].
      constructor; [unfold port_le; lia|].
      eapply Forall_impl; [exact Hy|]. unfold port_le. intros; simpl in *; lia.
    + constructor; [done|].
      rewrite insert_by_port_perm. constructor; [unfold port_le; lia|done].
Qed.

Lemma sorted_by_port_sorted l : StronglySorted port_le (sorted_by_port l).
Proof.
  unfold sorted_by_port.
  cut (∀ acc, StronglySorted port_le acc →
         StronglySorted port_le (foldl (λ acc x, insert_by_port x acc) acc l)).
  { intros H. apply H. constructor. }
  induction l as [|x l IH]; intros acc Hacc; simpl; [done|].
  apply IH. by apply insert_by_port_sorted.
Qed.

Lemma sorted_le_NoDup_lt l :
  StronglySorted port_le l → NoDup (si_port <$> l) → StronglySorted port_lt l.
Proof.
  induction 1 as [|y l Hl IH Hy]; simpl; [constructor|].
  rewrite NoDup_cons. intros [Hny Hnd]. constructor; [auto|].
  apply Forall_forall. intros z Hz.
  rewrite Forall_forall in Hy. specialize (Hy z Hz).
  unfold port_le, port_lt in *.
  assert (si_port y ≠ si_port z); [|lia].
  intros Heq. apply Hny. rewrite Heq. by apply list_elem_of_fmap_2.
Qed.

(** ** [get_network_info] *)

Lemma resolve_conn_fst ps conn pcs :
  (resolve_conn ps conn pcs).1 = conn_info_of ps conn.
Proof.
  unfold conn_info_of, resolve_conn.
  destruct (pid_truthy (pid conn)); [|done].
  by destruct (lookup_all ps z) as [[[??]?]|].
Qed.

Lemma listens_on_spec p c :
  listens_on p c = true ↔ status c = "LISTEN" ∧ port <$> laddr c = Some p.
Proof.
  unfold listens_on. rewrite andb_true_iff, !bool_decide_eq_true. done.
Qed.

(** What one iteration does to [listening_ports] and [port_service_map]. *)
Lemma net_step_spec ps st c st1 :
  net_step ps st c = Ok st1 →
  (∀ p, oget p (nl_listening st1) =
        match oget p (nl_listening st) with
        | Some si => Some si
        | None => if listens_on p c then service_info_of ps c else None
        end)
  ∧ (∀ p, oget p (port_service_map (nl_self st1)) =
          match oget p (nl_listening st) with
          | Some _ => oget p (port_service_map (nl_self st))
          | None =>
              if listens_on p c
              then match binding_of ps c with
                   | Some b => Some b
                   | None => oget p (port_service_map (nl_self st))
                   end
              else oget p (port_service_map (nl_self st))
          end).
Proof.
  unfold net_step.
  pose proof (resolve_conn_fst ps c (process_connections (nl_self st))) as Hci.
  destruct (resolve_conn ps c (process_connections (nl_self st))) as [ci pcs].
  simpl in Hci. subst ci.
  destruct (decide (status c = "LISTEN")) as [HL|HL].
  - destruct (laddr c) as [a|] eqn:Ha; [|done].
    destruct (omem (port a) (nl_listening st)) eqn:Hmem.
    + intros [= <-]; simpl. split; intros p.
      * destruct (oget p (nl_listening st)) eqn:Hp; [done|].
        destruct (listens_on p c) eqn:Hl; [|done].
        apply listens_on_spec in Hl as [_ Hl]. rewrite Ha in Hl.
        simplify_eq/=. apply omem_true in Hmem. apply oget_None in Hp. done.
      * destruct (oget p (nl_listening st)) eqn:Hp; [done|].
        destruct (listens_on p c) eqn:Hl; [|done].
        apply listens_on_spec in Hl as [_ Hl]. rewrite Ha in Hl.
        simplify_eq/=. apply omem_true in Hmem. apply oget_None in Hp. done.
    + intros [= <-]. apply omem_false in Hmem.
      unfold index_listener; simpl. split; intros p.
      * rewrite oget_oset. unfold listens_on, service_info_of.
        rewrite Ha; simpl. rewrite (bool_decide_eq_true_2 _ HL); simpl.
        destruct (decide (p = port a)) as [->|Hne].
        -- rewrite Hmem. by rewrite bool_decide_eq_true_2.
        -- rewrite bool_decide_eq_false_2 by congruence.
           by destruct (oget p (nl_listening st)).
      * unfold listens_on, binding_of.
        rewrite Ha; simpl. rewrite (bool_decide_eq_true_2 _ HL); simpl.
        destruct (str_truthy (ci_process_name (conn_info_of ps c))) as [n|];
          simpl.
        -- rewrite oget_oset.
           destruct (decide (p = port a)) as [->|Hne].
           ++ rewrite Hmem. by rewrite bool_decide_eq_true_2.
           ++ rewrite bool_decide_eq_false_2 by congruence.
              by destruct (oget p (nl_listening st)).
        -- by repeat case_match.
  - assert (∀ p, listens_on p c = false) as Hno.
    { intros p. apply not_true_iff_false. by intros [? _]%listens_on_spec. }
    destruct (decide (status c = "ESTABLISHED")); intros [= <-]; simpl;
      split; intros p; rewrite Hno; by repeat case_match.
Qed.

(** The loop retains, for every port, the first LISTEN fact met. *)
Lemma net_loop_run_spec ps l : ∀ st st',
  net_loop_run ps st l = Ok st' →
  (∀ p, oget p (nl_listening st') =
        match oget p (nl_listening st) with
        | Some si => Some si
        | None => first_listener p l ≫= service_info_of ps
        end)
  ∧ (∀ p, oget p (port_service_map (nl_self st')) =
          match oget p (nl_listening st) with
          | Some _ => oget p (port_service_map (nl_self st))
          | None =>
              match first_listener p l ≫= binding_of ps with
              | Some b => Some b
              | None => oget p (port_service_map (nl_self st))
              end
          end).
Proof.
  unfold first_listener.
  induction l as [|c l IH]; intros st st'; simpl.
  - intros [= <-]. split; intros p; by destruct (oget p (nl_listening st)).
  - intros (st1 & Hstep & Hrun)%rbind_Ok.
    apply net_step_spec in Hstep as [Ha1 Hb1].
    apply IH in Hrun as [Ha Hb].
    split; intros p.
    + rewrite Ha, Ha1.
      destruct (oget p (nl_listening st)); [done|].
      destruct (listens_on p c) eqn:Hl; simpl; [|done].
      destruct (service_info_of ps c) eqn:Hs; [done|].
      apply listens_on_spec in Hl as [_ Hl]. unfold service_info_of in Hs.
      destruct (laddr c); simplify_eq/=.
    + rewrite Hb, Ha1, Hb1.
      destruct (oget p (nl_listening st)); [done|].
      destruct (listens_on p c) eqn:Hl; simpl; [|done].
      destruct (service_info_of ps c) eqn:Hs.
      * by destruct (binding_of ps c).
      * apply listens_on_spec in Hl as [_ Hl]. unfold service_info_of in Hs.
        destruct (laddr c); simplify_eq/=.
Qed.

(** The loop runs to its end when every LISTEN fact has a local address. *)
Lemma net_loop_run_total ps l : ∀ st,
  Forall wf_listen l → ∃ st', net_loop_run ps st l = Ok st'.
Proof.
  induction l as [|c l IH]; intros st Hwf; simpl; [eauto|].
  apply Forall_cons in Hwf as [Hc Hl].
  assert (∃ st1, net_step ps st c = Ok st1) as [st1 ->].
  { unfold net_step.
    destruct (resolve_conn ps c (process_connections (nl_self st))) as [ci pcs].
    destruct (decide (status c = "LISTEN")) as [HL|HL].
    - destruct (Hc HL) as [a ->]. destruct (omem _ _); eauto.
    - destruct (decide (status c = "ESTABLISHED")); eauto. }
  simpl. auto.
Qed.

Lemma net_step_listening_ok ps st c st1 :
  net_step ps st c = Ok st1 →
  listening_ok (nl_listening st) → listening_ok (nl_listening st1).
Proof.
  unfold net_step.
  destruct (resolve_conn ps c (process_connections (nl_self st))) as [ci pcs].
  intros Hstep Hok.
  destruct (decide (status c = "LISTEN")) as [HL|HL].
  - destruct (laddr c) as [a|] eqn:Ha; [|done].
    destruct (omem (port a) (nl_listening st)) eqn:Hmem.
    { by injection Hstep as <-. }
    injection Hstep as <-. unfold index_listener; simpl.
    destruct Hok as [Hnd Hkeys]. split; [by apply NoDup_oset|].
    apply Forall_forall. intros [k si] Hin.
    apply (elem_oget _ _ _ (NoDup_oset _ _ _ Hnd)) in Hin.
    rewrite oget_oset in Hin. destruct (decide (k = port a)) as [->|].
    + by injection Hin as <-.
    + apply oget_Some_elem in Hin.
      rewrite Forall_forall in Hkeys. apply (Hkeys _ Hin).
  - destruct (decide (status c = "ESTABLISHED")); by injection Hstep as <-.
Qed.

Lemma net_step_spm_ok ps st c st1 :
  net_step ps st c = Ok st1 → spm_ok (nl_self st) → spm_ok (nl_self st1).
Proof.
  unfold net_step.
  destruct (resolve_conn ps c (process_connections (nl_self st))) as [ci pcs].
  intros Hstep Hspm.
  assert (spm_ok (State (service_port_map (nl_self st))
                        (port_service_map (nl_self st)) pcs)) as Hspm'.
  { exact Hspm. }
  destruct (decide (status c = "LISTEN")) as [HL|HL].
  - destruct (laddr c) as [a|] eqn:Ha; [|done].
    destruct (omem (port a) (nl_listening st)) eqn:Hmem.
    { by injection Hstep as <-. }
    injection Hstep as <-. unfold index_listener; simpl.
    destruct (str_truthy (ci_process_name ci)) as [n|]; [|done].
    intros name ports p; simpl. unfold spm_append.
    rewrite !oget_oset. intros Hget Hp.
    destruct (decide (p = port a)); [by eauto|].
    destruct (decide (name = n)) as [->|].
    + injection Hget as <-. apply elem_of_app in Hp as [Hp|Hp].
      * destruct (oget n (service_port_map (nl_self st))) eqn:E;
          simpl in Hp; [by eapply Hspm|by apply elem_of_nil in Hp].
      * by apply list_elem_of_singleton in Hp.
    + by eapply Hspm.
  - destruct (decide (status c = "ESTABLISHED")); by injection Hstep as <-.
Qed.

Lemma net_loop_run_listening_ok ps l : ∀ st st',
  net_loop_run ps st l = Ok st' →
  listening_ok (nl_listening st) → listening_ok (nl_listening st').
Proof.
  induction l as [|c l IH]; intros st st'; simpl.
  - by intros [= <-].
  - intros (st1 & Hstep & Hrun)%rbind_Ok Hok.
    eauto using net_step_listening_ok.
Qed.

Lemma net_loop_run_spm_ok ps l : ∀ st st',
  net_loop_run ps st l = Ok st' → spm_ok (nl_self st) → spm_ok (nl_self st').
Proof.
  induction l as [|c l IH]; intros st st'; simpl.
  - by intros [= <-].
  - intros (st1 & Hstep & Hrun)%rbind_Ok Hok.
    eauto using net_step_spm_ok.
Qed.

Lemma listening_ok_nil : listening_ok [].
Proof. split; [apply NoDup_nil_2|constructor]. Qed.

Lemma spm_ok_init : spm_ok init_state.
Proof. by intros ???. Qed.

Lemma listening_ok_ports d : listening_ok d → si_port <$> d.*2 = d.*1.
Proof.
  intros [_ Hk]. induction Hk as [|[k si] d Hx Hd IH]; csimpl; [done|].
  simpl in Hx. by rewrite Hx, IH.
Qed.

Lemma listening_ok_elem d si :
  listening_ok d → si ∈ d.*2 ↔ oget (si_port si) d = Some si.
Proof.
  intros [Hnd Hk]. split.
  - intros ([k si'] & -> & Hin)%list_elem_of_fmap. simpl.
    rewrite Forall_forall in Hk. pose proof (Hk _ Hin) as Hp. simpl in Hp.
    rewrite Hp. by apply elem_oget.
  - intros H%oget_Some_elem. apply list_elem_of_fmap. by eexists (_, _).
Qed.

Lemma get_network_info_run ps self conns :
  Forall wf_listen conns →
  ∃ st, net_loop_run ps (NetLoop self [] [] []) conns = Ok st
        ∧ get_network_info self ps (Some conns)
          = Ok (nl_self st,
                NetworkInfo (nl_connections st)
                            (Some (sorted_by_port (nl_listening st).*2))
                            (Some (nl_established st))).
Proof.
  intros Hwf. destruct (net_loop_run_total ps conns (NetLoop self [] [] []) Hwf)
    as [st Hst].
  exists st. split; [done|]. unfold get_network_info. by rewrite Hst.
Qed.

(** C10.  In the network section, [listening_ports] is sorted in strictly
    ascending order of port, holds at most one entry per port, and its
    entries are exactly the [service_info] of the first LISTEN fact met for
    each port in enumeration order. *)
Theorem listening_ports_sorted_first_fact ps self conns :
  Forall wf_listen conns →
  ∃ self' ni lp,
    get_network_info self ps (Some conns) = Ok (self', ni)
    ∧ listening_ports ni = Some lp
    ∧ StronglySorted port_lt lp
    ∧ NoDup (si_port <$> lp)
    ∧ ∀ si, si ∈ lp ↔
            first_listener (si_port si) conns ≫= service_info_of ps = Some si.
Proof.
  intros Hwf. destruct (get_network_info_run ps self conns Hwf) as (st & Hrun & ->).
  destruct (net_loop_run_spec _ _ _ _ Hrun) as [Hlist _].
  pose proof (net_loop_run_listening_ok _ _ _ _ Hrun listening_ok_nil) as Hok.
  eexists _, _, _. split; [done|]. split; [done|].
  assert (NoDup (si_port <$> sorted_by_port (nl_listening st).*2)) as Hnd.
  { rewrite sorted_by_port_perm, (listening_ok_ports _ Hok). apply Hok. }
  split_and!.
  - apply sorted_le_NoDup_lt; [apply sorted_by_port_sorted|done].
  - done.
  - intros si. rewrite sorted_by_port_perm, (listening_ok_elem _ _ Hok).
    by rewrite Hlist.
Qed.

Lemma listening_ports_sorted_first_fact_witness :
  ∃ self' ni lp,
    get_network_info init_state web_table (Some [nginx80; sshd22; apache80])
      = Ok (self', ni)
    ∧ listening_ports ni = Some lp
    ∧ StronglySorted port_lt lp
    ∧ NoDup (si_port <$> lp)
    ∧ ∀ si, si ∈ lp ↔
            first_listener (si_port si) [nginx80; sshd22; apache80]
              ≫= service_info_of web_table = Some si.
Proof.
  apply (listening_ports_sorted_first_fact web_table init_state
           [nginx80; sshd22; apache80]).
  repeat constructor; intros _; simpl; eauto.
Defined.

(** The list of the sample snapshot: sshd's port first, then the first of
    the two facts for port 80. *)
Example listening_ports_sample :
  (listening_ports <$>
     (snd <$> get_network_info init_state web_table
                (Some [nginx80; sshd22; apache80])))
  = Ok (Some [ ServiceInfo 22 "TCP" "0.0.0.0" (Some 3) (Some "sshd")
                           (Some "root") (Some "sshd");
               ServiceInfo 80 "TCP" "0.0.0.0" (Some 1) (Some "nginx")
                           (Some "root") (Some "nginx") ]).
Proof. vm_compute. reflexivity. Qed.

Lemma get_network_info_index ps conns :
  Forall wf_listen conns →
  ∃ self' ni,
    get_network_info init_state ps (Some conns) = Ok (self', ni)
    ∧ (∀ p, oget p (port_service_map self')
            = first_listener p conns ≫= binding_of ps)
    ∧ NoDup (port_service_map self').*1
    ∧ spm_ok self'
    ∧ ∃ lp, listening_ports ni = Some lp
            ∧ ∀ si, si ∈ lp ↔
                first_listener (si_port si) conns ≫= service_info_of ps = Some si.
Proof.
  intros Hwf.
  destruct (get_network_info_run ps init_state conns Hwf) as (st & Hrun & ->).
  destruct (net_loop_run_spec _ _ _ _ Hrun) as [Hlist Hidx].
  pose proof (net_loop_run_listening_ok _ _ _ _ Hrun listening_ok_nil) as Hok.
  eexists _, _. split; [done|]. split_and!.
  - intros p. rewrite Hidx. simpl. by destruct (_ ≫= _).
  - assert (∀ l st0 st1, net_loop_run ps st0 l = Ok st1 →
              NoDup (port_service_map (nl_self st0)).*1 →
              NoDup (port_service_map (nl_self st1)).*1) as Hnd.
    { clear. induction l as [|c l IH]; intros st0 st1; simpl.
      - by intros [= <-].
      - intros (st' & Hstep & Hrun)%rbind_Ok Hnd. eapply IH; [done|].
        revert Hstep. unfold net_step.
        destruct (resolve_conn _ _ _) as [ci pcs].
        repeat case_match; intros [= <-]; simpl; try done.
        unfold index_listener; simpl.
        destruct (str_truthy _); simpl; [by apply NoDup_oset|done]. }
    eapply Hnd; [done|]. apply NoDup_nil_2.
  - eapply net_loop_run_spm_ok; [done|]. apply spm_ok_init.
  - eexists. split; [done|]. intros si.
    rewrite sorted_by_port_perm, (listening_ok_elem _ _ Hok). by rewrite Hlist.
Qed.

(** C4 (as amended).  The binding retained in the port index for a port is
    that of the first LISTEN fact for the port in enumeration order, and no
    binding when the process name of that fact was not resolved.  Two
    enumerations of the facts retain the same binding for every port on
    whose first LISTEN fact they agree. *)
Theorem port_index_first_listener_wins ps conns1 conns2 :
  Forall wf_listen conns1 → conns1 ≡ₚ conns2 →
  ∃ self1 ni1 self2 ni2,
    get_network_info init_state ps (Some conns1) = Ok (self1, ni1)
    ∧ get_network_info init_state ps (Some conns2) = Ok (self2, ni2)
    ∧ (∀ p, oget p (port_service_map self1)
            = first_listener p conns1 ≫= binding_of ps)
    ∧ (∀ p, first_listener p conns1 = first_listener p conns2 →
            oget p (port_service_map self1) = oget p (port_service_map self2)).
Proof.
  intros Hwf1 Hperm.
  assert (Forall wf_listen conns2) as Hwf2 by by rewrite <- Hperm.
  destruct (get_network_info_index ps conns1 Hwf1) as (s1 & n1 & -> & H1 & _).
  destruct (get_network_info_index ps conns2 Hwf2) as (s2 & n2 & -> & H2 & _).
  eexists _, _, _, _. split_and!; [done|done|done|].
  intros p Heq. by rewrite H1, H2, Heq.
Qed.

Lemma port_index_first_listener_wins_witness :
  ∃ self1 ni1 self2 ni2,
    get_network_info init_state web_table (Some [nginx80; sshd22; apache80])
      = Ok (self1, ni1)
    ∧ get_network_info init_state web_table (Some [sshd22; nginx80; apache80])
      = Ok (self2, ni2)
    ∧ (∀ p, oget p (port_service_map self1)
            = first_listener p [nginx80; sshd22; apache80]
                ≫= binding_of web_table)
    ∧ (∀ p, first_listener p [nginx80; sshd22; apache80]
            = first_listener p [sshd22; nginx80; apache80] →
            oget p (port_service_map self1) = oget p (port_service_map self2)).
Proof.
  apply (port_index_first_listener_wins web_table
           [nginx80; sshd22; apache80] [sshd22; nginx80; apache80]).
  - repeat constructor; intros _; simpl; eauto.
  - apply Permutation_swap.
Defined.

(** C4 as stated fails: the two enumerations of the same two LISTEN facts
    for port 80 retain different bindings. *)
Lemma port_index_depends_on_order :
  [nginx80; apache80] ≡ₚ [apache80; nginx80]
  ∧ (λ r, oget 80 (port_service_map r.1)) <$>
      get_network_info init_state web_table (Some [nginx80; apache80])
    = Ok (Some (PortService "nginx" (Some 1)))
  ∧ (λ r, oget 80 (port_service_map r.1)) <$>
      get_network_info init_state web_table (Some [apache80; nginx80])
    = Ok (Some (PortService "apache" (Some 2))).
Proof. split; [apply Permutation_swap|]. split; vm_compute; reflexivity. Qed.

(** ** Formatting an address and parsing it back *)

Lemma append_cons a s t : String a s +:+ t = String a (s +:+ t).
Proof. reflexivity. Qed.

Lemma append_nil t : "" +:+ t = t.
Proof. reflexivity. Qed.

Lemma digit_val_char d :
  (d < 10)%N → PyStr.digit_val (pretty_N_char d) = Some (Z.of_N d).
Proof.
  intros Hd.
  assert (d = 0 ∨ d = 1 ∨ d = 2 ∨ d = 3 ∨ d = 4 ∨ d = 5 ∨ d = 6 ∨ d = 7
          ∨ d = 8 ∨ d = 9)%N as Hc by lia.
  destruct_or!; subst d; reflexivity.
Qed.

Lemma pretty_N_go_digits x : ∀ s,
  all_digits s = true → all_digits (pretty_N_go x s) = true.
Proof.
  induction (N.lt_wf_0 x) as [x _ IH]; intros s Hs.
  destruct (decide (x = 0)%N) as [->|Hx]; [done|].
  rewrite pretty_N_go_step by lia. apply IH.
  - apply N.div_lt; lia.
  - simpl. rewrite digit_val_char by (apply N.mod_lt; lia). done.
Qed.

Lemma pretty_N_go_value x : ∀ s,
  (0 < x)%N →
  PyStr.digits_go false 0 (pretty_N_go x s) = PyStr.digits_go true (Z.of_N x) s.
Proof.
  induction (N.lt_wf_0 x) as [x _ IH]; intros s Hx.
  rewrite pretty_N_go_step by done.
  assert (Z.of_N x = Z.of_N (x `div` 10) * 10 + Z.of_N (x `mod` 10)) as Hdm.
  { rewrite (N.div_mod x 10) at 1 by done. lia. }
  destruct (decide (x `div` 10 = 0)%N) as [H0|Hn0].
  - rewrite H0, pretty_N_go_0. simpl.
    rewrite digit_val_char by (apply N.mod_lt; lia).
    rewrite Hdm, H0. done.
  - rewrite IH; [|apply N.div_lt; lia|by apply N.neq_0_lt_0]. simpl.
    rewrite digit_val_char by (apply N.mod_lt; lia).
    by rewrite Hdm.
Qed.

Lemma all_digits_nonspace c s :
  all_digits (String c s) = true → PyStr.isspace c = false.
Proof.
  simpl. intros [Hc _]%andb_true_iff.
  destruct c as [[] [] [] [] [] [] [] []]; try discriminate Hc; reflexivity.
Qed.

Lemma all_digits_rstrip s : all_digits s = true → PyStr.rstrip s = s.
Proof.
  induction s as [|c s IH]; [done|]. intros Hs.
  pose proof (all_digits_nonspace _ _ Hs) as Hc.
  simpl in Hs. apply andb_true_iff in Hs as [_ Hs].
  simpl. rewrite (IH Hs). destruct s; [by rewrite Hc|done].
Qed.

Lemma all_digits_strip s : all_digits s = true → PyStr.strip s = s.
Proof.
  intros Hs. unfold PyStr.strip.
  destruct s as [|c s]; [done|].
  simpl. rewrite (all_digits_nonspace _ _ Hs). by apply all_digits_rstrip.
Qed.

Lemma int_digits c s :
  all_digits (String c s) = true →
  PyStr.int (String c s) = PyStr.digits_go false 0 (String c s).
Proof.
  intros Hs. unfold PyStr.int. rewrite (all_digits_strip _ Hs).
  simpl in Hs. apply andb_true_iff in Hs as [Hc _].
  destruct c as [[] [] [] [] [] [] [] []]; try discriminate Hc; reflexivity.
Qed.

Lemma pretty_positive_digits p :
  ∃ c s, pretty (Z.pos p) = String c s ∧ all_digits (String c s) = true
         ∧ PyStr.digits_go false 0 (String c s) = Some (Z.pos p).
Proof.
  assert (pretty (Z.pos p) = pretty_N_go (N.pos p) "") as Hp by done.
  pose proof (pretty_N_go_digits (N.pos p) "" eq_refl) as Hd.
  pose proof (pretty_N_go_value (N.pos p) "" ltac:(lia)) as Hv.
  rewrite <- Hp in Hd, Hv. simpl in Hv.
  destruct (pretty (Z.pos p)) as [|c s] eqn:E; [done|]. eauto.
Qed.

(** [int(str(n)) == n] *)
Lemma int_str_int (n : Z) : PyStr.int (PyStr.str_int n) = Some n.
Proof.
  unfold PyStr.str_int. destruct n as [|p|p].
  - reflexivity.
  - destruct (pretty_positive_digits p) as (c & s & -> & Hd & Hv).
    by rewrite int_digits.
  - assert (pretty (Z.neg p) = String "-" (pretty (Z.pos p))) as -> by done.
    destruct (pretty_positive_digits p) as (c & s & -> & Hd & Hv).
    unfold PyStr.int, PyStr.strip. simpl PyStr.lstrip.
    assert (PyStr.rstrip (String "-" (String c s)) = String "-" (String c s))
      as ->.
    { change (PyStr.rstrip (String "-" (String c s)))
        with (match PyStr.rstrip (String c s) with
              | EmptyString => String "-" EmptyString
              | r => String "-" r
              end).
      by rewrite (all_digits_rstrip _ Hd). }
    by rewrite Hv.
Qed.

Lemma all_digits_no_char c s :
  PyStr.digit_val c = None → all_digits s = true → has_char c s = false.
Proof.
  intros Hc. induction s as [|a s IH]; [done|]. simpl.
  intros [Ha Hs]%andb_true_iff. rewrite (IH Hs), orb_false_r.
  destruct (Ascii.eqb_spec a c) as [->|]; [|done]. by rewrite Hc in Ha.
Qed.

Lemma str_int_no_colon n : has_char ":" (PyStr.str_int n) = false.
Proof.
  unfold PyStr.str_int. destruct n as [|p|p].
  - reflexivity.
  - destruct (pretty_positive_digits p) as (c & s & -> & Hd & _).
    by apply all_digits_no_char.
  - assert (pretty (Z.neg p) = String "-" (pretty (Z.pos p))) as -> by done.
    destruct (pretty_positive_digits p) as (c & s & -> & Hd & _).
    change (has_char ":" (String "-" (String c s)))
      with (false || has_char ":" (String c s)).
    by apply all_digits_no_char.
Qed.

Lemma str_int_nonempty n : PyStr.str_int n ≠ "".
Proof.
  intros H. pose proof (int_str_int n) as Hi. by rewrite H in Hi.
Qed.

Lemma prefix_colon a s : String.prefix ":" (String a s) = Ascii.eqb ":" a.
Proof.
  cbn [String.prefix]. destruct (ascii_dec ":" a) as [<-|Hne].
  - by destruct s.
  - by destruct (Ascii.eqb_spec ":" a).
Qed.

Lemma rsplit1_no_colon d : has_char ":" d = false → PyStr.rsplit1 ":" d = None.
Proof.
  induction d as [|a d IH]; [done|].
  intros [Ha Hd]%orb_false_iff.
  cbn [PyStr.rsplit1]. rewrite (IH Hd), prefix_colon.
  by rewrite Ascii.eqb_sym, Ha.
Qed.

Lemma rsplit1_colon ip d :
  has_char ":" d = false →
  PyStr.rsplit1 ":" (ip +:+ ":" +:+ d) = Some (ip, d).
Proof.
  intros Hd. induction ip as [|a ip IH].
  - rewrite !append_nil. change (":" +:+ d) with (String ":" d).
    cbn [PyStr.rsplit1]. by rewrite (rsplit1_no_colon _ Hd), prefix_colon.
  - rewrite append_cons. cbn [PyStr.rsplit1]. by rewrite IH.
Qed.

Lemma startswith_bracket_app ip t :
  PyStr.startswith "[" ip = false →
  PyStr.startswith "[" (ip +:+ ":" +:+ t) = false.
Proof.
  destruct ip as [|a ip]; [intros _; reflexivity|].
  rewrite append_cons. unfold PyStr.startswith. cbn [String.prefix].
  destruct (ascii_dec "[" a); [|done].
  assert (String.prefix "" ip = true) as -> by by destruct ip.
  done.
Qed.

(** The parsing of [get_port_dependencies] recovers the endpoint from its
    formatted form. *)
Lemma deps_parse_remote_fmt ip n :
  PyStr.startswith "[" ip = false →
  deps_parse_remote (ip +:+ ":" +:+ PyStr.str_int n) = Ok (ip, n).
Proof.
  intros Hb. unfold deps_parse_remote.
  rewrite (startswith_bracket_app _ _ Hb).
  rewrite (rsplit1_colon _ _ (str_int_no_colon n)).
  by rewrite int_str_int.
Qed.

Lemma split_no_colon d : has_char ":" d = false → PyStr.split ":" d = [d].
Proof.
  induction d as [|a d IH]; [done|].
  intros [Ha Hd]%orb_false_iff. cbn [PyStr.split].
  by rewrite Ha, (IH Hd).
Qed.

Lemma split_colon ip d :
  has_char ":" ip = false → has_char ":" d = false →
  PyStr.split ":" (ip +:+ ":" +:+ d) = [ip; d].
Proof.
  intros Hip Hd. induction ip as [|a ip IH].
  - rewrite append_nil. change (":" +:+ d) with (String ":" d).
    cbn [PyStr.split]. change (Ascii.eqb ":" ":") with true.
    by rewrite (split_no_colon _ Hd).
  - apply orb_false_iff in Hip as [Ha Hip].
    rewrite append_cons. cbn [PyStr.split]. by rewrite Ha, (IH Hip).
Qed.

(** The parsing of [get_application_communication_map] recovers the
    endpoint only when the address has no colon of its own. *)
Lemma comm_parse_remote_fmt ip n :
  has_char ":" ip = false →
  comm_parse_remote (ip +:+ ":" +:+ PyStr.str_int n) = Ok (ip, n).
Proof.
  intros Hip. unfold comm_parse_remote.
  rewrite (split_colon _ _ Hip (str_int_no_colon n)).
  by rewrite int_str_int.
Qed.

Lemma split_second ip d : ∃ x, PyStr.split ":" (ip +:+ ":" +:+ d) !! 1%nat = Some x.
Proof.
  induction ip as [|a ip [x IH]].
  - rewrite append_nil. change (":" +:+ d) with (String ":" d).
    cbn [PyStr.split]. change (Ascii.eqb ":" ":") with true.
    destruct d as [|b d]; [by eexists|].
    cbn [PyStr.split]. destruct (Ascii.eqb b ":"); [by eexists|].
    destruct (PyStr.split ":" d); by eexists.
  - rewrite append_cons. cbn [PyStr.split].
    destruct (Ascii.eqb a ":"); [|].
    + destruct (PyStr.split ":" (ip +:+ ":" +:+ d)) as [|h t] eqn:E;
        [done|]. by eexists.
    + destruct (PyStr.split ":" (ip +:+ ":" +:+ d)) as [|h t] eqn:E;
        [done|]. exists x. done.
Qed.

Lemma fmt_addr_truthy a :
  str_truthy (fmt_addr (Some a)) = Some (ip a +:+ ":" +:+ PyStr.str_int (port a)).
Proof.
  unfold fmt_addr, str_truthy; simpl.
  destruct (decide (_ = "")) as [E|]; [|done].
  destruct (ip a); discriminate E.
Qed.

Lemma local_port_of_fmt ps c : ∃ lp, local_port_of (conn_info_of ps c) = Ok lp.
Proof.
  assert (ci_local_address (conn_info_of ps c) = fmt_addr (laddr c)) as Hla.
  { unfold conn_info_of, resolve_conn.
    destruct (pid_truthy (pid c)); [|done].
    by destruct (lookup_all ps z) as [[[??]?]|]. }
  unfold local_port_of. rewrite Hla.
  destruct (laddr c) as [a|]; [|by eexists].
  rewrite fmt_addr_truthy.
  destruct (split_second (ip a) (PyStr.str_int (port a))) as [x ->].
  by eexists.
Qed.

(** ** [get_port_dependencies] *)

Lemma pairs_of_pc_append p ci pcs :
  pairs_of (pc_append p ci pcs) ≡ₚ pairs_of pcs ++ [(p, ci)].
Proof.
  unfold pc_append, pairs_of.
  induction pcs as [|[k g] pcs IH]; csimpl; [done|].
  destruct (decide (p = k)) as [->|Hne]; csimpl.
  - rewrite fmap_app. csimpl. rewrite <- !(assoc_L (++)).
    apply Permutation_app_head. apply Permutation_app_comm.
  - rewrite IH. by rewrite <- (assoc_L (++)).
Qed.

Lemma net_step_pairs ps st c st1 :
  net_step ps st c = Ok st1 →
  pairs_of (process_connections (nl_self st1))
  ≡ₚ pairs_of (process_connections (nl_self st))
     ++ option_list (resolved_pair ps c).
Proof.
  unfold net_step, resolved_pair.
  pose proof (resolve_conn_fst ps c (process_connections (nl_self st))) as Hci.
  assert ((resolve_conn ps c (process_connections (nl_self st))).2
          = match pid_truthy (pid c) with
            | Some p => match lookup_all ps p with
                        | Some _ => pc_append p (conn_info_of ps c)
                                      (process_connections (nl_self st))
                        | None => process_connections (nl_self st)
                        end
            | None => process_connections (nl_self st)
            end) as Hpcs.
  { unfold conn_info_of, resolve_conn.
    destruct (pid_truthy (pid c)); [|done].
    by destruct (lookup_all ps z) as [[[??]?]|]. }
  destruct (resolve_conn ps c (process_connections (nl_self st))) as [ci pcs].
  simpl in Hci, Hpcs. subst ci.
  assert (pairs_of pcs ≡ₚ pairs_of (process_connections (nl_self st))
            ++ option_list (p ← pid_truthy (pid c); _ ← lookup_all ps p;
                            Some (p, conn_info_of ps c))) as Hp.
  { rewrite Hpcs. destruct (pid_truthy (pid c)) as [p|]; simpl;
      [|by rewrite app_nil_r].
    destruct (lookup_all ps p); simpl; [|by rewrite app_nil_r].
    apply pairs_of_pc_append. }
  intros Hstep. rewrite <- Hp. clear Hp Hpcs.
  repeat case_match; simplify_eq/=; try done.
  unfold index_listener; simpl. by destruct (str_truthy _).
Qed.

Lemma net_loop_run_pairs ps l : ∀ st st',
  net_loop_run ps st l = Ok st' →
  pairs_of (process_connections (nl_self st'))
  ≡ₚ pairs_of (process_connections (nl_self st)) ++ omap (resolved_pair ps) l.
Proof.
  induction l as [|c l IH]; intros st st'; simpl.
  - intros [= <-]. by rewrite app_nil_r.
  - intros (st1 & Hstep & Hrun)%rbind_Ok.
    rewrite (IH _ _ Hrun), (net_step_pairs _ _ _ _ Hstep).
    rewrite <- (assoc_L (++)). apply Permutation_app_head.
    by destruct (resolved_pair ps c).
Qed.

Lemma edge_of_ext svc svc' n p c :
  (∀ q, svc q = svc' q) → edge_of svc n p c = edge_of svc' n p c.
Proof.
  intros H. unfold edge_of.
  destruct (decide (ci_status c = "ESTABLISHED")); [|done].
  destruct (str_truthy (ci_remote_address c)) as [ra|]; simpl; [|done].
  destruct (deps_parse_remote ra) as [[rip rport]|]; [|done].
  destruct (deps_is_local rip); [|done]. by rewrite H.
Qed.

(** One connection: the edge it stands for is appended, with no look at
    the edges already there. *)
Lemma deps_conn_spec n p st c st' :
  deps_conn n p st c = Ok st' →
  dl_graph st' = dl_graph st
                 ++ option_list (edge_of (services_of (dl_listening st)) n p c)
  ∧ (∀ q, services_of (dl_listening st') q = services_of (dl_listening st) q).
Proof.
  unfold deps_conn, edge_of, services_of.
  destruct (decide (ci_status c = "ESTABLISHED")); simpl;
    [|intros [= <-]; by rewrite app_nil_r].
  destruct (str_truthy (ci_remote_address c)) as [ra|]; simpl;
    [|intros [= <-]; by rewrite app_nil_r].
  destruct (deps_parse_remote ra) as [[rip rport]|]; simpl; [|done].
  destruct (deps_is_local rip); [|intros [= <-]; by rewrite app_nil_r].
  destruct (oget rport (dl_listening st)) as [ls|] eqn:E; simpl;
    intros [= <-]; simpl; [|by rewrite app_nil_r].
  split; [done|]. intros q. rewrite oget_oset.
  destruct (decide (q = rport)) as [->|]; [|done]. by rewrite E.
Qed.

Lemma deps_conns_spec n p svc cs : ∀ st st',
  deps_conns n p st cs = Ok st' →
  (∀ q, services_of (dl_listening st) q = svc q) →
  dl_graph st' = dl_graph st ++ omap (edge_of svc n p) cs
  ∧ (∀ q, services_of (dl_listening st') q = svc q).
Proof.
  induction cs as [|c cs IH]; intros st st'; simpl.
  - intros [= <-] H. by rewrite app_nil_r.
  - intros (st1 & Hstep & Hrun)%rbind_Ok Hsvc.
    apply deps_conn_spec in Hstep as [Hg Hs].
    destruct (IH _ _ Hrun) as [Hg' Hs'].
    { intros q. by rewrite Hs. }
    split; [|done]. rewrite Hg', Hg, <- (assoc_L (++)). f_equal.
    rewrite (edge_of_ext _ svc) by done.
    by destruct (edge_of svc n p c).
Qed.

Lemma omap_pair_edge ps svc p cs :
  omap (pair_edge ps svc) (pair p <$> cs)
  = match ps p ≫= p_name with
    | Some n => omap (edge_of svc n p) cs
    | None => []
    end.
Proof.
  unfold pair_edge. induction cs as [|c cs IH]; csimpl.
  - by destruct (ps p ≫= p_name).
  - rewrite IH. destruct (ps p ≫= p_name); simpl; done.
Qed.

Lemma deps_pids_spec ps svc pcs : ∀ st st',
  deps_pids ps st pcs = Ok st' →
  (∀ q, services_of (dl_listening st) q = svc q) →
  dl_graph st' = dl_graph st ++ omap (pair_edge ps svc) (pairs_of pcs)
  ∧ (∀ q, services_of (dl_listening st') q = svc q).
Proof.
  unfold pairs_of.
  induction pcs as [|[p cs] pcs IH]; intros st st'; simpl.
  - intros [= <-] H. by rewrite app_nil_r.
  - intros (st1 & Hstep & Hrun)%rbind_Ok Hsvc. simpl in Hstep.
    assert (dl_graph st1 = dl_graph st ++ omap (pair_edge ps svc) (pair p <$> cs)
            ∧ (∀ q, services_of (dl_listening st1) q = svc q)) as [Hg Hs].
    { rewrite omap_pair_edge. destruct (ps p ≫= p_name) as [n|] eqn:En.
      - by destruct (deps_conns_spec _ _ _ _ _ _ Hstep Hsvc) as [-> Hs].
      - injection Hstep as <-. by rewrite app_nil_r. }
    destruct (IH _ _ Hrun Hs) as [Hg' Hs']. split; [|done].
    csimpl. rewrite Hg', Hg, omap_app. by rewrite <- (assoc_L (++)).
Qed.

Lemma deps_conns_total n p cs : ∀ st,
  Forall (λ c, parses (p, c)) cs → ∃ st', deps_conns n p st cs = Ok st'.
Proof.
  induction cs as [|c cs IH]; intros st Hok; simpl; [eauto|].
  apply Forall_cons in Hok as [Hc Hcs].
  assert (∃ st1, deps_conn n p st c = Ok st1) as [st1 ->].
  { unfold deps_conn. destruct (decide (ci_status c = "ESTABLISHED")) as [He|];
      [|eauto].
    destruct (str_truthy (ci_remote_address c)) as [ra|] eqn:Er; [|eauto].
    destruct (Hc He ra Er) as [[rip rport] ->]. simpl.
    repeat case_match; eauto. }
  simpl. auto.
Qed.

Lemma deps_pids_total ps pcs : ∀ st,
  Forall parses (pairs_of pcs) → ∃ st', deps_pids ps st pcs = Ok st'.
Proof.
  unfold pairs_of.
  induction pcs as [|[p cs] pcs IH]; intros st Hok; [simpl; eauto|].
  csimpl in Hok. apply Forall_app in Hok as [Hp Hrest].
  assert (∃ st1, deps_pid ps st (p, cs) = Ok st1) as [st1 Hst1].
  { simpl. destruct (ps p ≫= p_name); [|eauto].
    apply deps_conns_total. apply Forall_forall. intros c Hc.
    rewrite Forall_forall in Hp. apply Hp.
    by apply (list_elem_of_fmap_2 (pair p)). }
  cbn [deps_pids]. rewrite Hst1. simpl. auto.
Qed.

Lemma omap_omap {A B C} (g : A → option B) (f : B → option C) (l : list A) :
  omap f (omap g l) = omap (λ x, g x ≫= f) l.
Proof.
  induction l as [|x l IH]; csimpl; [done|].
  destruct (g x); csimpl; by rewrite IH.
Qed.

Section foldl_oset.
Context {K V W : Type} `{EqDecision K} (g : K → V → W).

Lemma oget_foldl_oset (l : list (K * V)) : ∀ acc k,
  NoDup l.*1 →
  oget k (foldl (λ acc '(p, b), oset p (g p b) acc) acc l)
  = match oget k l with
    | Some v => Some (g k v)
    | None => oget k acc
    end.
Proof.
  induction l as [|[p b] l IH]; intros acc k; csimpl; [done|].
  rewrite NoDup_cons. intros [Hp Hl]. rewrite IH by done.
  destruct (decide (k = p)) as [->|Hne].
  - apply oget_None in Hp. by rewrite Hp, oget_oset_eq.
  - by rewrite oget_oset_ne.
Qed.

Lemma oget_foldl_oset_None (l : list (K * V)) : ∀ acc k,
  oget k (foldl (λ acc '(p, b), oset p (g p b) acc) acc l) = None
  ↔ oget k acc = None ∧ oget k l = None.
Proof.
  induction l as [|[p b] l IH]; intros acc k; csimpl.
  - split; [by intros ?|by intros [? _]].
  - rewrite IH, oget_oset.
    destruct (decide (k = p)); split; intros [? ?]; done.
Qed.

Lemma NoDup_foldl_oset (l : list (K * V)) : ∀ acc,
  NoDup acc.*1 →
  NoDup (foldl (λ acc '(p, b), oset p (g p b) acc) acc l).*1.
Proof.
  induction l as [|[p b] l IH]; intros acc Hacc; csimpl; [done|].
  apply IH. by apply NoDup_oset.
Qed.

End foldl_oset.

Lemma init_listening_services_get self q :
  NoDup (port_service_map self).*1 →
  services_of (init_listening_services self) q
  = ps_service <$> oget q (port_service_map self).
Proof.
  intros Hnd. unfold services_of, init_listening_services.
  rewrite (oget_foldl_oset
             (λ p b, ListeningService (ps_service b) (ps_pid b)
                                      (_identify_service_by_port p) [])) by done.
  by destruct (oget q (port_service_map self)).
Qed.

Lemma init_listening_services_None self q :
  oget q (port_service_map self) = None →
  oget q (init_listening_services self) = None.
Proof.
  intros Hq. unfold init_listening_services.
  by apply (oget_foldl_oset_None
              (λ p b, ListeningService (ps_service b) (ps_pid b)
                                       (_identify_service_by_port p) [])).
Qed.

Lemma usage_of_None ls q : oget q ls = None → oget q (usage_of ls) = None.
Proof.
  intros Hq. unfold usage_of.
  by apply (oget_foldl_oset_None
              (λ p info, PortUsage (ls_service info) (ls_well_known_service info)
                                   (length (ls_clients info))
                                   (client_process <$> ls_clients info))).
Qed.

Lemma usage_of_get ls q :
  NoDup ls.*1 →
  oget q (usage_of ls)
  = (λ info, PortUsage (ls_service info) (ls_well_known_service info)
                       (length (ls_clients info))
                       (client_process <$> ls_clients info)) <$> oget q ls.
Proof.
  intros Hnd. unfold usage_of.
  rewrite (oget_foldl_oset
             (λ p info, PortUsage (ls_service info) (ls_well_known_service info)
                                  (length (ls_clients info))
                                  (client_process <$> ls_clients info))) by done.
  by destruct (oget q ls).
Qed.

Lemma deps_conn_clients n p st c st' :
  deps_conn n p st c = Ok st' →
  clients_ok (dl_listening st) → clients_ok (dl_listening st').
Proof.
  unfold deps_conn. intros Hstep Hok.
  repeat case_match; simplify_eq/=; try done.
  all: destruct (deps_parse_remote _) as [[rip rport]|]; simplify_eq/=.
  all: repeat case_match; simplify_eq/=; try done.
  - intros q ls'. rewrite oget_oset.
    destruct (decide (q = _)) as [->|]; [|by apply Hok].
    intros [= <-]; simpl. by eapply Hok.
  - intros q ls'. rewrite oget_oset.
    destruct (decide (q = _)) as [->|]; [|by apply Hok].
    intros [= <-]; simpl. apply NoDup_app. split_and!.
    + by eapply Hok.
    + intros x Hx ->%list_elem_of_singleton.
      by match goal with H : bool_decide _ = false |- _ =>
           apply bool_decide_eq_false in H end.
    + apply NoDup_singleton.
Qed.

Lemma deps_pids_clients ps pcs : ∀ st st',
  deps_pids ps st pcs = Ok st' →
  clients_ok (dl_listening st) → clients_ok (dl_listening st').
Proof.
  assert (∀ n p cs st st', deps_conns n p st cs = Ok st' →
            clients_ok (dl_listening st) → clients_ok (dl_listening st')) as Hc.
  { intros n p. induction cs as [|c cs IH]; intros st st'; simpl.
    - by intros [= <-].
    - intros (st1 & Hstep & Hrun)%rbind_Ok Hok.
      eauto using deps_conn_clients. }
  induction pcs as [|[p cs] pcs IH]; intros st st'; simpl.
  - by intros [= <-].
  - intros (st1 & Hstep & Hrun)%rbind_Ok Hok. eapply IH; [done|].
    destruct (ps p ≫= p_name); [by eapply Hc|by injection Hstep as <-].
Qed.

Lemma clients_ok_init self : clients_ok (init_listening_services self).
Proof.
  unfold init_listening_services.
  cut (∀ l acc, clients_ok acc →
         clients_ok (foldl (λ acc '(p, b),
                       oset p (ListeningService (ps_service b) (ps_pid b)
                                 (_identify_service_by_port p) []) acc) acc l)).
  { intros H. apply H. by intros ??. }
  induction l as [|[p b] l IH]; intros acc Hacc; csimpl; [done|].
  apply IH. intros q ls. rewrite oget_oset.
  destruct (decide (q = p)); [|by apply Hacc].
  intros [= <-]. apply NoDup_nil_2.
Qed.

Lemma conn_info_of_fields ps c :
  ci_status (conn_info_of ps c) = status c
  ∧ ci_remote_address (conn_info_of ps c) = fmt_addr (raddr c)
  ∧ ci_local_address (conn_info_of ps c) = fmt_addr (laddr c)
  ∧ ci_type (conn_info_of ps c) = type_str c.
Proof.
  unfold conn_info_of, resolve_conn.
  destruct (pid_truthy (pid c)); [|done].
  by destruct (lookup_all ps z) as [[[??]?]|].
Qed.

Lemma resolved_pair_parses ps c item :
  wf_remote c → resolved_pair ps c = Some item → parses item.
Proof.
  intros Hwf Hr. unfold resolved_pair in Hr.
  destruct (pid_truthy (pid c)) as [p|]; [|done]. simpl in Hr.
  destruct (lookup_all ps p); [|done]. injection Hr as <-.
  destruct (conn_info_of_fields ps c) as (_ & Hra & _).
  intros _ ra. simpl. rewrite Hra.
  destruct (raddr c) as [a|] eqn:Ea; [|done].
  rewrite fmt_addr_truthy. intros [= <-].
  rewrite deps_parse_remote_fmt by by apply Hwf. by eexists.
Qed.

Lemma lookup_all_name ps p r :
  lookup_all ps p = Some r → ps p ≫= p_name = Some r.1.1.
Proof.
  unfold lookup_all. destruct (ps p) as [pr|]; [|done]. simpl.
  destruct (p_name pr); [|done]. simpl.
  destruct (p_username pr); [|done]. simpl.
  destruct (p_cmdline pr); [|done]. simpl. by intros [= <-].
Qed.

(** On a stored pair, the edge read back from the formatted address is the
    edge of the fact it came from. *)
Lemma pair_edge_fact ps conns svc c :
  wf_remote c →
  (∀ q, svc q = ps_service <$> (first_listener q conns ≫= binding_of ps)) →
  resolved_pair ps c ≫= pair_edge ps svc = fact_edge ps conns c.
Proof.
  intros Hwf Hsvc. unfold resolved_pair, fact_edge, pair_edge.
  destruct (conn_info_of_fields ps c) as (Hst & Hra & _).
  destruct (pid_truthy (pid c)) as [p|]; simpl.
  2:{ destruct (decide _); [|done]. by destruct (raddr c). }
  destruct (lookup_all ps p) as [r|] eqn:El; simpl.
  2:{ destruct (decide _); [|done]. by destruct (raddr c). }
  rewrite (lookup_all_name _ _ _ El). simpl.
  unfold edge_of. rewrite Hst, Hra.
  destruct (decide (status c = "ESTABLISHED")); [|done].
  destruct (raddr c) as [a|] eqn:Ea; [|done].
  rewrite fmt_addr_truthy. simpl.
  rewrite deps_parse_remote_fmt by by apply Hwf.
  destruct (deps_is_local (ip a)); [|done].
  rewrite Hsvc. by destruct (first_listener (port a) conns ≫= binding_of ps).
Qed.

(** Everything the later stages need to know about the state
    [get_network_info] leaves behind. *)
Lemma get_network_info_facts ps conns :
  Forall wf_listen conns →
  ∃ self' ni,
    get_network_info init_state ps (Some conns) = Ok (self', ni)
    ∧ (∀ p, oget p (port_service_map self')
            = first_listener p conns ≫= binding_of ps)
    ∧ NoDup (port_service_map self').*1
    ∧ spm_ok self'
    ∧ pairs_of (process_connections self') ≡ₚ omap (resolved_pair ps) conns
    ∧ ∃ lp, listening_ports ni = Some lp
            ∧ ∀ si, si ∈ lp ↔
                first_listener (si_port si) conns ≫= service_info_of ps = Some si.
Proof.
  intros Hwf.
  destruct (get_network_info_run ps init_state conns Hwf) as (st & Hrun & Hgni).
  destruct (get_network_info_index ps conns Hwf)
    as (s & n & Hgni' & Hidx & Hnd & Hspm & Hlp).
  rewrite Hgni in Hgni'. injection Hgni' as <- <-.
  eexists _, _. split; [done|]. split_and!; try done.
  by rewrite (net_loop_run_pairs _ _ _ _ Hrun).
Qed.

(** The three correlation stages on a well-formed snapshot: nothing is
    raised, and the dependency graph holds, up to order, one edge per
    qualifying ESTABLISHED fact. *)
Lemma correlate_facts ps conns :
  wf_snapshot conns →
  ∃ self ni pd,
    get_network_info init_state ps (Some conns) = Ok (self, ni)
    ∧ get_port_dependencies self ps = Ok pd
    ∧ correlate ps (Some conns)
      = Ok (Correlation ni (get_application_communication_map self ps) pd)
    ∧ dependency_graph pd ≡ₚ omap (fact_edge ps conns) conns
    ∧ clients_ok (listening_services pd)
    ∧ (∀ q, services_of (listening_services pd) q
            = ps_service <$> (first_listener q conns ≫= binding_of ps))
    ∧ port_usage_map pd = usage_of (listening_services pd)
    ∧ NoDup (listening_services pd).*1.
Proof.
  intros Hwf.
  assert (Forall wf_listen conns) as Hwl.
  { eapply Forall_impl; [exact Hwf|]. by intros ? [? _]. }
  assert (Forall wf_remote conns) as Hwr.
  { eapply Forall_impl; [exact Hwf|]. by intros ? [_ ?]. }
  destruct (get_network_info_facts ps conns Hwl)
    as (self & ni & Hgni & Hidx & Hnd & _ & Hpairs & _).
  assert (Forall parses (pairs_of (process_connections self))) as Hparse.
  { rewrite Hpairs. apply Forall_forall. intros item Hin.
    apply list_elem_of_omap in Hin as (c & Hc & Hr).
    rewrite Forall_forall in Hwr. eauto using resolved_pair_parses. }
  destruct (deps_pids_total ps _ (DepsLoop (init_listening_services self) [])
              Hparse) as [st Hst].
  assert (∀ q, services_of (init_listening_services self) q
               = ps_service <$> (first_listener q conns ≫= binding_of ps)) as Hsvc.
  { intros q. by rewrite init_listening_services_get, Hidx. }
  destruct (deps_pids_spec _ _ _ _ _ Hst Hsvc) as [Hg Hs].
  pose proof (deps_pids_clients _ _ _ _ Hst (clients_ok_init self)) as Hcl.
  assert (get_port_dependencies self ps
          = Ok (PortDeps (dl_listening st) (usage_of (dl_listening st))
                         (dl_graph st))) as Hpd.
  { unfold get_port_dependencies. by rewrite Hst. }
  eexists _, _, _. split; [done|]. split; [done|]. split_and!; simpl.
  - unfold correlate. rewrite Hgni. simpl. by rewrite Hpd.
  - rewrite Hg. simpl. rewrite Hpairs, omap_omap.
    erewrite list_omap_ext; [done|].
    apply Forall2_same_length_lookup. split; [done|].
    intros i c c' Hc Hc'. simplify_eq.
    apply pair_edge_fact; [|done].
    rewrite Forall_forall in Hwr. apply Hwr. by eapply list_elem_of_lookup_2.
  - done.
  - done.
  - done.
  - assert (∀ pcs st0 st1, deps_pids ps st0 pcs = Ok st1 →
              (dl_listening st1).*1 = (dl_listening st0).*1) as Hkeys.
    { assert (∀ n p cs st0 st1, deps_conns n p st0 cs = Ok st1 →
                (dl_listening st1).*1 = (dl_listening st0).*1) as Hc.
      { intros n p. induction cs as [|c cs IH]; intros st0 st1; simpl.
        - by intros [= <-].
        - intros (st' & Hstep & Hrun)%rbind_Ok.
          rewrite (IH _ _ Hrun). revert Hstep. unfold deps_conn.
          repeat case_match; simplify_eq/=; try by intros [= <-].
          destruct (deps_parse_remote _) as [[rip rport]|]; simpl; [|done].
          repeat case_match; simplify_eq/=; try by intros [= <-].
          all: intros [= <-]; simpl; rewrite oset_keys.
          all: by match goal with H : oget _ _ = Some _ |- _ =>
                    unfold omem; rewrite H end. }
      induction pcs as [|[p cs] pcs IH]; intros st0 st1; simpl.
      - by intros [= <-].
      - intros (st' & Hstep & Hrun)%rbind_Ok. rewrite (IH _ _ Hrun).
        destruct (ps p ≫= p_name); [by eapply Hc|by injection Hstep as <-]. }
    rewrite (Hkeys _ _ _ Hst). simpl. unfold init_listening_services.
    apply (NoDup_foldl_oset
             (λ p b, ListeningService (ps_service b) (ps_pid b)
                                      (_identify_service_by_port p) [])).
    apply NoDup_nil_2.
Qed.

(** ** [get_application_communication_map] *)

Section fold_flow_facts.
Context {S X : Type} (f : S → X → flow S).

Lemma fold_flow_inv_in (P : S → Prop) l : ∀ s,
  (∀ s x, x ∈ l → P s → P (flow_state (f s x))) →
  P s → P (flow_state (fold_flow f s l)).
Proof.
  induction l as [|x l IH]; intros s Hf Hs; simpl; [done|].
  pose proof (Hf s x (list_elem_of_here _ _) Hs) as Hx.
  destruct (f s x) as [s'|e s']; simpl in *; [|done].
  apply IH; [|done]. intros s0 y Hy. apply Hf. by apply list_elem_of_further.
Qed.

Lemma fold_flow_inv (P : S → Prop) l s :
  (∀ s x, P s → P (flow_state (f s x))) →
  P s → P (flow_state (fold_flow f s l)).
Proof. intros Hf. apply fold_flow_inv_in. intros ???. apply Hf. Qed.

Lemma fold_flow_next l : ∀ s,
  (∀ x, x ∈ l → ∀ s, ∃ s', f s x = Next s') →
  ∃ s', fold_flow f s l = Next s'.
Proof.
  induction l as [|x l IH]; intros s Hf; simpl; [eauto|].
  destruct (Hf x (list_elem_of_here _ _) s) as [s' ->].
  apply IH. intros y Hy. apply Hf. by apply list_elem_of_further.
Qed.


End fold_flow_facts.








Lemma comm_conn_next self ps c n p cm :
  ipv4_remote c → ∃ cm', comm_conn self n p cm (conn_info_of ps c) = Next cm'.
Proof.
  intros Hv4. unfold comm_conn.
  destruct (conn_info_of_fields ps c) as (Hst & Hra & _).
  destruct (decide (ci_status _ = "ESTABLISHED")); [|eauto].
  rewrite Hra. destruct (raddr c) as [a|] eqn:Ea; [|eauto].
  rewrite fmt_addr_truthy, comm_parse_remote_fmt by eauto.
  destruct (local_port_of_fmt ps c) as [lp ->].
  destruct (comm_is_local (ip a)); eauto.
Qed.








Lemma comm_is_local_127 s : PyStr.startswith "127." s = true → comm_is_local s = true.
Proof. intros H. unfold comm_is_local. rewrite H. apply orb_true_r. Qed.






(** ** The well-known port tables *)

Example identify_443 : _identify_service_by_port 443 = "HTTPS".
Proof. vm_compute. reflexivity. Qed.

Example identify_4000 : _identify_service_by_port 4000 = "Unknown-4000".
Proof. vm_compute. reflexivity. Qed.

Example identify_win_3389 : identify_service_by_port 3389 = "RDP".
Proof. vm_compute. reflexivity. Qed.

Example identify_win_9200 : identify_service_by_port 9200 = "Port-9200".
Proof. vm_compute. reflexivity. Qed.

(** ** The decimal numeral of an integer is unique *)

Lemma string_app_assoc (s t u : string) : (s +:+ t) +:+ u = s +:+ (t +:+ u).
Proof. induction s as [|c s IH]; [done|]. by rewrite !append_cons, IH. Qed.

Lemma string_app_nil_r (s : string) : s +:+ "" = s.
Proof. induction s as [|c s IH]; [done|]. by rewrite append_cons, IH. Qed.


Lemma pretty_N_go_app x : ∀ s, pretty_N_go x s = pretty_N_go x "" +:+ s.
Proof.
  induction (N.lt_wf_0 x) as [x _ IH]; intros s.
  destruct (decide (x = 0)%N) as [->|Hx]; [by rewrite !pretty_N_go_0|].
  rewrite !(pretty_N_go_step x) by lia.
  rewrite (IH (x `div` 10)%N) by (apply N.div_lt; lia).
  rewrite (IH (x `div` 10)%N ltac:(apply N.div_lt; lia) (String _ "")).
  by rewrite string_app_assoc.
Qed.

Lemma digit_char_val c d :
  PyStr.digit_val c = Some d →
  0 ≤ d < 10 ∧ pretty_N_char (Z.to_N d) = c.
Proof.
  destruct c as [[] [] [] [] [] [] [] []]; intros Ed; vm_compute in Ed;
    first [discriminate Ed | injection Ed as <-; split; [lia|reflexivity]].
Qed.

Lemma digits_go_ge s : ∀ acc v,
  0 ≤ acc → all_digits s = true →
  PyStr.digits_go true acc s = Some v → acc ≤ v.
Proof.
  induction s as [|c s IH]; intros acc v Hacc Hs Hv.
  { simpl in Hv. injection Hv as <-. lia. }
  simpl in Hs, Hv. apply andb_true_iff in Hs as [Hc Hs].
  destruct (PyStr.digit_val c) as [d|] eqn:Ed; [|done].
  pose proof (digit_char_val _ _ Ed) as [Hd _].
  pose proof (IH (acc * 10 + d) v ltac:(lia) Hs Hv). lia.
Qed.

(** Appending a digit to the numeral of a positive number. *)
Lemma pretty_pos_snoc acc c d :
  0 < acc → PyStr.digit_val c = Some d →
  pretty (acc * 10 + d) = pretty acc +:+ String c "".
Proof.
  intros Hacc Hc. apply digit_char_val in Hc as [Hd Hc].
  assert (∀ z, 0 < z → pretty z = pretty_N_go (Z.to_N z) "") as Hp.
  { intros [|p|p] Hz; [lia|done|lia]. }
  rewrite !Hp by lia.
  rewrite (pretty_N_go_step (Z.to_N (acc * 10 + d))) by lia.
  assert (Z.to_N (acc * 10 + d) `div` 10 = Z.to_N acc)%N as ->.
  { rewrite <-(Z2N.inj_div _ 10) by lia. f_equal.
    rewrite Z.div_add_l by lia. rewrite Z.div_small by lia. lia. }
  assert (Z.to_N (acc * 10 + d) `mod` 10 = Z.to_N d)%N as ->.
  { rewrite <-(Z2N.inj_mod _ 10) by lia. f_equal.
    rewrite Z.add_comm, Z.mod_add by lia. by apply Z.mod_small. }
  by rewrite Hc, pretty_N_go_app.
Qed.

Lemma digits_go_pretty s : ∀ acc v,
  0 < acc → all_digits s = true →
  PyStr.digits_go true acc s = Some v →
  pretty v = pretty acc +:+ s.
Proof.
  induction s as [|c s IH]; intros acc v Hacc Hs Hv.
  { simpl in Hv. injection Hv as <-. by rewrite string_app_nil_r. }
  simpl in Hs, Hv. apply andb_true_iff in Hs as [Hc Hs].
  destruct (PyStr.digit_val c) as [d|] eqn:Ed; [|done].
  pose proof (digit_char_val _ _ Ed) as [Hd _].
  rewrite (IH (acc * 10 + d) v ltac:(lia) Hs Hv), (pretty_pos_snoc _ _ _ Hacc Ed).
  by rewrite string_app_assoc.
Qed.

(** A numeral without sign and without leading zero is the text [str]
    gives for its value, which is positive. *)
Lemma digits_pretty s v :
  all_digits s = true → nonzero_head s = true →
  PyStr.digits_go false 0 s = Some v →
  0 < v ∧ pretty v = s.
Proof.
  destruct s as [|c s]; [done|]. intros Hs Hh Hv.
  simpl in Hs, Hv, Hh. apply andb_true_iff in Hs as [Hc Hs].
  destruct (PyStr.digit_val c) as [d|] eqn:Ed; [|done].
  pose proof (digit_char_val _ _ Ed) as [Hd Hch].
  assert (0 < d) as Hpos.
  { destruct (decide (d = 0)) as [->|]; [|lia].
    simpl in Hch. subst c. done. }
  simpl in Hv.
  assert (pretty d = String c "") as Hpd.
  { rewrite <-Hch. clear -Hd Hpos.
    assert (d = 1 ∨ d = 2 ∨ d = 3 ∨ d = 4 ∨ d = 5 ∨ d = 6 ∨ d = 7 ∨ d = 8
            ∨ d = 9) as Hc by lia.
    destruct_or!; subst d; reflexivity. }
  assert (PyStr.digits_go true d s = Some v) as Hv' by exact Hv.
  split.
  - pose proof (digits_go_ge s d v ltac:(lia) Hs Hv'). lia.
  - by rewrite (digits_go_pretty s d v Hpos Hs Hv'), Hpd.
Qed.

Lemma minus_digits_strip ds :
  all_digits ds = true → PyStr.strip (String "-" ds) = String "-" ds.
Proof.
  intros Hs. unfold PyStr.strip. simpl PyStr.lstrip.
  destruct ds as [|c s]; [done|].
  change (PyStr.rstrip (String "-" (String c s)))
    with (match PyStr.rstrip (String c s) with
          | EmptyString => if PyStr.isspace "-" then EmptyString else String "-" EmptyString
          | r => String "-" r
          end).
  by rewrite (all_digits_rstrip _ Hs).
Qed.

(** The decimal numeral of [P] is the text [str(P)]. *)
Lemma decimal_of_unique P s : decimal_of P s → s = PyStr.str_int P.
Proof.
  intros [Hd Hi]. unfold PyStr.str_int.
  destruct s as [|c s]; [done|].
  destruct (decide (c = "-"%char)) as [->|Hc].
  - simpl in Hd. apply andb_true_iff in Hd as [Hs Hh].
    unfold PyStr.int in Hi. rewrite (minus_digits_strip _ Hs) in Hi.
    destruct (PyStr.digits_go false 0 s) as [v|] eqn:Ev; [|done].
    injection Hi as <-.
    destruct (digits_pretty _ _ Hs Hh Ev) as [Hpos <-].
    destruct v as [|p|p]; [lia| |lia]. done.
  - assert (is_numeral (String c s)
            = all_digits (String c s)
              && (nonzero_head (String c s) || String.eqb (String c s) "0"))
      as Hdec.
    { destruct c as [[] [] [] [] [] [] [] []]; done. }
    rewrite Hdec in Hd. apply andb_true_iff in Hd as [Hs Hh].
    rewrite (int_digits _ _ Hs) in Hi.
    apply orb_true_iff in Hh as [Hh|Hh].
    + by destruct (digits_pretty _ _ Hs Hh Hi) as [_ <-].
    + apply String.eqb_eq in Hh. rewrite Hh in Hi |- *.
      injection Hi as <-. done.
Qed.

Lemma pretty_N_go_head x : ∀ s,
  (0 < x)%N → nonzero_head (pretty_N_go x s) = true.
Proof.
  induction (N.lt_wf_0 x) as [x _ IH]; intros s Hx.
  rewrite pretty_N_go_step by done.
  destruct (decide (x `div` 10 = 0)%N) as [H0|Hn0].
  - rewrite H0, pretty_N_go_0.
    assert (x < 10)%N as Hlt by (by apply N.div_small_iff in H0).
    rewrite N.mod_small by done.
    assert (x = 1 ∨ x = 2 ∨ x = 3 ∨ x = 4 ∨ x = 5 ∨ x = 6 ∨ x = 7 ∨ x = 8
            ∨ x = 9)%N as Hc by lia.
    destruct_or!; subst x; reflexivity.
  - apply IH; [apply N.div_lt; lia|by apply N.neq_0_lt_0].
Qed.

Lemma decimal_of_str_int P : decimal_of P (PyStr.str_int P).
Proof.
  split; [|apply int_str_int]. unfold PyStr.str_int.
  assert (∀ p, all_digits (pretty (Z.pos p)) = true
               ∧ nonzero_head (pretty (Z.pos p)) = true) as Hpos.
  { intros p. destruct (pretty_positive_digits p) as (c & s & E & Hd & Hv).
    split; [by rewrite E|].
    change (pretty (Z.pos p)) with (pretty_N_go (N.pos p) "").
    by apply pretty_N_go_head. }
  destruct P as [|p|p]; [done| |].
  - destruct (Hpos p) as [Hd Hh]. 
    destruct (pretty (Z.pos p)) as [|c s] eqn:E; [done|].
    assert (c ≠ "-"%char) as Hc.
    { intros ->. done. }
    assert (is_numeral (String c s)
            = all_digits (String c s)
              && (nonzero_head (String c s) || String.eqb (String c s) "0"))
      as ->.
    { destruct c as [[] [] [] [] [] [] [] []]; done. }
    by rewrite Hd, Hh.
  - assert (pretty (Z.neg p) = String "-" (pretty (Z.pos p))) as -> by done.
    destruct (Hpos p) as [Hd Hh]. simpl. by rewrite Hd, Hh.
Qed.

(** C8.  A port that is not a key of the well-known table resolves to
    "Unknown-P" on Linux and to "Port-P" on Windows, where P stands for the
    decimal numeral of the port: the text of digits, without leading zero,
    that [int] reads back as the port (every port has one).  A port of the
    table resolves to the table's label. *)
Theorem well_known_resolution (P : Z) :
  (∃ s, decimal_of P s)
  ∧ (∀ s, decimal_of P s →
       (common_ports !! P = None →
        _identify_service_by_port P = "Unknown-" +:+ s)
       ∧ (well_known_ports !! P = None →
          identify_service_by_port P = "Port-" +:+ s))
  ∧ (∀ label, common_ports !! P = Some label →
              _identify_service_by_port P = label)
  ∧ (∀ label, well_known_ports !! P = Some label →
              identify_service_by_port P = label).
Proof.
  unfold _identify_service_by_port, identify_service_by_port.
  split_and!.
  - exists (PyStr.str_int P). apply decimal_of_str_int.
  - intros s ->%decimal_of_unique. split; by intros ->.
  - by intros label ->.
  - by intros label ->.
Qed.

Lemma well_known_resolution_witness :
  _identify_service_by_port 4000 = "Unknown-4000"
  ∧ _identify_service_by_port 5432 = "PostgreSQL"
  ∧ identify_service_by_port 4000 = "Port-4000"
  ∧ identify_service_by_port 3389 = "RDP".
Proof.
  destruct (well_known_resolution 4000) as (_ & Hd & _ & _).
  destruct (Hd "4000") as [Hu Hp]; [split; reflexivity|].
  destruct (well_known_resolution 5432) as (_ & _ & Hl & _).
  destruct (well_known_resolution 3389) as (_ & _ & _ & Hw).
  split_and!.
  - apply Hu. vm_compute. reflexivity.
  - apply Hl. vm_compute. reflexivity.
  - apply Hp. vm_compute. reflexivity.
  - apply Hw. vm_compute. reflexivity.
Defined.

(** ** The listening socket whose owner cannot be resolved *)

Lemma first_listener_Some p conns c :
  first_listener p conns = Some c →
  c ∈ conns ∧ status c = "LISTEN" ∧ port <$> laddr c = Some p.
Proof.
  unfold first_listener. intros H.
  destruct (find_some _ _ H) as [Hin Hl].
  apply listens_on_spec in Hl. split; [|done]. by apply list_elem_of_In.
Qed.

Lemma failed_lookup_name ps c :
  pid_truthy (pid c) ≫= lookup_all ps = None →
  ci_process_name (conn_info_of ps c) = None.
Proof.
  unfold conn_info_of, resolve_conn.
  destruct (pid_truthy (pid c)) as [p|]; simpl; [|done].
  by intros ->.
Qed.

(** C5 (as amended).  A LISTEN fact that is the first for its port and
    whose process lookup fails does not make the run fail.  The binding is
    kept in [listening_ports] with a null process name, where it occupies
    the slot of the port; the port is in no list of [service_port_map] and
    is not a key of [port_service_map], hence not a key of
    [listening_services] or [port_usage_map] either. *)
Theorem failed_lookup_listener ps conns c p :
  wf_snapshot conns →
  first_listener p conns = Some c →
  pid_truthy (pid c) ≫= lookup_all ps = None →
  ∃ self ni lp pd,
    get_network_info init_state ps (Some conns) = Ok (self, ni)
    ∧ listening_ports ni = Some lp
    ∧ get_port_dependencies self ps = Ok pd
    ∧ (∃ si, si ∈ lp ∧ service_info_of ps c = Some si ∧ si_port si = p
             ∧ si_pid si = pid c ∧ si_process_name si = None)
    ∧ oget p (port_service_map self) = None
    ∧ (∀ name ports, oget name (service_port_map self) = Some ports → p ∉ ports)
    ∧ oget p (listening_services pd) = None
    ∧ oget p (port_usage_map pd) = None.
Proof.
  intros Hwf Hfirst Hfail.
  destruct (correlate_facts ps conns Hwf)
    as (self & ni & pd & Hgni & Hpd & _ & _ & _ & Hsvc & Husage & _).
  assert (Forall wf_listen conns) as Hwl.
  { eapply Forall_impl; [exact Hwf|]. by intros ? [? _]. }
  destruct (get_network_info_facts ps conns Hwl)
    as (self' & ni' & Hgni' & Hidx & _ & Hspm & _ & lp & Hlp & Hmem).
  rewrite Hgni in Hgni'. injection Hgni' as <- <-.
  destruct (first_listener_Some _ _ _ Hfirst) as (Hin & Hst & Hport).
  pose proof (failed_lookup_name _ _ Hfail) as Hname.
  assert (oget p (port_service_map self) = None) as Hnone.
  { rewrite Hidx, Hfirst. simpl. unfold binding_of. by rewrite Hname. }
  destruct (laddr c) as [a|] eqn:Ha; [|done]. injection Hport as Hport.
  assert (∃ si, service_info_of ps c = Some si ∧ si_port si = p
                ∧ si_pid si = pid c ∧ si_process_name si = None)
    as (si & Hsi & Hp1 & Hp2 & Hp3).
  { unfold service_info_of. rewrite Ha. simpl. eexists. by split_and!. }
  exists self, ni, lp, pd. split_and!; try done.
  - exists si. split_and!; try done.
    apply Hmem. by rewrite Hp1, Hfirst.
  - intros name ports Hget Hp.
    destruct (Hspm name ports p Hget Hp) as [x Hx]. by rewrite Hnone in Hx.
  - specialize (Hsvc p). rewrite Hfirst in Hsvc. simpl in Hsvc.
    unfold binding_of in Hsvc. rewrite Hname in Hsvc. simpl in Hsvc.
    unfold services_of in Hsvc. by destruct (oget p (listening_services pd)).
  - rewrite Husage. apply usage_of_None.
    specialize (Hsvc p). rewrite Hfirst in Hsvc. simpl in Hsvc.
    unfold binding_of in Hsvc. rewrite Hname in Hsvc. simpl in Hsvc.
    unfold services_of in Hsvc. by destruct (oget p (listening_services pd)).
Qed.

Lemma failed_lookup_listener_witness :
  ∃ self ni lp pd,
    get_network_info init_state web_table (Some [nginx80; orphan8080])
      = Ok (self, ni)
    ∧ listening_ports ni = Some lp
    ∧ get_port_dependencies self web_table = Ok pd
    ∧ (∃ si, si ∈ lp ∧ service_info_of web_table orphan8080 = Some si
             ∧ si_port si = 8080
             ∧ si_pid si = pid orphan8080 ∧ si_process_name si = None)
    ∧ oget 8080 (port_service_map self) = None
    ∧ (∀ name ports, oget name (service_port_map self) = Some ports → 8080 ∉ ports)
    ∧ oget 8080 (listening_services pd) = None
    ∧ oget 8080 (port_usage_map pd) = None.
Proof.
  apply (failed_lookup_listener web_table [nginx80; orphan8080] orphan8080 8080).
  - repeat constructor; try (intros _; simpl; eauto); intros a [=].
  - reflexivity.
  - reflexivity.
Defined.

(** C5 as stated fails: the port of the unresolved listener is kept in
    [listening_ports] but is not a key of [port_service_map]. *)
Lemma unresolved_listener_not_in_port_index :
  (λ r, (listening_ports r.2, port_service_map r.1, service_port_map r.1)) <$>
    get_network_info init_state web_table (Some [orphan8080])
  = Ok (Some [ServiceInfo 8080 "TCP" "0.0.0.0" (Some 9) None None None], [], []).
Proof. vm_compute. reflexivity. Qed.

(** ** The PostgreSQL scenario *)

(** C2.  With one LISTEN fact for port 5432 owned by pid 10 ("postgres")
    and one ESTABLISHED fact of pid 20 ("app") towards 127.0.0.1:5432, in
    either enumeration order: the service of [listening_services[5432]] is
    "postgres", the dependency graph is the single edge from "app" (pid 20)
    to port 5432 of "postgres", and the client count of
    [port_usage_map[5432]] is 1. *)
Theorem postgres_app_scenario
    fd1 fam1 ty1 k1 lip fd2 fam2 ty2 k2 la u10 u20 cmd10 cmd20 rest conns :
  conns ≡ₚ [ scenario_listen fd1 fam1 ty1 k1 lip;
             scenario_established fd2 fam2 ty2 k2 la ] →
  ∃ r, correlate (scenario_table u10 u20 cmd10 cmd20 rest) (Some conns) = Ok r
       ∧ ls_service <$> oget 5432 (listening_services (port_dependencies r))
         = Some "postgres"
       ∧ dependency_graph (port_dependencies r)
         = [DependencyEdge "app" 20 5432 "postgres" "port-level"]
       ∧ pu_client_count <$> oget 5432 (port_usage_map (port_dependencies r))
         = Some 1%nat.
Proof.
  intros Hperm. apply Permutation_sym, Permutation_length_2_inv in Hperm.
  destruct Hperm as [-> | ->]; eexists; (split; [reflexivity|]);
    split_and!; reflexivity.
Qed.

Lemma postgres_app_scenario_witness :
  ∃ r, correlate app_table
         (Some [postgres5432; established 20 40000 "127.0.0.1" 5432]) = Ok r
       ∧ ls_service <$> oget 5432 (listening_services (port_dependencies r))
         = Some "postgres"
       ∧ dependency_graph (port_dependencies r)
         = [DependencyEdge "app" 20 5432 "postgres" "port-level"]
       ∧ pu_client_count <$> oget 5432 (port_usage_map (port_dependencies r))
         = Some 1%nat.
Proof.
  destruct (postgres_app_scenario
              3 "AddressFamily.AF_INET" "SocketKind.SOCK_STREAM" SOCK_STREAM
              "127.0.0.1"
              4 "AddressFamily.AF_INET" "SocketKind.SOCK_STREAM" SOCK_STREAM
              (Some (Addr "127.0.0.1" 40000))
              "root" "root" ["postgres"] ["app"] app_table
              [postgres5432; established 20 40000 "127.0.0.1" 5432])
    as (r & Hr & H1 & H2 & H3).
  - reflexivity.
  - exists r. by split_and!.
Defined.

(** ** Classification of the remote address *)

(** C6 (the code at the failing input).  On a loopback connection over
    IPv6 the communication map gives up: the
    address "::1:5432" does not split in two at its colons, the
    [ValueError] ends the loop, and the connection is recorded neither as
    local nor as external.  [get_port_dependencies], which splits at the
    last colon, classifies the same connection as local. *)
Lemma ipv6_loopback_not_classified :
  (λ r, comm_run r.1 app_table) <$>
    get_network_info init_state app_table (Some ipv6_snapshot)
  = Ok (Stop (ValueError "too many values to unpack (expected 2)")
             (CommMap [ ("postgres", PtsEntry 10 "postgres" [] []);
                        ("app", PtsEntry 20 "app" [] []) ] [] []))
  ∧ (λ r, dependency_graph (port_dependencies r)) <$>
      correlate app_table (Some ipv6_snapshot)
    = Ok [DependencyEdge "app" 20 5432 "postgres" "port-level"].
Proof. split; vm_compute; reflexivity. Qed.

(** ** The utilization series *)

Section series_facts.
Context `{FO : FloatOps}.
Implicit Types h : gmap string pyval.

Lemma keeps_refl h : keeps h h.
Proof. by intros k. Qed.

Lemma keeps_trans h1 h2 h3 : keeps h1 h2 → keeps h2 h3 → keeps h1 h3.
Proof. intros H1 H2 k Hk. auto. Qed.

Lemma keeps_insert h h' k v : keeps h h' → keeps h (<[k:=v]> h').
Proof.
  intros H j Hj. apply lookup_insert_is_Some.
  destruct (decide (k = j)); [by left|right]. split; [done|]. by apply H.
Qed.

Lemma has_series_keys_keeps h h' :
  has_series_keys h → keeps h h' → has_series_keys h'.
Proof. intros Hk H. eapply Forall_impl; [exact Hk|]. intros k. apply H. Qed.

Lemma init_available : cpu_history_init !! "available" = Some (PBool false).
Proof. reflexivity. Qed.

Lemma init_error : cpu_history_init !! "error" = Some PNone.
Proof. reflexivity. Qed.

Lemma init_hourly : cpu_history_init !! "hourly_data" = Some (PList []).
Proof. reflexivity. Qed.

Lemma init_has_series_keys : has_series_keys cpu_history_init.
Proof. repeat constructor; by eexists. Qed.

Lemma append_nonempty a s t : String a s +:+ t ≠ "".
Proof. by rewrite append_cons. Qed.

Lemma sar_handler_nonempty e : sar_handler e ≠ "".
Proof. destruct e; simpl; try done; apply append_nonempty. Qed.

Lemma sar_store_keeps st h : keeps h (sar_store st h).
Proof. unfold sar_store. do 2 apply keeps_insert. apply keeps_refl. Qed.

Lemma sar_try_keeps env : keeps cpu_history_init (flow_state (sar_try env)).
Proof.
  unfold sar_try. destruct (negb _).
  { simpl. apply keeps_insert, keeps_refl. }
  destruct (run_sar env (sa_file_path env)) as [rc out err|e]; simpl;
    [|apply keeps_refl].
  destruct (decide (rc = 0)); [|apply keeps_insert, keeps_refl].
  destruct (fold_flow _ _ _); simpl;
    (eapply keeps_trans; [|apply sar_store_keeps]);
    do 3 apply keeps_insert; apply keeps_refl.
Qed.

(** The sar collector returns, with the five keys; the series is
    available exactly when sar exits with status 0, and otherwise carries a
    non-empty error. *)
Lemma sar_series env :
  ∃ h, get_previous_day_cpu_utilization env = Ok h
       ∧ has_series_keys h
       ∧ (h !! "available" = Some (PBool true)
          ∨ ∃ msg, unavailable_with msg h).
Proof.
  unfold get_previous_day_cpu_utilization.
  pose proof (sar_try_keeps env) as Hk.
  assert (∀ r : flow (gmap string pyval),
            keeps cpu_history_init (flow_state r) →
            has_series_keys
              (match r with
               | Next h => h
               | Stop e h => <["error" := PStr (sar_handler e)]> h
               end)) as Hkeys.
  { intros [h|e h] H; simpl in *.
    - eapply has_series_keys_keeps; [apply init_has_series_keys|done].
    - eapply has_series_keys_keeps; [apply init_has_series_keys|].
      by apply keeps_insert. }
  specialize (Hkeys _ Hk). clear Hk. revert Hkeys.
  unfold sar_try. destruct (negb _).
  { intros Hkeys. eexists. split; [done|]. split; [done|]. right.
    eexists. split_and!; [done|by rewrite lookup_insert_eq|].
    apply append_nonempty. }
  destruct (run_sar env (sa_file_path env)) as [rc out err|e].
  2:{ intros Hkeys. eexists. split; [done|]. split; [done|]. right.
      eexists. split_and!; [done|by rewrite lookup_insert_eq|].
      apply sar_handler_nonempty. }
  destruct (decide (rc = 0)) as [Hrc|Hrc].
  - destruct (fold_flow _ _ _) as [st|e st]; intros Hkeys;
      (eexists; split; [done|]; split; [done|]; left);
      unfold sar_store; by simplify_map_eq.
  - intros Hkeys. eexists. split; [done|]. split; [done|]. right.
    eexists. split_and!; [done|by rewrite lookup_insert_eq|].
    apply append_nonempty.
Qed.

End series_facts.

Section perf_facts.
Context `{FO : FloatOps}.
Implicit Types h : gmap string pyval.

Lemma add_point_ok ts cpu mem disk acc :
  acc_ok acc → acc_ok (Windows.add_point ts cpu mem disk acc).
Proof.
  unfold acc_ok, Windows.add_point. simpl. intros Hacc.
  destruct cpu as [v|]; simpl.
  - assert (Windows.data_point_of ts (Some v) mem disk ≠ []) as Hne.
    { unfold Windows.data_point_of. destruct ts; simpl; done. }
    rewrite (bool_decide_eq_true_2 _ Hne). simpl.
    rewrite !length_app. simpl. lia.
  - rewrite app_nil_r. destruct (_ && _); [|done].
    rewrite length_app. simpl. lia.
Qed.

Lemma csv_row_ok c acc row :
  acc_ok acc → acc_ok (flow_state (Windows.csv_row c acc row)).
Proof.
  intros Hacc. unfold Windows.csv_row.
  destruct (Windows.max_index c); [|done].
  destruct (decide _); [done|]. simpl. by apply add_point_ok.
Qed.

Lemma csv_file_try_ok env acc file :
  acc_ok acc → acc_ok (flow_state (Windows.csv_file_try env acc file)).
Proof.
  intros Hacc. unfold Windows.csv_file_try.
  destruct (Windows.w_read_csv env file) as [rows|]; [|done].
  destruct rows as [|headers data]; [done|].
  destruct data as [|row data]; [done|].
  apply (fold_flow_inv _ acc_ok); [|done].
  intros. by apply csv_row_ok.
Qed.

(** The loop over the CSV files: the two lists stay paired, and only the
    key [file_errors] of the dictionary is written. *)
Lemma csv_loop_spec env files : ∀ acc h,
  acc_ok acc →
  acc_ok (foldl (Windows.csv_file_step env) (acc, h) files).1
  ∧ keeps h (foldl (Windows.csv_file_step env) (acc, h) files).2
  ∧ ∀ k, k ≠ "file_errors" →
         (foldl (Windows.csv_file_step env) (acc, h) files).2 !! k = h !! k.
Proof.
  induction files as [|file files IH]; intros acc h Hacc; simpl.
  { split_and!; [done|apply keeps_refl|done]. }
  pose proof (csv_file_try_ok env acc file Hacc) as Hok.
  unfold Windows.csv_file_step at 2 4 6. simpl.
  destruct (Windows.csv_file_try env acc file) as [acc'|e acc']; simpl in Hok.
  - by apply IH.
  - destruct (IH acc' (Windows.add_file_error (file +:+ ": " +:+ str_exn e) h) Hok)
      as (H1 & H2 & H3).
    split_and!; [done| |].
    + eapply keeps_trans; [|exact H2].
      unfold Windows.add_file_error. apply keeps_insert, keeps_refl.
    + intros k Hk. rewrite H3 by done.
      unfold Windows.add_file_error. by rewrite lookup_insert_ne.
Qed.

Lemma store_samples_keeps acc h : keeps h (Windows.store_samples acc h).
Proof. unfold Windows.store_samples. do 6 apply keeps_insert. apply keeps_refl. Qed.

Lemma store_samples_available acc h :
  acc_ok acc → Windows.cpu_values acc ≠ [] →
  available_with_samples (Windows.store_samples acc h).
Proof.
  intros Hacc Hne. unfold available_with_samples, Windows.store_samples.
  split; [by simplify_map_eq|]. eexists. split; [by simplify_map_eq|].
  intros Hnil. unfold acc_ok in Hacc. rewrite Hnil in Hacc. simpl in Hacc.
  destruct (Windows.cpu_values acc); [done|simpl in Hacc; lia].
Qed.

Lemma dict_rows_ok c rows : ∀ acc,
  acc_ok acc → acc_ok (foldl (Windows.dict_row_step c) acc rows).
Proof.
  induction rows as [|row rows IH]; intros acc Hacc; simpl; [done|].
  apply IH. unfold Windows.dict_row_step. by apply add_point_ok.
Qed.

(** The conversion branch leaves the dictionary as it was or stores a
    non-empty series in it. *)
Lemma blg_parse_try_shape env out h :
  flow_state (Windows.blg_parse_try env out h) = h
  ∨ ∃ acc, flow_state (Windows.blg_parse_try env out h)
           = Windows.store_samples acc h
           ∧ acc_ok acc ∧ Windows.cpu_values acc ≠ [].
Proof.
  unfold Windows.blg_parse_try.
  destruct (Windows.w_read_dict_csv env out) as [rows|]; [|by left].
  destruct rows as [|first_row rows].
  { destruct (Windows.w_remove env out); by left. }
  destruct (fold_flow _ _ _) as [c|e c]; [|by left].
  pose proof (dict_rows_ok c (first_row :: rows) (Windows.PerfAcc [] [])
                ltac:(unfold acc_ok; simpl; lia)) as Hok.
  destruct (Windows.cpu_values (foldl _ _ _)) eqn:E.
  { destruct (Windows.w_remove env out); by left. }
  right. eexists. split_and!; [|exact Hok|by rewrite E].
  by destruct (Windows.w_remove env out).
Qed.

End perf_facts.

Section perf_series.
Context `{FO : FloatOps}.
Implicit Types h : gmap string pyval.

Lemma perf_ok_insert h k v :
  k ≠ "available" → k ≠ "hourly_data" →
  perf_series_ok h → perf_series_ok (<[k:=v]> h).
Proof.
  intros Ha Hh [Hkeys Hs]. split.
  - eapply has_series_keys_keeps; [exact Hkeys|]. apply keeps_insert, keeps_refl.
  - unfold available_with_samples in *.
    rewrite !lookup_insert_ne by done. exact Hs.
Qed.

Lemma perf_ok_agree h h' :
  keeps h h' → (∀ k, k ≠ "file_errors" → h' !! k = h !! k) →
  perf_series_ok h → perf_series_ok h'.
Proof.
  intros Hk Hag [Hkeys Hs]. split.
  - by eapply has_series_keys_keeps.
  - unfold available_with_samples in *. by rewrite !Hag.
Qed.

Lemma perf_ok_store acc h :
  has_series_keys h → acc_ok acc → Windows.cpu_values acc ≠ [] →
  perf_series_ok (Windows.store_samples acc h).
Proof.
  intros Hkeys Hacc Hne. split.
  - eapply has_series_keys_keeps; [exact Hkeys|apply store_samples_keeps].
  - left. by apply store_samples_available.
Qed.

Lemma perf_ok_start env :
  perf_series_ok (<["date" := PStr (Windows.w_yesterday_ymd env)]> cpu_history_init).
Proof.
  split.
  - eapply has_series_keys_keeps; [apply init_has_series_keys|].
    apply keeps_insert, keeps_refl.
  - right. by rewrite lookup_insert_ne.
Qed.

Lemma csv_branch_ok env h : perf_series_ok h → perf_series_ok (Windows.csv_branch env h).
Proof.
  intros Hok. unfold Windows.csv_branch.
  destruct (csv_loop_spec env (Windows.csv_files env) (Windows.PerfAcc [] []) h)
    as (Hacc & Hkeep & Hagree).
  { unfold acc_ok. simpl. lia. }
  destruct (foldl _ _ _) as [acc h1]. simpl in *.
  pose proof (perf_ok_agree _ _ Hkeep Hagree Hok) as Hok1.
  destruct (Windows.cpu_values acc) eqn:E.
  - by do 3 (apply perf_ok_insert; [done|done|]).
  - apply perf_ok_store; [apply Hok1|done|by rewrite E].
Qed.

Lemma blg_branch_ok env logs h :
  perf_series_ok h → perf_series_ok (Windows.blg_branch env logs h).
Proof.
  intros Hok. unfold Windows.blg_branch.
  destruct logs as [|log rest]; [by apply perf_ok_insert|].
  destruct (Windows.w_relog env log (Windows.csv_output env)) as [rc out err|e];
    [|by apply perf_ok_insert].
  destruct (_ && _); [|by apply perf_ok_insert].
  assert (perf_series_ok
            (flow_state (Windows.blg_parse_try env (Windows.csv_output env) h)))
    as Hshape.
  { destruct (blg_parse_try_shape env (Windows.csv_output env) h)
      as [->|(acc & -> & Hacc & Hne)]; [done|].
    apply perf_ok_store; [apply Hok|done|done]. }
  destruct (Windows.blg_parse_try env (Windows.csv_output env) h); simpl in *;
    [done|by apply perf_ok_insert].
Qed.

(** The Performance Monitor collector returns, with the five keys; an
    available series has at least one sample. *)
Lemma perf_series env :
  ∃ h, Windows.get_previous_day_cpu_utilization env = Ok h ∧ perf_series_ok h.
Proof.
  eexists. split; [reflexivity|]. unfold Windows.perf_try.
  pose proof (perf_ok_start env) as H0.
  destruct (Windows.w_dir_exists env).
  - destruct (Windows.csv_files env) as [|f fs] eqn:Ecsv.
    + destruct (Windows.blg_files env) as [|l ls] eqn:Eblg.
      * by do 2 (apply perf_ok_insert; [done|done|]).
      * assert (perf_series_ok
                  (Windows.blg_branch env (l :: ls)
                     (<["file_type" := PStr "blg"]>
                        (<["log_files_found" := PList (PStr <$> l :: ls)]>
                           (<["date" := PStr (Windows.w_yesterday_ymd env)]>
                              cpu_history_init))))) as Hb.
        { apply blg_branch_ok. by do 2 (apply perf_ok_insert; [done|done|]). }
        destruct (Windows.is_available _); [done|by apply perf_ok_insert].
    + assert (perf_series_ok
                (Windows.csv_branch env
                   (<["file_type" := PStr "csv"]>
                      (<["log_files_found" := PList (PStr <$> f :: fs)]>
                         (<["date" := PStr (Windows.w_yesterday_ymd env)]>
                            cpu_history_init))))) as Hb.
      { apply csv_branch_ok. by do 2 (apply perf_ok_insert; [done|done|]). }
      destruct (Windows.is_available _); [done|by apply perf_ok_insert].
  - destruct (negb _); by do 2 (apply perf_ok_insert; [done|done|]).
Qed.

(** A failing [relog]: the series is unavailable, [error] stays null, and
    the diagnostic is stored under a key of its own, next to a note. *)
Lemma relog_fails_series env key diag :
  relog_fails env key diag →
  ∃ h, Windows.get_previous_day_cpu_utilization env = Ok h
       ∧ h !! "available" = Some (PBool false)
       ∧ h !! "error" = Some PNone
       ∧ h !! key = Some (PStr diag)
       ∧ is_Some (h !! "note").
Proof.
  intros (Hdir & Hcsv & log & rest & Hblg & Hrun).
  eexists. split; [reflexivity|]. unfold Windows.perf_try.
  rewrite Hdir, Hcsv, Hblg. unfold Windows.blg_branch.
  destruct Hrun as [(m & -> & -> & ->)|(rc & out & err & -> & Hrc & -> & ->)].
  - simpl. split_and!; [done|done|done|by eexists].
  - rewrite (bool_decide_eq_false_2 _ Hrc). simpl.
    split_and!; [done|done|done|by eexists].
Qed.

End perf_series.

(** ** The three claims on the utilization collectors *)

(** C9.  Both previous-day utilization collectors are total: for every
    outcome of the environment they return, without raising, a dictionary
    that holds the keys available, date, average, hourly_data and error. *)
Theorem cpu_collectors_total `{FO : FloatOps}
    (env : sar_env) (wenv : Windows.perf_env) :
  (∃ h, get_previous_day_cpu_utilization env = Ok h ∧ has_series_keys h)
  ∧ (∃ h, Windows.get_previous_day_cpu_utilization wenv = Ok h
          ∧ has_series_keys h).
Proof.
  split.
  - destruct (sar_series env) as (h & Hh & Hk & _). eauto.
  - destruct (perf_series wenv) as (h & Hh & Hk & _). eauto.
Qed.

Section series_state_facts.
Context `{FO : FloatOps}.
Implicit Types h : gmap string pyval.

(** The sar series is available exactly when sar exits with status 0. *)
Lemma sar_series_state env :
  ∃ h, get_previous_day_cpu_utilization env = Ok h
       ∧ if sar_exits_zero env
         then h !! "available" = Some (PBool true)
              ∧ ∃ l, h !! "hourly_data" = Some (PList l)
         else ∃ msg, unavailable_with msg h.
Proof.
  unfold get_previous_day_cpu_utilization, sar_try, sar_exits_zero.
  destruct (path_exists env (sa_file_path env)); simpl.
  2:{ eexists. split; [done|]. eexists.
      split_and!; [done|by rewrite lookup_insert_eq|apply append_nonempty]. }
  destruct (run_sar env (sa_file_path env)) as [rc out err|e].
  2:{ eexists. split; [done|]. eexists.
      split_and!; [done|by rewrite lookup_insert_eq|apply sar_handler_nonempty]. }
  destruct (decide (rc = 0)) as [Hrc|Hrc].
  - rewrite (bool_decide_eq_true_2 _ Hrc).
    destruct (fold_flow _ _ _) as [st|e st];
      (eexists; split; [done|]; unfold sar_store;
       split; [by simplify_map_eq|eexists; by simplify_map_eq]).
  - rewrite (bool_decide_eq_false_2 _ Hrc).
    eexists. split; [done|]. eexists.
    split_and!; [done|by rewrite lookup_insert_eq|apply append_nonempty].
Qed.

Lemma is_available_true h :
  h !! "available" = Some (PBool true) → Windows.is_available h = true.
Proof. unfold Windows.is_available. by intros ->. Qed.

Lemma is_available_false h :
  h !! "available" = Some (PBool false) → Windows.is_available h = false.
Proof. unfold Windows.is_available. by intros ->. Qed.

Lemma available_with_samples_insert h k v :
  k ≠ "available" → k ≠ "hourly_data" →
  available_with_samples h → available_with_samples (<[k:=v]> h).
Proof.
  intros Hk1 Hk2 (Ha & l & Hl & Hne). split.
  - by rewrite lookup_insert_ne.
  - exists l. by rewrite lookup_insert_ne.
Qed.

(** The Performance Monitor series is available with samples, or
    unavailable with an error string, or, in the conversion branch only,
    unavailable with a null error, a note and the diagnostic of the
    conversion. *)
Lemma perf_series_state env :
  ∃ h, Windows.get_previous_day_cpu_utilization env = Ok h ∧ perf_state env h.
Proof.
  eexists. split; [reflexivity|]. unfold Windows.perf_try, perf_state.
  destruct (Windows.w_dir_exists env) eqn:Edir.
  2:{ right; left. destruct (negb _); eexists;
        (split_and!; [done|by simplify_map_eq|]);
        [done|apply append_nonempty]. }
  destruct (Windows.csv_files env) as [|f fs] eqn:Ecsv.
  - destruct (Windows.blg_files env) as [|l ls] eqn:Eblg.
    { right; left. eexists.
      split_and!; [done|by simplify_map_eq|apply append_nonempty]. }
    assert (blg_only env) as Hblg.
    { split_and!; [done|done|by rewrite Eblg]. }
    set (h1 := <["file_type" := PStr "blg"]> _).
    assert (h1 !! "available" = Some (PBool false)) as Hav1 by done.
    unfold Windows.blg_branch.
    destruct (Windows.w_relog env l (Windows.csv_output env))
      as [rc out err|e] eqn:Erun.
    + destruct (bool_decide (rc = 0) && Windows.w_output_exists env _) eqn:Eok.
      * destruct (blg_parse_try_shape env (Windows.csv_output env) h1)
          as [Hsame|(acc & Hst & Hok & Hne)].
        -- destruct (Windows.blg_parse_try env _ h1) as [h'|e h'];
             simpl in Hsame; subst h'.
           ++ rewrite (is_available_false _ Hav1).
              right; right. split; [done|]. split; [by split_and!|].
              exists l, ls. split; [done|]. rewrite Erun, Eok. right.
              by repeat constructor.
           ++ rewrite is_available_false by done.
              right; right. split; [done|]. split; [by split_and!|].
              exists l, ls. split; [done|]. rewrite Erun, Eok. left.
              by eexists.
        -- pose proof (store_samples_available acc h1 Hok Hne) as Hs.
           destruct (Windows.blg_parse_try env _ h1) as [h'|e h'];
             simpl in Hst; subst h'.
           ++ rewrite (is_available_true _ (proj1 Hs)). by left.
           ++ assert (available_with_samples
                        (<["parse_error" := PStr (str_exn e)]>
                           (Windows.store_samples acc h1))) as Hs'.
              { by apply available_with_samples_insert. }
              rewrite (is_available_true _ (proj1 Hs')). by left.
      * rewrite is_available_false by done.
        right; right. split; [done|]. split; [by split_and!|].
        exists l, ls. split; [done|]. by rewrite Erun, Eok.
    + rewrite is_available_false by done.
      right; right. split; [done|]. split; [by split_and!|].
      exists l, ls. split; [done|]. by rewrite Erun.
  - set (h1 := <["file_type" := PStr "csv"]> _).
    unfold Windows.csv_branch. rewrite Ecsv.
    pose proof (csv_loop_spec env (f :: fs) (Windows.PerfAcc [] []) h1
                  ltac:(unfold acc_ok; simpl; lia)) as (Hok & _ & Hagree).
    destruct (foldl (Windows.csv_file_step env) _ (f :: fs)) as [acc hx].
    simpl in Hok, Hagree.
    destruct (Windows.cpu_values acc) as [|v vs] eqn:Ecpu.
    + assert (hx !! "available" = Some (PBool false)) as Hav.
      { by rewrite Hagree. }
      rewrite is_available_false
        by (by rewrite !lookup_insert_ne by done).
      right; left. eexists. split_and!.
      * by rewrite !lookup_insert_ne by done.
      * rewrite lookup_insert_ne by done. rewrite lookup_insert_ne by done.
        by rewrite lookup_insert_ne, lookup_insert_eq by done.
      * done.
    + pose proof (store_samples_available acc hx Hok
                    ltac:(by rewrite Ecpu)) as Hs.
      rewrite (is_available_true _ (proj1 Hs)). by left.
Qed.

End series_state_facts.

(** C3 (as amended).  The sar collector returns a series that is available
    exactly when the sysstat file exists and sar exits with status 0, with
    any number of samples, zero included, and that is otherwise unavailable
    with a non-empty error string.  The Performance Monitor collector
    returns a series that is available with a non-empty sample sequence, or
    unavailable with a non-empty error string, or, only when the logs found
    are binary logs to convert, unavailable with a null error: no sample is
    stored then, the note on the found logs is set, and the diagnostic is
    under [extraction_error], [relog_error] or [parse_error], or only the
    note is set. *)
Theorem series_states `{FO : FloatOps}
    (env : sar_env) (wenv : Windows.perf_env) :
  (∃ h, get_previous_day_cpu_utilization env = Ok h
        ∧ if sar_exits_zero env
          then h !! "available" = Some (PBool true)
               ∧ ∃ l, h !! "hourly_data" = Some (PList l)
          else ∃ msg, unavailable_with msg h)
  ∧ (∃ h, Windows.get_previous_day_cpu_utilization wenv = Ok h
          ∧ perf_state wenv h).
Proof. split; [apply sar_series_state|apply perf_series_state]. Qed.

(** C3 as stated fails on both platforms: when sar exits with status 0 and
    prints no row the series is available with zero samples, and when relog
    exits with a non-zero status the series is unavailable with a null
    error. *)
Lemma series_ambiguous :
  (∃ h, get_previous_day_cpu_utilization sar_silent_env = Ok h
        ∧ h !! "available" = Some (PBool true)
        ∧ h !! "hourly_data" = Some (PList [])
        ∧ ¬ series_unambiguous h)
  ∧ (∃ h, Windows.get_previous_day_cpu_utilization relog_error_env = Ok h
          ∧ h !! "available" = Some (PBool false)
          ∧ h !! "error" = Some PNone
          ∧ ¬ series_unambiguous h).
Proof.
  split.
  - eexists. split; [reflexivity|]. split; [reflexivity|].
    split; [reflexivity|].
    intros [(_ & l & Hl & Hne)|(msg & Ha & _)].
    + vm_compute in Hl. injection Hl as <-. done.
    + vm_compute in Ha. discriminate Ha.
  - eexists. split; [reflexivity|]. split; [reflexivity|].
    split; [reflexivity|].
    intros [(Ha & _)|(msg & _ & He & _)].
    + vm_compute in Ha. discriminate Ha.
    + vm_compute in He. discriminate He.
Qed.

Lemma collect_all_returns `{FO : FloatOps} {O} (c : collaborators O) env ps conns h :
  all_return c → wf_snapshot conns →
  get_previous_day_cpu_utilization env = Ok h →
  ∃ inv, collect_all c env ps (Some conns) = Ok inv
         ∧ inv.*1 = inventory_keys
         ∧ ("cpu_history_previous_day", CpuHistory h) ∈ inv.
Proof.
  intros (H1 & H2 & H3 & H4 & H5 & H6 & H7 & H8 & H9 & H10 & H11 & H12 & H13)
         Hwf Hh.
  destruct (correlate_facts ps conns Hwf) as (self & ni & pd & Hgni & Hpd & _).
  unfold collect_all. rewrite Hh, Hgni. simpl. rewrite Hpd.
  destruct (get_system_info c); [|done].
  destruct (get_os_info c); [|done].
  destruct (get_cpu_info c); [|done].
  destruct (check_and_install_sysstat c); [|done].
  destruct (get_memory_info c); [|done].
  destruct (get_disk_info c); [|done].
  destruct (get_service_dependencies c); [|done].
  destruct (get_docker_info c); [|done].
  destruct (get_firewall_info c); [|done].
  destruct (get_users c); [|done].
  destruct (get_installed_packages c); [|done].
  destruct (get_running_services c); [|done].
  destruct (get_running_processes c); [|done].
  simpl. eexists. split; [done|]. split; [done|].
  do 4 apply list_elem_of_further. apply list_elem_of_here.
Qed.

Lemma win_collect_all_returns `{FO : FloatOps} {O}
    (c : WindowsCollect.collaborators O) env h :
  win_all_return c →
  Windows.get_previous_day_cpu_utilization env = Ok h →
  ∃ inv, WindowsCollect.collect_all c env = Ok inv
         ∧ inv.*1 = WindowsCollect.inventory_keys
         ∧ ("cpu_history_previous_day", CpuHistory h) ∈ inv.
Proof.
  intros (H1 & H2 & H3 & H4 & H5 & H6 & H7 & H8 & H9 & H10 & H11 & H12 & H13
          & H14 & H15 & H16) Hh.
  unfold WindowsCollect.collect_all. rewrite Hh.
  destruct (WindowsCollect.get_system_info c); [|done].
  destruct (WindowsCollect.get_os_info c); [|done].
  destruct (WindowsCollect.get_cpu_info c); [|done].
  destruct (WindowsCollect.get_memory_info c); [|done].
  destruct (WindowsCollect.get_disk_info c); [|done].
  destruct (WindowsCollect.get_network_info c); [|done].
  destruct (WindowsCollect.get_service_dependencies c); [|done].
  destruct (WindowsCollect.get_application_communication c); [|done].
  destruct (WindowsCollect.get_port_dependencies c); [|done].
  destruct (WindowsCollect.get_docker_info c); [|done].
  destruct (WindowsCollect.get_firewall_info c); [|done].
  destruct (WindowsCollect.get_users c); [|done].
  destruct (WindowsCollect.get_installed_packages c); [|done].
  destruct (WindowsCollect.get_running_services c); [|done].
  destruct (WindowsCollect.get_running_processes c); [|done].
  destruct (WindowsCollect.scheduled_task_info c); [|done].
  simpl. eexists. split; [done|]. split; [done|].
  do 4 apply list_elem_of_further. apply list_elem_of_here.
Qed.

Lemma sar_fails_series `{FO : FloatOps} env diag :
  sar_fails env diag →
  ∃ h, get_previous_day_cpu_utilization env = Ok h ∧ unavailable_with diag h.
Proof.
  intros [Hex Hrun]. unfold get_previous_day_cpu_utilization, sar_try.
  rewrite Hex. simpl.
  destruct Hrun as [(m & -> & ->)|(rc & out & err & -> & Hrc & ->)].
  - eexists. split; [done|]. by split_and!.
  - rewrite decide_False by done.
    eexists. split; [done|]. split_and!; [done|done|apply append_nonempty].
Qed.

(** C7 (as amended).  When the conversion helper times out or exits with a
    non-zero status, no exception reaches the caller and [collect_all]
    still returns the inventory with all its top-level keys, the
    cpu-history section among them.  On Linux the section has
    available=false and a non-empty error carrying the diagnostic.  On
    Windows it has available=false as well, but [error] stays null: the
    diagnostic is stored under [extraction_error] (timeout) or
    [relog_error] (non-zero exit), next to a note. *)
Theorem helper_failure_is_soft `{FO : FloatOps} {O}
    (env : sar_env) (diag : string) (c : collaborators O)
    (ps : process_table) (conns : list sconn)
    (wenv : Windows.perf_env) (key wdiag : string)
    (wc : WindowsCollect.collaborators O) :
  sar_fails env diag → all_return c → wf_snapshot conns →
  relog_fails wenv key wdiag → win_all_return wc →
  (∃ h inv, get_previous_day_cpu_utilization env = Ok h
            ∧ unavailable_with diag h
            ∧ collect_all c env ps (Some conns) = Ok inv
            ∧ inv.*1 = inventory_keys
            ∧ ("cpu_history_previous_day", CpuHistory h) ∈ inv)
  ∧ (∃ h inv, Windows.get_previous_day_cpu_utilization wenv = Ok h
              ∧ h !! "available" = Some (PBool false)
              ∧ h !! "error" = Some PNone
              ∧ h !! key = Some (PStr wdiag)
              ∧ is_Some (h !! "note")
              ∧ WindowsCollect.collect_all wc wenv = Ok inv
              ∧ inv.*1 = WindowsCollect.inventory_keys
              ∧ ("cpu_history_previous_day", CpuHistory h) ∈ inv).
Proof.
  intros Hsar Hc Hwf Hrelog Hwc. split.
  - destruct (sar_fails_series env diag Hsar) as (h & Hh & Hu).
    destruct (collect_all_returns c env ps conns h Hc Hwf Hh)
      as (inv & Hinv & Hkeys & Hin).
    by exists h, inv.
  - destruct (relog_fails_series wenv key wdiag Hrelog)
      as (h & Hh & Ha & He & Hk & Hn).
    destruct (win_collect_all_returns wc wenv h Hwc Hh)
      as (inv & Hinv & Hkeys & Hin).
    by exists h, inv.
Qed.

Lemma helper_failure_is_soft_witness :
  (∃ h inv, get_previous_day_cpu_utilization sar_timeout_env = Ok h
            ∧ unavailable_with "sar command timed out" h
            ∧ collect_all quiet_collaborators sar_timeout_env app_table
                          (Some app_snapshot) = Ok inv
            ∧ inv.*1 = inventory_keys
            ∧ ("cpu_history_previous_day", CpuHistory h) ∈ inv)
  ∧ (∃ h inv, Windows.get_previous_day_cpu_utilization relog_timeout_env = Ok h
              ∧ h !! "available" = Some (PBool false)
              ∧ h !! "error" = Some PNone
              ∧ h !! "extraction_error"
                = Some (PStr "Command 'relog' timed out after 60 seconds")
              ∧ is_Some (h !! "note")
              ∧ WindowsCollect.collect_all win_quiet_collaborators
                                           relog_timeout_env = Ok inv
              ∧ inv.*1 = WindowsCollect.inventory_keys
              ∧ ("cpu_history_previous_day", CpuHistory h) ∈ inv).
Proof.
  apply (helper_failure_is_soft
           sar_timeout_env "sar command timed out" quiet_collaborators
           app_table app_snapshot
           relog_timeout_env "extraction_error"
           "Command 'relog' timed out after 60 seconds"
           win_quiet_collaborators).
  - split; [reflexivity|]. left. eexists. split; reflexivity.
  - unfold all_return. simpl. tauto.
  - repeat constructor; try (intros _; simpl; eauto);
      intros a [= <-]; reflexivity.
  - split; [reflexivity|]. split; [reflexivity|].
    eexists _, _. split; [reflexivity|]. left. eexists.
    split; [reflexivity|]. split; reflexivity.
  - unfold win_all_return. simpl. tauto.
Defined.

(** C7 as stated fails on Windows: after a timeout of relog the section is
    unavailable but its [error] is null; the text of the exception is
    under [extraction_error]. *)
Lemma relog_timeout_error_null :
  ∃ h, Windows.get_previous_day_cpu_utilization relog_timeout_env = Ok h
       ∧ h !! "available" = Some (PBool false)
       ∧ h !! "error" = Some PNone
       ∧ h !! "extraction_error"
         = Some (PStr "Command 'relog' timed out after 60 seconds").
Proof. eexists. split_and!; reflexivity. Qed.

(** On Linux the same failures populate [error]. *)
Example sar_timeout_error :
  ∃ h, get_previous_day_cpu_utilization sar_timeout_env = Ok h
       ∧ h !! "available" = Some (PBool false)
       ∧ h !! "error" = Some (PStr "sar command timed out").
Proof. eexists. split_and!; reflexivity. Qed.

Example sar_nonzero_error :
  ∃ h, get_previous_day_cpu_utilization sar_error_env = Ok h
       ∧ h !! "available" = Some (PBool false)
       ∧ h !! "error"
         = Some (PStr "sar command failed: Cannot open /var/log/sysstat/sa02").
Proof. eexists. split_and!; reflexivity. Qed.

(** On the addresses psutil reports, the test of [get_port_dependencies]
    is the loopback test of the specification: an IPv4 address is local
    exactly when its first octet is 127, and "::1" is local. *)
Lemma octet_prefix_127 (a : N) (rest : string) :
  (a < 256)%N →
  deps_is_local (pretty a +:+ "." +:+ rest) = bool_decide (a = 127%N)
  ∧ comm_is_local (pretty a +:+ "." +:+ rest) = bool_decide (a = 127%N).
Proof.
  intros Ha. assert (∃ n, n ∈ seq 0 256 ∧ a = N.of_nat n) as (n & Hin & ->).
  { exists (N.to_nat a). split; [apply elem_of_seq|]; lia. }
  clear Ha. cbv [seq] in Hin.
  repeat (apply elem_of_cons in Hin as [->|Hin];
          [split;
           first [reflexivity
                 |by destruct rest
                 |rewrite comm_is_local_127 by (by destruct rest);
                  reflexivity]|]).
  by apply elem_of_nil in Hin.
Qed.

Lemma deps_is_local_ipv4 a b c d :
  (a < 256)%N → deps_is_local (dotted_quad a b c d) = bool_decide (a = 127%N).
Proof. intros Ha. by apply octet_prefix_127. Qed.

Lemma comm_is_local_ipv4 a b c d :
  (a < 256)%N → comm_is_local (dotted_quad a b c d) = bool_decide (a = 127%N).
Proof. intros Ha. by apply octet_prefix_127. Qed.

Example deps_is_local_ipv6_loopback : deps_is_local "::1" = true.
Proof. reflexivity. Qed.

Example deps_is_local_ipv6_other : deps_is_local "fe80::1" = false.
Proof. reflexivity. Qed.

(** ** The collectors on concrete logs *)

Example sar_24h_series :
  (λ h, (h !! "available", h !! "hourly_data", h !! "average", h !! "error"))
    <$> get_previous_day_cpu_utilization
          (sar_env_with (Completed 0 sar_24h_output ""))
  = Ok (Some (PBool true),
        Some (PList
          [ PDict [ ("time", PStr "00:10:01"); ("cpu", PStr "all");
                    ("user", PFloat (FLit "1.20")); ("nice", PFloat (FLit "0.00"));
                    ("system", PFloat (FLit "0.50"));
                    ("iowait", PFloat (FLit "0.10"));
                    ("steal", PFloat (FLit "0.00"));
                    ("idle", PFloat (FLit "98.20")) ];
            PDict [ ("time", PStr "00:20:01"); ("cpu", PStr "all");
                    ("user", PFloat (FLit "2.00")); ("nice", PFloat (FLit "0.00"));
                    ("system", PFloat (FLit "0.70"));
                    ("iowait", PFloat (FLit "0.10"));
                    ("steal", PFloat (FLit "0.00"));
                    ("idle", PFloat (FLit "97.20")) ] ]),
        Some (PDict [ ("user", PFloat (FLit "1.60")); ("nice", PFloat (FLit "0.00"));
                      ("system", PFloat (FLit "0.60"));
                      ("iowait", PFloat (FLit "0.10"));
                      ("steal", PFloat (FLit "0.00"));
                      ("idle", PFloat (FLit "97.70")) ]),
        Some PNone).
Proof. vm_compute. reflexivity. Qed.

(** With AM/PM in the second column every data row fails the float
    conversion and is skipped: the series is available with no sample. *)
Example sar_12h_series :
  (λ h, (h !! "available", h !! "hourly_data", h !! "error"))
    <$> get_previous_day_cpu_utilization
          (sar_env_with (Completed 0 sar_12h_output ""))
  = Ok (Some (PBool true), Some (PList []), Some PNone).
Proof. vm_compute. reflexivity. Qed.

(** A malformed Average row is not inside the inner [try]: the outer
    handler sets [error] while [available] is already true. *)
Example sar_bad_average_series :
  (λ h, (h !! "available", h !! "error"))
    <$> get_previous_day_cpu_utilization
          (sar_env_with
             (Completed 0 "Average: all x 0.00 0.60 0.10 0.00 97.70" ""))
  = Ok (Some (PBool true),
        Some (PStr "Error collecting previous day CPU data: could not convert string to float: x")).
Proof. vm_compute. reflexivity. Qed.

(** A CSV log with three well-formed rows, one of them without a CPU value,
    and one short row: the short row is skipped, the others are kept. *)
Example csv_series :
  (λ h, (h !! "available", h !! "data_points", h !! "total_samples",
         h !! "error"))
    <$> Windows.get_previous_day_cpu_utilization
          (csv_env
             [ [ "(PDH-CSV 4.0) (UTC)(0)";
                 "\\HOST\Processor(_Total)\% Processor Time";
                 "\\HOST\Memory\Available MBytes" ];
               [ "11/02/2026 00:00:01.000"; "12.5"; "2048" ];
               [ "11/02/2026 00:05:01.000"; " "; "2040" ];
               [ "bad" ];
               [ "11/02/2026 00:10:01.000"; "14.5"; "2030" ] ])
  = Ok (Some (PBool true), Some (PInt 2), Some (PInt 3), Some PNone).
Proof. vm_compute. reflexivity. Qed.

(** The address forms of the specification, as [get_port_dependencies]
    parses them. *)
Example parse_bracketed_ipv6 : deps_parse_remote "[::1]:5432" = Ok ("::1", 5432).
Proof. vm_compute. reflexivity. Qed.

Example parse_ipv4 : deps_parse_remote "10.0.0.1:443" = Ok ("10.0.0.1", 443).
Proof. vm_compute. reflexivity. Qed.

Example parse_bare_ipv6 : deps_parse_remote "::1:5432" = Ok ("::1", 5432).
Proof. vm_compute. reflexivity. Qed.

(** ** Further properties of the correlation stages *)


(** X2.  The loopback test of [get_port_dependencies] on the addresses
    psutil reports: an IPv4 address is local exactly when its first octet
    is 127, and the IPv6 loopback address is local. *)
Theorem port_dependencies_loopback_test a b c d :
  (a < 256)%N →
  deps_is_local (dotted_quad a b c d) = bool_decide (a = 127%N)
  ∧ deps_is_local "::1" = true.
Proof. intros Ha. split; [by apply deps_is_local_ipv4|reflexivity]. Qed.

Lemma port_dependencies_loopback_test_witness :
  deps_is_local (dotted_quad 127 0 0 53) = bool_decide (127%N = 127%N)
  ∧ deps_is_local "::1" = true.
Proof. apply (port_dependencies_loopback_test 127 0 0 53). lia. Defined.

(** X3.  On a well-formed snapshot the three correlation stages raise
    nothing, and every edge of the dependency graph targets a port that has
    a binding in the port index and carries the service name of that
    binding. *)
Theorem dependency_edges_target_listeners ps conns :
  wf_snapshot conns →
  ∃ r, correlate ps (Some conns) = Ok r
       ∧ ∀ e, e ∈ dependency_graph (port_dependencies r) →
              ∃ b, first_listener (de_server_port e) conns ≫= binding_of ps
                   = Some b
                   ∧ de_server_service e = ps_service b.
Proof.
  intros Hwf.
  destruct (correlate_facts ps conns Hwf)
    as (self & ni & pd & _ & _ & Hcor & Hgraph & _).
  eexists. split; [exact Hcor|]. simpl. intros e He.
  rewrite Hgraph in He. apply list_elem_of_omap in He as (c & _ & Hc).
  unfold fact_edge in Hc.
  destruct (decide (status c = "ESTABLISHED")); [|done].
  destruct (raddr c) as [a|]; simplify_eq/=.
  destruct (pid_truthy (pid c)) as [p|]; simplify_eq/=.
  destruct (lookup_all ps p) as [r|]; simplify_eq/=.
  destruct (deps_is_local (ip a)); [|done].
  destruct (first_listener (port a) conns ≫= binding_of ps) as [b|] eqn:Eb;
    simplify_eq/=.
  eauto.
Qed.

Lemma dependency_edges_target_listeners_witness :
  ∃ r, correlate app_table (Some app_snapshot) = Ok r
       ∧ ∀ e, e ∈ dependency_graph (port_dependencies r) →
              ∃ b, first_listener (de_server_port e) app_snapshot
                     ≫= binding_of app_table = Some b
                   ∧ de_server_service e = ps_service b.
Proof.
  apply (dependency_edges_target_listeners app_table app_snapshot).
  repeat constructor; try (intros _; simpl; eauto);
    intros a [= <-]; reflexivity.
Defined.

(** X4.  The address parsing of [get_port_dependencies] recovers the
    endpoint from the text [get_network_info] stores for it, for IPv4 and
    IPv6 addresses alike. *)
Theorem remote_address_round_trip ip n :
  PyStr.startswith "[" ip = false →
  fmt_addr (Some (Addr ip n)) = Some (ip +:+ ":" +:+ PyStr.str_int n)
  ∧ deps_parse_remote (ip +:+ ":" +:+ PyStr.str_int n) = Ok (ip, n).
Proof. intros Hb. split; [done|by apply deps_parse_remote_fmt]. Qed.

Lemma remote_address_round_trip_witness :
  fmt_addr (Some (Addr "fe80::1" 443)) = Some ("fe80::1" +:+ ":" +:+ PyStr.str_int 443)
  ∧ deps_parse_remote ("fe80::1" +:+ ":" +:+ PyStr.str_int 443) = Ok ("fe80::1", 443).
Proof. apply (remote_address_round_trip "fe80::1" 443). reflexivity. Defined.

(** * Further properties *)

(** ** The network collectors of [WindowsServerInventory] *)

Section odict_alter.
Context {K V : Type} `{EqDecision K}.
Implicit Types (k : K) (v : V) (d : list (K * V)).

Lemma oget_oalter (f : V → V) k k' d :
  oget k (oalter f k' d) = if decide (k = k') then f <$> oget k d else oget k d.
Proof.
  unfold oalter. destruct (oget k' d) as [v|] eqn:E.
  - rewrite oget_oset. destruct (decide (k = k')) as [->|]; [|done].
    by rewrite E.
  - destruct (decide (k = k')) as [->|]; [|done]. by rewrite E.
Qed.

Lemma oalter_keys (f : V → V) k d : (oalter f k d).*1 = d.*1.
Proof.
  unfold oalter. destruct (oget k d) as [v|] eqn:E; [|done].
  rewrite oset_keys. unfold omem. by rewrite E.
Qed.

End odict_alter.

Lemma elem_of_add_new {A} `{EqDecision A} (x y : A) l :
  y ∈ WinNet.add_new x l ↔ y ∈ l ∨ y = x.
Proof.
  unfold WinNet.add_new. case_bool_decide as Hx.
  - split; [auto|]. intros [?| ->]; done.
  - rewrite elem_of_app, list_elem_of_singleton. done.
Qed.

Lemma NoDup_add_new {A} `{EqDecision A} (x : A) l :
  NoDup l → NoDup (WinNet.add_new x l).
Proof.
  unfold WinNet.add_new. case_bool_decide as Hx; [done|].
  intros Hl. apply NoDup_app. split_and!; [done| |apply NoDup_singleton].
  by intros y Hy ->%list_elem_of_singleton.
Qed.

Lemma add_new_nonempty {A} `{EqDecision A} (x : A) l : WinNet.add_new x l ≠ [].
Proof.
  unfold WinNet.add_new. case_bool_decide as Hx.
  - intros ->. by apply elem_of_nil in Hx.
  - by destruct l.
Qed.

(** *** One iteration of [get_port_dependencies] *)

Lemma win_listen_step_get ps st c q p :
  oget p (WinNet.listening_services (WinNet.listen_step ps st c q))
  = if decide (p = q) then
      Some (let e := default (WinNet.ListeningService q (identify_service_by_port q) [] [])
                             (oget q (WinNet.listening_services st)) in
            match pid_truthy (pid c) ≫= WinNet.lookup_listener ps with
            | Some info =>
                WinNet.ListeningService (WinNet.ls_port e) (WinNet.well_known_service e)
                  (WinNet.add_new info (WinNet.processes e)) (WinNet.clients e)
            | None => e
            end)
    else oget p (WinNet.listening_services st).
Proof.
  unfold WinNet.listen_step.
  set (ls := if omem q _ then _ else _).
  assert (Hls : oget p ls
    = if decide (p = q)
      then Some (default (WinNet.ListeningService q (identify_service_by_port q) [] [])
                         (oget q (WinNet.listening_services st)))
      else oget p (WinNet.listening_services st)).
  { unfold ls, omem. destruct (oget q (WinNet.listening_services st)) as [e|] eqn:E.
    - destruct (decide (p = q)) as [->|]; [by rewrite E|done].
    - rewrite oget_oset. by destruct (decide (p = q)). }
  destruct (pid_truthy (pid c) ≫= WinNet.lookup_listener ps) as [info|]; simpl.
  - rewrite oget_oalter, Hls. by destruct (decide (p = q)).
  - rewrite Hls. by destruct (decide (p = q)).
Qed.

Lemma win_listen_step_p2p ps st c q p :
  oget p (WinNet.port_to_process (WinNet.listen_step ps st c q))
  = match pid_truthy (pid c) ≫= WinNet.lookup_listener ps with
    | Some info =>
        if decide (p = q)
        then Some (WinNet.add_new info
                     (default [] (oget q (WinNet.port_to_process st))))
        else oget p (WinNet.port_to_process st)
    | None => oget p (WinNet.port_to_process st)
    end.
Proof.
  unfold WinNet.listen_step.
  destruct (pid_truthy (pid c) ≫= WinNet.lookup_listener ps) as [info|]; simpl;
    [|done].
  by rewrite oget_oset.
Qed.

Lemma win_client_step_get ps st c a ra p :
  oget p (WinNet.listening_services (WinNet.client_step ps st c a ra))
  = match oget (port ra) (WinNet.listening_services st) with
    | Some e =>
        if decide (p = port ra) then
          Some (WinNet.ListeningService (WinNet.ls_port e) (WinNet.well_known_service e)
                  (WinNet.processes e)
                  (WinNet.add_new
                     (WinNet.ClientInfo (ip a +:+ ":" +:+ PyStr.str_int (port a)) (pid c)
                        (p ← pid_truthy (pid c); pr ← ps p; WinNet.p_name pr))
                     (WinNet.clients e)))
        else oget p (WinNet.listening_services st)
    | None => oget p (WinNet.listening_services st)
    end.
Proof.
  unfold WinNet.client_step.
  destruct (oget (port ra) (WinNet.listening_services st)) as [e|] eqn:E; [|done].
  simpl. by rewrite oget_oset.
Qed.

Lemma win_client_step_p2p ps st c a ra :
  WinNet.port_to_process (WinNet.client_step ps st c a ra)
  = WinNet.port_to_process st.
Proof.
  unfold WinNet.client_step.
  by destruct (oget (port ra) (WinNet.listening_services st)).
Qed.

(** A port has an entry once a LISTEN fact for it was met. *)
Lemma win_deps_step_keys ps st c p :
  is_Some (oget p (WinNet.listening_services (WinNet.deps_step ps st c)))
  ↔ is_Some (oget p (WinNet.listening_services st)) ∨ listens_on p c = true.
Proof.
  unfold WinNet.deps_step. rewrite listens_on_spec.
  destruct (laddr c) as [a|] eqn:Ha; simpl.
  2:{ split; [auto|]. intros [?|[_ ?]]; done. }
  destruct (decide (status c = "LISTEN")) as [Hs|Hs].
  - rewrite win_listen_step_get. destruct (decide (p = port a)) as [->|Hne].
    + split; [auto|]. intros _. eauto.
    + split; [auto|]. intros [?|[_ [= ?]]]; [done|]. by destruct Hne.
  - assert (Hno : ¬ (status c = "LISTEN" ∧ Some (port a) = Some p)) by tauto.
    destruct (decide (status c = "ESTABLISHED")) as [He|He]; [|tauto].
    destruct (raddr c) as [ra|]; [|tauto].
    rewrite win_client_step_get.
    destruct (oget (port ra) (WinNet.listening_services st)) as [e|] eqn:E; [|tauto].
    destruct (decide (p = port ra)) as [->|]; [|tauto].
    rewrite E. split; [eauto|]. intros _. eauto.
Qed.

(** What one iteration does to the client list of port [p]. *)
Lemma win_deps_step_clients ps st c p ci :
  ci ∈ win_clients_at p (WinNet.deps_step ps st c)
  ↔ ci ∈ win_clients_at p st
    ∨ (win_client_of ps c = Some (p, ci)
       ∧ is_Some (oget p (WinNet.listening_services st))).
Proof.
  unfold win_clients_at, win_client_of, WinNet.deps_step.
  destruct (laddr c) as [a|] eqn:Ha; simpl.
  2:{ destruct (decide (status c = "ESTABLISHED")); split; auto;
        intros [?|[? _]]; done. }
  destruct (decide (status c = "LISTEN")) as [Hs|Hs].
  - rewrite decide_False by (rewrite Hs; done).
    rewrite win_listen_step_get.
    assert (Hsame : WinNet.clients <$>
      (if decide (p = port a) then
        Some (let e := default (WinNet.ListeningService (port a)
                                  (identify_service_by_port (port a)) [] [])
                               (oget (port a) (WinNet.listening_services st)) in
              match pid_truthy (pid c) ≫= WinNet.lookup_listener ps with
              | Some info =>
                  WinNet.ListeningService (WinNet.ls_port e) (WinNet.well_known_service e)
                    (WinNet.add_new info (WinNet.processes e)) (WinNet.clients e)
              | None => e
              end)
       else oget p (WinNet.listening_services st))
      = Some (default [] (WinNet.clients <$> oget p (WinNet.listening_services st)))
      ∨ (oget p (WinNet.listening_services st) = None ∧ p ≠ port a)).
    { destruct (decide (p = port a)) as [->|Hne].
      - left. simpl.
        destruct (oget (port a) (WinNet.listening_services st)) as [e|]; simpl;
          by destruct (pid_truthy (pid c) ≫= WinNet.lookup_listener ps).
      - destruct (oget p (WinNet.listening_services st)) as [e|]; [by left|by right]. }
    destruct Hsame as [->|[HN Hne]].
    + simpl. split; [auto|]. intros [?|[? _]]; done.
    + rewrite decide_False by done. rewrite HN. simpl.
      split; [auto|]. intros [?|[? _]]; done.
  - destruct (decide (status c = "ESTABLISHED")) as [He|He].
    2:{ split; [auto|]. intros [?|[? _]]; done. }
    destruct (raddr c) as [ra|] eqn:Hra; simpl.
    2:{ split; [auto|]. intros [?|[? _]]; done. }
    rewrite win_client_step_get.
    destruct (oget (port ra) (WinNet.listening_services st)) as [e|] eqn:E.
    + destruct (decide (p = port ra)) as [->|Hne].
      * rewrite E. simpl. rewrite elem_of_add_new.
        split.
        -- intros [?| ->]; [by left|]. right. split; [done|eauto].
        -- intros [?|[[= <-] _]]; [by left|by right].
      * split; [auto|]. intros [?|[[= ? ?] _]]; [done|]. by destruct Hne.
    + split; [auto|]. intros [?|[[= <- <-] [? HS]]]; [done|].
      rewrite E in HS. done.
Qed.

Lemma win_deps_step_clients_nodup ps st c :
  (∀ p e, oget p (WinNet.listening_services st) = Some e → NoDup (WinNet.clients e)) →
  ∀ p e, oget p (WinNet.listening_services (WinNet.deps_step ps st c)) = Some e →
         NoDup (WinNet.clients e).
Proof.
  intros Hst p e. unfold WinNet.deps_step.
  destruct (laddr c) as [a|]; [|apply Hst].
  destruct (decide (status c = "LISTEN")) as [Hs|Hs].
  - rewrite win_listen_step_get. destruct (decide (p = port a)) as [->|]; [|apply Hst].
    intros [= <-].
    destruct (oget (port a) (WinNet.listening_services st)) as [e0|] eqn:E; simpl.
    + apply Hst in E.
      by destruct (pid_truthy (pid c) ≫= WinNet.lookup_listener ps).
    + destruct (pid_truthy (pid c) ≫= WinNet.lookup_listener ps); apply NoDup_nil_2.
  - destruct (decide (status c = "ESTABLISHED")) as [He|He]; [|apply Hst].
    destruct (raddr c) as [ra|]; [|apply Hst].
    rewrite win_client_step_get.
    destruct (oget (port ra) (WinNet.listening_services st)) as [e0|] eqn:E;
      [|apply Hst].
    destruct (decide (p = port ra)) as [->|]; [|apply Hst].
    intros [= <-]. simpl. apply NoDup_add_new. eauto.
Qed.

(** *** The whole loop *)

Lemma win_deps_keys ps conns p :
  is_Some (oget p (WinNet.listening_services
                     (foldl (WinNet.deps_step ps) (WinNet.PortDeps [] [] None) conns)))
  ↔ ∃ c, c ∈ conns ∧ listens_on p c = true.
Proof.
  induction conns as [|c conns IH] using rev_ind.
  - simpl. split; [by intros [? ?]|]. intros (c & Hc & _). by apply elem_of_nil in Hc.
  - rewrite foldl_snoc, win_deps_step_keys, IH. split.
    + intros [(x & Hx & ?)|?].
      * exists x. split; [|done]. apply elem_of_app. by left.
      * exists c. split; [|done]. apply elem_of_app. right. apply list_elem_of_here.
    + intros (x & [Hx| ->%list_elem_of_singleton]%elem_of_app & ?); [|by right].
      left. eauto.
Qed.

Lemma win_deps_step_nodup ps st c :
  NoDup (WinNet.listening_services st).*1 →
  NoDup (WinNet.listening_services (WinNet.deps_step ps st c)).*1.
Proof.
  intros Hst. unfold WinNet.deps_step.
  destruct (laddr c) as [a|]; [|done].
  destruct (decide (status c = "LISTEN")) as [Hs|Hs].
  - unfold WinNet.listen_step.
    set (ls := if omem (port a) _ then _ else _).
    assert (NoDup ls.*1).
    { unfold ls. destruct (omem _ _); [done|]. by apply NoDup_oset. }
    destruct (pid_truthy (pid c) ≫= WinNet.lookup_listener ps); simpl; [|done].
    by rewrite oalter_keys.
  - destruct (decide (status c = "ESTABLISHED")) as [He|He]; [|done].
    destruct (raddr c) as [ra|]; [|done].
    unfold WinNet.client_step.
    destruct (oget (port ra) (WinNet.listening_services st)); [|done].
    simpl. by apply NoDup_oset.
Qed.

Lemma win_deps_step_labels ps st c :
  (∀ p e, oget p (WinNet.listening_services st) = Some e →
          WinNet.ls_port e = p
          ∧ WinNet.well_known_service e = identify_service_by_port p) →
  ∀ p e, oget p (WinNet.listening_services (WinNet.deps_step ps st c)) = Some e →
         WinNet.ls_port e = p
         ∧ WinNet.well_known_service e = identify_service_by_port p.
Proof.
  intros Hst p e. unfold WinNet.deps_step.
  destruct (laddr c) as [a|]; [|apply Hst].
  destruct (decide (status c = "LISTEN")) as [Hs|Hs].
  - rewrite win_listen_step_get. destruct (decide (p = port a)) as [->|]; [|apply Hst].
    intros [= <-].
    destruct (oget (port a) (WinNet.listening_services st)) as [e0|] eqn:E; simpl.
    + apply Hst in E.
      by destruct (pid_truthy (pid c) ≫= WinNet.lookup_listener ps).
    + by destruct (pid_truthy (pid c) ≫= WinNet.lookup_listener ps).
  - destruct (decide (status c = "ESTABLISHED")) as [He|He]; [|apply Hst].
    destruct (raddr c) as [ra|]; [|apply Hst].
    rewrite win_client_step_get.
    destruct (oget (port ra) (WinNet.listening_services st)) as [e0|] eqn:E;
      [|apply Hst].
    destruct (decide (p = port ra)) as [->|]; [|apply Hst].
    intros [= <-]. simpl. eauto.
Qed.

Lemma win_deps_step_mirror ps st c :
  win_mirror st → win_mirror (WinNet.deps_step ps st c).
Proof.
  intros Hst p. unfold WinNet.deps_step.
  destruct (laddr c) as [a|]; [|apply Hst].
  destruct (decide (status c = "LISTEN")) as [Hs|Hs].
  - rewrite win_listen_step_get, win_listen_step_p2p.
    destruct (decide (p = port a)) as [->|Hne].
    2:{ rewrite Hst. by destruct (pid_truthy (pid c) ≫= WinNet.lookup_listener ps). }
    specialize (Hst (port a)).
    destruct (pid_truthy (pid c) ≫= WinNet.lookup_listener ps) as [info|]; simpl.
    + rewrite decide_False by apply add_new_nonempty.
      rewrite Hst.
      destruct (oget (port a) (WinNet.listening_services st)) as [e|]; simpl; [|done].
      destruct (decide (WinNet.processes e = [])) as [->|]; done.
    + rewrite Hst.
      by destruct (oget (port a) (WinNet.listening_services st)) as [e|].
  - destruct (decide (status c = "ESTABLISHED")) as [He|He]; [|apply Hst].
    destruct (raddr c) as [ra|]; [|apply Hst].
    rewrite win_client_step_get, win_client_step_p2p, Hst.
    destruct (oget (port ra) (WinNet.listening_services st)) as [e|] eqn:E; [|done].
    destruct (decide (p = port ra)) as [->|]; [|done].
    by rewrite E.
Qed.

Lemma win_deps_step_procs_nodup ps st c :
  (∀ p e, oget p (WinNet.listening_services st) = Some e → NoDup (WinNet.processes e)) →
  ∀ p e, oget p (WinNet.listening_services (WinNet.deps_step ps st c)) = Some e →
         NoDup (WinNet.processes e).
Proof.
  intros Hst p e. unfold WinNet.deps_step.
  destruct (laddr c) as [a|]; [|apply Hst].
  destruct (decide (status c = "LISTEN")) as [Hs|Hs].
  - rewrite win_listen_step_get. destruct (decide (p = port a)) as [->|]; [|apply Hst].
    intros [= <-].
    destruct (oget (port a) (WinNet.listening_services st)) as [e0|] eqn:E; simpl.
    + apply Hst in E.
      destruct (pid_truthy (pid c) ≫= WinNet.lookup_listener ps); [|done].
      by apply NoDup_add_new.
    + destruct (pid_truthy (pid c) ≫= WinNet.lookup_listener ps); simpl;
        [apply NoDup_add_new|]; apply NoDup_nil_2.
  - destruct (decide (status c = "ESTABLISHED")) as [He|He]; [|apply Hst].
    destruct (raddr c) as [ra|]; [|apply Hst].
    rewrite win_client_step_get.
    destruct (oget (port ra) (WinNet.listening_services st)) as [e0|] eqn:E;
      [|apply Hst].
    destruct (decide (p = port ra)) as [->|]; [|apply Hst].
    intros [= <-]. simpl. eauto.
Qed.

(** An invariant of the loop holds of the dictionary it returns. *)
Lemma win_deps_invariant (P : WinNet.port_deps → Prop) ps net :
  P (WinNet.PortDeps [] [] None) →
  P (WinNet.PortDeps [] [] (Some "Requires administrator privileges")) →
  (∀ st c, P st → P (WinNet.deps_step ps st c)) →
  P (WinNet.get_port_dependencies ps net).
Proof.
  intros H0 H1 Hstep. destruct net as [conns|]; simpl; [|done].
  induction conns as [|c conns IH] using rev_ind; [done|].
  rewrite foldl_snoc. by apply Hstep.
Qed.

(** X5.  In [WindowsServerInventory.get_port_dependencies] the client list of
    a port holds no record twice, and a record is in it exactly when an
    ESTABLISHED fact with a local and a remote address, whose remote port is
    this port, comes in the enumeration after a LISTEN fact for the port.
    The remote address is not looked at, and a client connection enumerated
    before the listener is not recorded. *)
Theorem win_clients_follow_listener ps conns p :
  NoDup (win_clients_at p (WinNet.get_port_dependencies ps (Some conns)))
  ∧ ∀ ci, ci ∈ win_clients_at p (WinNet.get_port_dependencies ps (Some conns))
          ↔ ∃ i, win_client_after_listener ps conns p ci i.
Proof.
  split.
  - unfold win_clients_at.
    destruct (oget p _) as [e|] eqn:E; simpl; [|apply NoDup_nil_2].
    revert p e E.
    apply (win_deps_invariant
             (λ st, ∀ p e, oget p (WinNet.listening_services st) = Some e →
                           NoDup (WinNet.clients e))); [done|done|].
    intros st c. apply win_deps_step_clients_nodup.
  - simpl. induction conns as [|c conns IH] using rev_ind; intros ci.
    + simpl. split; [by intros ?%elem_of_nil|]. by intros (i & x & ? & _).
    + rewrite foldl_snoc, win_deps_step_clients, IH, win_deps_keys.
      unfold win_client_after_listener. split.
      * intros [(i & x & Hi & Hx & j & y & Hj & Hy & Hl)|[Hc (y & Hy & Hl)]].
        -- exists i, x. split; [by apply lookup_app_l_Some|]. split; [done|].
           exists j, y. split; [done|]. split; [by apply lookup_app_l_Some|done].
        -- apply list_elem_of_lookup in Hy as [j Hj].
           exists (length conns), c. split; [by apply list_lookup_middle|].
           split; [done|]. exists j, y.
           split; [by eapply lookup_lt_Some|].
           split; [by apply lookup_app_l_Some|done].
      * intros (i & x & Hi & Hx & j & y & Hj & Hy & Hl).
        apply lookup_snoc_Some in Hi as [[Hlt Hi]|[-> ->]].
        -- left. exists i, x. split; [done|]. split; [done|].
           exists j, y. split; [done|]. split; [|done].
           rewrite lookup_app_l in Hy by lia. done.
        -- right. split; [done|]. exists y. split; [|done].
           rewrite lookup_app_l in Hy by lia.
           by eapply list_elem_of_lookup_2.
Qed.

(** X6.  In [WindowsServerInventory.get_port_dependencies] a port has an entry
    in [listening_services] exactly when the snapshot holds a LISTEN fact
    with this local port; no port has two entries, and an entry carries its
    port and the name the well-known table gives for it. *)
Theorem win_listening_services_index ps conns :
  NoDup (WinNet.listening_services (WinNet.get_port_dependencies ps (Some conns))).*1
  ∧ (∀ p, is_Some (oget p (WinNet.listening_services
                            (WinNet.get_port_dependencies ps (Some conns))))
          ↔ ∃ c, c ∈ conns ∧ listens_on p c = true)
  ∧ ∀ p e, oget p (WinNet.listening_services
                     (WinNet.get_port_dependencies ps (Some conns))) = Some e →
           WinNet.ls_port e = p
           ∧ WinNet.well_known_service e = identify_service_by_port p.
Proof.
  split_and!.
  - apply (win_deps_invariant (λ st, NoDup (WinNet.listening_services st).*1));
      [apply NoDup_nil_2|apply NoDup_nil_2|]. intros st c. apply win_deps_step_nodup.
  - intros p. apply win_deps_keys.
  - apply (win_deps_invariant
             (λ st, ∀ p e, oget p (WinNet.listening_services st) = Some e →
                           WinNet.ls_port e = p
                           ∧ WinNet.well_known_service e = identify_service_by_port p));
      [done|done|]. intros st c. apply win_deps_step_labels.
Qed.

(** X7.  In [WindowsServerInventory.get_port_dependencies], [port_to_process]
    holds for each port the process list of the port's entry in
    [listening_services], and no entry for a port whose list is empty (also
    when the snapshot cannot be read); no process list names a process
    twice. *)
Theorem win_port_to_process_mirror ps net p :
  oget p (WinNet.port_to_process (WinNet.get_port_dependencies ps net))
  = match oget p (WinNet.listening_services (WinNet.get_port_dependencies ps net)) with
    | Some e =>
        if decide (WinNet.processes e = []) then None else Some (WinNet.processes e)
    | None => None
    end
  ∧ ∀ e, oget p (WinNet.listening_services (WinNet.get_port_dependencies ps net))
         = Some e → NoDup (WinNet.processes e).
Proof.
  split.
  - revert p. apply (win_deps_invariant win_mirror); [done|done|].
    intros st c. apply win_deps_step_mirror.
  - revert p.
    apply (win_deps_invariant
             (λ st, ∀ p e, oget p (WinNet.listening_services st) = Some e →
                           NoDup (WinNet.processes e))); [done|done|].
    intros st c. apply win_deps_step_procs_nodup.
Qed.

(** *** [get_application_communication] *)

Lemma identify_service_by_port_nonempty p : identify_service_by_port p ≠ "".
Proof.
  unfold identify_service_by_port.
  destruct (well_known_ports !! p) as [s|] eqn:E; simpl; [|done].
  apply elem_of_list_to_map_2 in E.
  repeat (apply elem_of_cons in E as [E|E]; [by inversion E|]).
  by apply elem_of_nil in E.
Qed.

Section odict_sums.
Context {K V : Type} `{EqDecision K}.
Implicit Types (k : K) (v : V) (d : list (K * V)).

Lemma sum_oset_fresh (g : V → nat) k v d :
  oget k d = None →
  sum_list_with (λ kv, g kv.2) (oset k v d)
  = (sum_list_with (λ kv, g kv.2) d + g v)%nat.
Proof.
  induction d as [|[k0 v0] d IH]; simpl; [lia|].
  destruct (decide (k = k0)) as [->|]; [done|]. intros E. simpl.
  rewrite IH by done. lia.
Qed.

Lemma sum_oset_present (g : V → nat) k v v0 d :
  oget k d = Some v0 →
  (sum_list_with (λ kv, g kv.2) (oset k v d) + g v0
   = sum_list_with (λ kv, g kv.2) d + g v)%nat.
Proof.
  induction d as [|[k1 v1] d IH]; simpl; [done|].
  destruct (decide (k = k1)) as [->|].
  - intros [= ->]. simpl. lia.
  - intros E. simpl. specialize (IH E). lia.
Qed.

End odict_sums.

Ltac win_simpl :=
  cbn -[identify_service_by_port PyStr.str_int String.append oget oset oalter omem].

Lemma win_comm_step_matrix ps cm c :
  WinNet.communication_matrix (WinNet.comm_step ps cm c)
  = WinNet.communication_matrix cm ++ option_list (win_comm_entry_of ps c).
Proof.
  unfold WinNet.comm_step, win_comm_entry_of.
  destruct (pid_truthy (pid c)) as [p|]; win_simpl; [|by rewrite app_nil_r].
  destruct (raddr c) as [ra|]; win_simpl; [|by rewrite app_nil_r].
  destruct (WinNet.lookup_proc_info ps p) as [info|]; win_simpl;
    [done|by rewrite app_nil_r].
Qed.

Lemma win_comm_step_clients ps cm c :
  (sum_list_with (λ kv, length kv.2) (WinNet.service_clients (WinNet.comm_step ps cm c))
   = sum_list_with (λ kv, length kv.2) (WinNet.service_clients cm)
     + length (option_list (win_comm_entry_of ps c)))%nat.
Proof.
  unfold WinNet.comm_step, win_comm_entry_of.
  destruct (pid_truthy (pid c)) as [p|]; win_simpl; [|lia].
  destruct (raddr c) as [ra|]; win_simpl; [|lia].
  destruct (WinNet.lookup_proc_info ps p) as [info|]; win_simpl; [|lia].
  rewrite decide_False by apply identify_service_by_port_nonempty.
  destruct (oget (identify_service_by_port (port ra)) (WinNet.service_clients cm))
    as [l|] eqn:E; cbn [from_option id].
  - pose proof (sum_oset_present (V:=list WinNet.client_entry) length _
                  (l ++ [WinNet.ClientEntry (WinNet.pi_name info) p
                           (default "unknown" (fmt_addr (laddr c)))]) _ _ E) as H.
    rewrite length_app in H. cbn [length] in H. lia.
  - by rewrite (sum_oset_fresh (V:=list WinNet.client_entry) length _ _ _ E).
Qed.

Lemma win_comm_step_connects ps cm c :
  (sum_list_with (λ kv, length (WinNet.connects_to kv.2))
                 (WinNet.process_to_service (WinNet.comm_step ps cm c))
   = sum_list_with (λ kv, length (WinNet.connects_to kv.2))
                   (WinNet.process_to_service cm)
     + length (option_list (win_comm_entry_of ps c)))%nat.
Proof.
  unfold WinNet.comm_step, win_comm_entry_of.
  destruct (pid_truthy (pid c)) as [p|]; win_simpl; [|lia].
  destruct (raddr c) as [ra|]; win_simpl; [|lia].
  destruct (WinNet.lookup_proc_info ps p) as [info|]; win_simpl; [|lia].
  set (pts := if omem _ _ then _ else _).
  set (g := λ e : WinNet.pts_entry, length (WinNet.connects_to e)).
  assert (Hpts : ∃ e, oget (WinNet.pi_name info) pts = Some e
            ∧ sum_list_with (λ kv, g kv.2) pts
              = sum_list_with (λ kv, g kv.2) (WinNet.process_to_service cm)).
  { unfold pts, omem.
    destruct (oget (WinNet.pi_name info) (WinNet.process_to_service cm)) as [e|] eqn:E.
    - eauto.
    - exists (WinNet.PtsEntry info []). rewrite oget_oset_eq. split; [done|].
      rewrite (sum_oset_fresh g _ _ _ E). unfold g at 2. cbn [WinNet.connects_to length].
      lia. }
  destruct Hpts as (e & He & Hsum).
  unfold oalter. rewrite He.
  set (e' := WinNet.PtsEntry _ _).
  assert (Hg : g e' = (g e + 1)%nat).
  { unfold g, e'. cbn [WinNet.connects_to]. rewrite length_app. cbn [length]. lia. }
  pose proof (sum_oset_present g (WinNet.pi_name info) e' e pts He) as H.
  change (λ kv : string * WinNet.pts_entry, length (WinNet.connects_to kv.2))
    with (λ kv : string * WinNet.pts_entry, g kv.2).
  lia.
Qed.

(** X8.  [WindowsServerInventory.get_application_communication] adds one
    matrix entry for each fact that has a pid, a remote address and a
    process whose name, executable and command line can be read, in
    enumeration order; the [connects_to] lists and the [service_clients]
    lists each hold, altogether, as many records as the matrix: no record
    is merged with another. *)
Theorem win_communication_counts ps conns :
  WinNet.communication_matrix (WinNet.get_application_communication ps (Some conns))
  = omap (win_comm_entry_of ps) conns
  ∧ sum_list_with (λ kv, length kv.2)
      (WinNet.service_clients (WinNet.get_application_communication ps (Some conns)))
    = length (omap (win_comm_entry_of ps) conns)
  ∧ sum_list_with (λ kv, length (WinNet.connects_to kv.2))
      (WinNet.process_to_service (WinNet.get_application_communication ps (Some conns)))
    = length (omap (win_comm_entry_of ps) conns).
Proof.
  simpl. induction conns as [|c conns IH] using rev_ind; [done|].
  rewrite foldl_snoc, win_comm_step_matrix, win_comm_step_clients,
    win_comm_step_connects, omap_app, length_app.
  destruct IH as (-> & -> & ->).
  assert (omap (win_comm_entry_of ps) [c] = option_list (win_comm_entry_of ps c))
    as -> by (cbn [omap list_omap]; by destruct (win_comm_entry_of ps c)).
  done.
Qed.

(** *** [get_network_info] *)

Lemma win_net_step_group p st c :
  default [] (oget p (WinNet.net_step st c).2)
  = default [] (oget p st.2)
    ++ filter (λ ci, pid_truthy (WinNet.ci_pid ci) = Some p) [WinNet.conn_info_of c].
Proof.
  unfold WinNet.net_step. simpl.
  rewrite filter_cons, filter_nil. simpl.
  destruct (pid_truthy (pid c)) as [q|] eqn:E.
  - rewrite oget_oset. destruct (decide (p = q)) as [->|Hne].
    + by rewrite decide_True.
    + rewrite decide_False by congruence. by rewrite app_nil_r.
  - rewrite decide_False by done. by rewrite app_nil_r.
Qed.

Lemma win_net_loop conns : ∀ st,
  (foldl WinNet.net_step st conns).1 = st.1 ++ (WinNet.conn_info_of <$> conns)
  ∧ ∀ p, default [] (oget p (foldl WinNet.net_step st conns).2)
         = default [] (oget p st.2)
           ++ filter (λ ci, pid_truthy (WinNet.ci_pid ci) = Some p)
                     (WinNet.conn_info_of <$> conns).
Proof.
  induction conns as [|c conns IH]; intros st; simpl.
  - split; [by rewrite app_nil_r|]. intros p. by rewrite filter_nil, app_nil_r.
  - destruct (IH (WinNet.net_step st c)) as [H1 H2]. split.
    + rewrite H1. simpl. by rewrite <- app_assoc.
    + intros p. rewrite H2, win_net_step_group, filter_cons, filter_nil.
      rewrite <- app_assoc. f_equal.
      rewrite filter_cons. by destruct (decide _).
Qed.

(** X9.  In [WindowsServerInventory.get_network_info], started with an empty
    [process_connections], [connections] holds one record per fact in
    enumeration order, and [process_connections] holds under each pid the
    records of this pid, in the same order. *)
Theorem win_process_connections_group conns :
  WinNet.connections (WinNet.get_network_info [] (Some conns)).2
  = WinNet.conn_info_of <$> conns
  ∧ ∀ p, default [] (oget p (WinNet.get_network_info [] (Some conns)).1)
         = filter (λ ci, pid_truthy (WinNet.ci_pid ci) = Some p)
                  (WinNet.connections (WinNet.get_network_info [] (Some conns)).2).
Proof.
  simpl. destruct (win_net_loop conns ([], [])) as [H1 H2].
  split; [done|]. intros p. by rewrite H2, H1.
Qed.

(** *** [print_summary] *)

Lemma win_summary_lookup_str s (L : list (Z * WinNet.listening_service)) :
  oget (KStr s) (prod_map KInt id <$> L) = None.
Proof.
  induction L as [|[k v] L IH]; [done|]. exact IH.
Qed.

(** X10.  When the snapshot holds a LISTEN fact with a local address, the
    port block of [WindowsServerInventory.print_summary] prints its three
    header lines and then raises [KeyError]: the ports are keys of type
    [int], and the block looks them up as [str]. *)
Theorem win_summary_ports_key_error ps conns :
  (∃ c, c ∈ conns ∧ status c = "LISTEN" ∧ is_Some (laddr c)) →
  ∃ key n,
    WinNet.summary_ports (WinNet.get_port_dependencies ps (Some conns))
    = KeyError key
        [ String "010" "Port-Level Dependencies:";
          "  - Listening ports: " +:+ PyStr.str_int n;
          String "010" "  Key Listening Services:" ].
Proof.
  intros (c & Hc & Hs & [a Ha]).
  assert (HS : is_Some (oget (port a) (WinNet.listening_services
                              (WinNet.get_port_dependencies ps (Some conns))))).
  { apply win_deps_keys. exists c. split; [done|].
    apply listens_on_spec. by rewrite Ha. }
  unfold WinNet.summary_ports.
  destruct (WinNet.listening_services _) as [|kv L] eqn:E.
  { by destruct HS. }
  set (keys := take 10 (merge_sort Z.le (kv :: L).*1)).
  assert (Hk : keys ≠ []).
  { unfold keys. intros Hnil.
    assert (Hlen : length (merge_sort Z.le (kv :: L).*1) = length (kv :: L).*1).
    { apply Permutation_length, merge_sort_Permutation. }
    apply (f_equal length) in Hnil. rewrite length_take, Hlen in Hnil.
    simpl in Hnil. lia. }
  destruct keys as [|k keys']; [done|].
  cbn [WinNet.summary_ports_loop].
  rewrite (win_summary_lookup_str _ (kv :: L)).
  by eexists _, (Z.of_nat (length (kv :: L))).
Qed.

Lemma win_summary_ports_key_error_witness :
  ∃ key n,
    WinNet.summary_ports (WinNet.get_port_dependencies win_table (Some win_snapshot))
    = KeyError key
        [ String "010" "Port-Level Dependencies:";
          "  - Listening ports: " +:+ PyStr.str_int n;
          String "010" "  Key Listening Services:" ].
Proof.
  apply (win_summary_ports_key_error win_table win_snapshot).
  eexists. split; [apply list_elem_of_here|]. split; [reflexivity|].
  simpl. eauto.
Defined.

(** ** The record lists of [get_network_info] *)

Lemma net_step_lists ps st c st1 :
  net_step ps st c = Ok st1 →
  nl_connections st1 = nl_connections st ++ [conn_info_of ps c]
  ∧ nl_established st1
    = nl_established st
      ++ filter (λ ci, ci_status ci = "ESTABLISHED") [conn_info_of ps c].
Proof.
  unfold net_step.
  pose proof (resolve_conn_fst ps c (process_connections (nl_self st))) as Hci.
  destruct (resolve_conn ps c (process_connections (nl_self st))) as [ci pcs].
  simpl in Hci. subst ci.
  destruct (conn_info_of_fields ps c) as (Hst & _).
  rewrite filter_cons, filter_nil, Hst.
  destruct (decide (status c = "LISTEN")) as [Hl|Hl].
  - rewrite decide_False by (rewrite Hl; done).
    destruct (laddr c) as [a|]; [|done].
    destruct (omem (port a) (nl_listening st)); intros [= <-]; simpl;
      by rewrite app_nil_r.
  - destruct (decide (status c = "ESTABLISHED")); intros [= <-]; simpl;
      [done|by rewrite app_nil_r].
Qed.

Lemma net_loop_run_lists ps l : ∀ st st',
  net_loop_run ps st l = Ok st' →
  nl_connections st' = nl_connections st ++ (conn_info_of ps <$> l)
  ∧ nl_established st'
    = nl_established st
      ++ filter (λ ci, ci_status ci = "ESTABLISHED") (conn_info_of ps <$> l).
Proof.
  induction l as [|c l IH]; intros st st'; simpl.
  - intros [= <-]. by rewrite filter_nil, !app_nil_r.
  - intros (st1 & Hstep & Hrun)%rbind_Ok.
    destruct (net_step_lists _ _ _ _ Hstep) as [H1 H2].
    destruct (IH _ _ Hrun) as [H3 H4].
    rewrite H3, H4, H1, H2, <- !app_assoc. split; [done|].
    f_equal. rewrite (filter_cons _ (conn_info_of ps c)), filter_cons, filter_nil.
    by destruct (decide _).
Qed.

(** X11.  On a snapshot whose LISTEN facts have a local address,
    [ServerInventory.get_network_info] raises nothing, [connections] holds
    one record per fact in enumeration order, and [established_connections]
    is the sub-list of the records whose status is ESTABLISHED. *)
Theorem network_connection_lists ps conns :
  Forall wf_listen conns →
  ∃ self' ni,
    get_network_info init_state ps (Some conns) = Ok (self', ni)
    ∧ connections ni = conn_info_of ps <$> conns
    ∧ established_connections ni
      = Some (filter (λ ci, ci_status ci = "ESTABLISHED") (connections ni)).
Proof.
  intros Hwf.
  destruct (get_network_info_run ps init_state conns Hwf) as (st & Hrun & Hgni).
  destruct (net_loop_run_lists _ _ _ _ Hrun) as [H1 H2]. simpl in H1, H2.
  eexists _, _. split; [exact Hgni|]. simpl. by rewrite H2, H1.
Qed.

Lemma network_connection_lists_witness :
  ∃ self' ni,
    get_network_info init_state app_table (Some app_snapshot) = Ok (self', ni)
    ∧ connections ni = conn_info_of app_table <$> app_snapshot
    ∧ established_connections ni
      = Some (filter (λ ci, ci_status ci = "ESTABLISHED") (connections ni)).
Proof.
  apply (network_connection_lists app_table app_snapshot).
  repeat constructor; intros _; simpl; eauto.
Defined.

(** ** [port_usage_map] and the dependency graph *)

Lemma deps_pids_invariant (P : deps_loop → Prop) ps :
  (∀ n p st c st', deps_conn n p st c = Ok st' → P st → P st') →
  ∀ pcs st st', deps_pids ps st pcs = Ok st' → P st → P st'.
Proof.
  intros Hconn.
  assert (∀ n p cs st st', deps_conns n p st cs = Ok st' → P st → P st') as Hc.
  { intros n p. induction cs as [|c cs IH]; intros st st'; simpl.
    - by intros [= <-].
    - intros (st1 & Hstep & Hrun)%rbind_Ok HP. eauto. }
  induction pcs as [|[p cs] pcs IH]; intros st st'; simpl.
  - by intros [= <-].
  - intros (st1 & Hstep & Hrun)%rbind_Ok HP. eapply IH; [done|].
    destruct (ps p ≫= p_name); [by eapply Hc|by injection Hstep as <-].
Qed.

Lemma edge_clients_snoc q g e :
  edge_clients q (g ++ [e])
  = edge_clients q g
    ++ (if decide (de_server_port e = q)
        then [ClientInfo (de_client_process e) (de_client_pid e)] else []).
Proof.
  unfold edge_clients. rewrite filter_app, fmap_app, filter_cons, filter_nil.
  by destruct (decide (de_server_port e = q)).
Qed.

Lemma deps_conn_cases n p st c st' :
  deps_conn n p st c = Ok st' →
  st' = st
  ∨ ∃ q ls, oget q (dl_listening st) = Some ls
      ∧ st' = DepsLoop
                (oset q (ListeningService (ls_service ls) (ls_pid ls)
                           (ls_well_known_service ls)
                           (if bool_decide (ClientInfo n p ∈ ls_clients ls)
                            then ls_clients ls
                            else ls_clients ls ++ [ClientInfo n p]))
                      (dl_listening st))
                (dl_graph st ++ [DependencyEdge n p q (ls_service ls) "port-level"]).
Proof.
  unfold deps_conn.
  destruct (decide (ci_status c = "ESTABLISHED")); [|intros [= <-]; by left].
  destruct (str_truthy (ci_remote_address c)) as [ra|]; [|intros [= <-]; by left].
  destruct (deps_parse_remote ra) as [[rip rport]|]; simpl; [|done].
  destruct (deps_is_local rip); [|intros [= <-]; by left].
  destruct (oget rport (dl_listening st)) as [ls|] eqn:E;
    [|intros [= <-]; by left].
  intros [= <-]. right. eauto.
Qed.

Lemma deps_conn_mirror n p st c st' :
  deps_conn n p st c = Ok st' →
  clients_mirror_graph st → clients_mirror_graph st'.
Proof.
  intros [->|(q & ls & Hq & ->)]%deps_conn_cases Hm; [done|].
  intros q' ls' Hq' ci. simpl in *. rewrite edge_clients_snoc. simpl.
  rewrite oget_oset in Hq'. destruct (decide (q' = q)) as [->|Hne].
  - injection Hq' as <-. simpl. rewrite decide_True by done.
    rewrite elem_of_app, list_elem_of_singleton, <- (Hm q ls Hq).
    case_bool_decide as Hin; [|by rewrite elem_of_app, list_elem_of_singleton].
    split; [auto|]. intros [?| ->]; done.
  - rewrite decide_False by done. rewrite app_nil_r. by apply Hm.
Qed.

Lemma deps_conn_keys n p st c st' :
  deps_conn n p st c = Ok st' → (dl_listening st').*1 = (dl_listening st).*1.
Proof.
  intros [->|(q & ls & Hq & ->)]%deps_conn_cases; [done|]. simpl.
  rewrite oset_keys. unfold omem. by rewrite Hq.
Qed.

Lemma clients_empty_init self q ls :
  oget q (init_listening_services self) = Some ls → ls_clients ls = [].
Proof.
  unfold init_listening_services.
  cut (∀ l acc,
         (∀ q ls, oget q acc = Some ls → ls_clients ls = []) →
         ∀ q ls,
           oget q (foldl (λ acc '(p, b),
                      oset p (ListeningService (ps_service b) (ps_pid b)
                                (_identify_service_by_port p) []) acc) acc l)
           = Some ls → ls_clients ls = []).
  { intros H. apply H. done. }
  clear. induction l as [|[p b] l IH]; intros acc Hacc; csimpl; [done|].
  apply IH. intros q ls. rewrite oget_oset.
  destruct (decide (q = p)); [|by apply Hacc]. by intros [= <-].
Qed.

(** The client list of every port is duplicate-free and holds exactly the
    clients of the graph's edges into the port. *)
Lemma get_port_dependencies_mirror self ps pd :
  get_port_dependencies self ps = Ok pd →
  NoDup (listening_services pd).*1
  ∧ clients_ok (listening_services pd)
  ∧ ∀ q ls, oget q (listening_services pd) = Some ls →
            ∀ ci, ci ∈ ls_clients ls ↔ ci ∈ edge_clients q (dependency_graph pd).
Proof.
  unfold get_port_dependencies. intros (st & Hst & [= <-])%rbind_Ok. simpl.
  split_and!.
  - eapply (deps_pids_invariant (λ st, NoDup (dl_listening st).*1)); [|done|].
    + intros n p st0 c st1 Hc. by rewrite (deps_conn_keys _ _ _ _ _ Hc).
    + simpl. unfold init_listening_services.
      apply (NoDup_foldl_oset
               (λ p b, ListeningService (ps_service b) (ps_pid b)
                                        (_identify_service_by_port p) [])).
      apply NoDup_nil_2.
  - eapply deps_pids_clients; [done|]. apply clients_ok_init.
  - eapply (deps_pids_invariant clients_mirror_graph); [|done|].
    + apply deps_conn_mirror.
    + intros q ls Hq ci. simpl in *. rewrite (clients_empty_init _ _ _ Hq).
      done.
Qed.

(** X12.  On a well-formed snapshot, for every port of [port_usage_map],
    [client_count] is the number of distinct (process name, pid) clients of
    the edges of [dependency_graph] into the port, and [clients] lists the
    process names of these clients. *)
Theorem client_count_matches_graph ps conns :
  wf_snapshot conns →
  ∃ r, correlate ps (Some conns) = Ok r
       ∧ ∀ q u, oget q (port_usage_map (port_dependencies r)) = Some u →
           pu_client_count u
           = length (remove_dups
                       (edge_clients q (dependency_graph (port_dependencies r))))
           ∧ pu_clients u
             ≡ₚ client_process
                  <$> remove_dups
                        (edge_clients q (dependency_graph (port_dependencies r))).
Proof.
  intros Hwf.
  destruct (correlate_facts ps conns Hwf)
    as (self & ni & pd & _ & Hpd & Hcor & _).
  destruct (get_port_dependencies_mirror _ _ _ Hpd) as (Hnd & Hok & Hm).
  eexists. split; [exact Hcor|]. simpl. intros q u Hu.
  assert (port_usage_map pd = usage_of (listening_services pd)) as Hpu.
  { revert Hpd. unfold get_port_dependencies.
    by intros (st & _ & [= <-])%rbind_Ok. }
  rewrite Hpu, usage_of_get in Hu by done.
  destruct (oget q (listening_services pd)) as [ls|] eqn:Hq; [|done].
  injection Hu as <-. simpl.
  assert (ls_clients ls ≡ₚ remove_dups (edge_clients q (dependency_graph pd))) as HP.
  { apply NoDup_Permutation; [by eapply Hok|apply NoDup_remove_dups|].
    intros ci. rewrite elem_of_remove_dups. by apply Hm. }
  split; [by rewrite HP|by rewrite HP].
Qed.

Lemma client_count_matches_graph_witness :
  ∃ r, correlate app_table (Some app_snapshot) = Ok r
       ∧ ∀ q u, oget q (port_usage_map (port_dependencies r)) = Some u →
           pu_client_count u
           = length (remove_dups
                       (edge_clients q (dependency_graph (port_dependencies r))))
           ∧ pu_clients u
             ≡ₚ client_process
                  <$> remove_dups
                        (edge_clients q (dependency_graph (port_dependencies r))).
Proof.
  apply (client_count_matches_graph app_table app_snapshot).
  repeat constructor; try (intros _; simpl; eauto);
    intros a [= <-]; reflexivity.
Defined.

(** ** The communication matrix on IPv4 snapshots *)

Lemma comm_conn_matrix self n p cm c cm' :
  comm_conn self n p cm c = Next cm' →
  communication_matrix cm'
  = communication_matrix cm ++ option_list (conn_matrix_entry self n p c).
Proof.
  unfold comm_conn, conn_matrix_entry.
  destruct (decide (ci_status c = "ESTABLISHED"));
    [|intros [= <-]; by rewrite app_nil_r].
  destruct (str_truthy (ci_remote_address c)) as [ra|]; simpl;
    [|intros [= <-]; by rewrite app_nil_r].
  destruct (comm_parse_remote ra) as [[rip rport]|]; [|done].
  destruct (local_port_of c) as [lp|]; [|done].
  destruct (comm_is_local rip); intros [= <-]; done.
Qed.

Lemma comm_conns_matrix self n p cs : ∀ cm cm',
  fold_flow (comm_conn self n p) cm cs = Next cm' →
  communication_matrix cm'
  = communication_matrix cm ++ omap (conn_matrix_entry self n p) cs.
Proof.
  induction cs as [|c cs IH]; intros cm cm'; simpl.
  - intros [= <-]. by rewrite app_nil_r.
  - destruct (comm_conn self n p cm c) as [cm1|] eqn:E; [|done].
    intros Hrun. rewrite (IH _ _ Hrun), (comm_conn_matrix _ _ _ _ _ _ E).
    rewrite <- app_assoc. f_equal.
    by destruct (conn_matrix_entry self n p c).
Qed.

Lemma omap_pair_matrix self ps p cs :
  omap (pair_matrix_entry self ps) (pair p <$> cs)
  = match lookup_name_cmdline ps p with
    | Some r => omap (conn_matrix_entry self r.1 p) cs
    | None => []
    end.
Proof.
  unfold pair_matrix_entry.
  induction cs as [|c cs IH]; csimpl.
  - by destruct (lookup_name_cmdline ps p).
  - rewrite IH. destruct (lookup_name_cmdline ps p) as [r|]; csimpl; done.
Qed.

Lemma comm_pids_matrix self ps pcs : ∀ cm,
  (∀ item, item ∈ pairs_of pcs →
           ∀ n p cm, ∃ cm', comm_conn self n p cm item.2 = Next cm') →
  ∃ cm', fold_flow (comm_pid self ps) cm pcs = Next cm'
         ∧ communication_matrix cm'
           = communication_matrix cm
             ++ omap (pair_matrix_entry self ps) (pairs_of pcs).
Proof.
  induction pcs as [|[p cs] pcs IH]; intros cm Hnext.
  - exists cm. split; [done|]. by rewrite app_nil_r.
  - assert (∀ item, item ∈ pairs_of pcs →
              ∀ n p cm, ∃ cm', comm_conn self n p cm item.2 = Next cm') as Hrest.
    { intros item Hin. apply Hnext. unfold pairs_of in *. csimpl.
      apply elem_of_app. by right. }
    assert (∀ c, c ∈ cs →
              ∀ n p cm, ∃ cm', comm_conn self n p cm c = Next cm') as Hhere.
    { intros c Hin. apply (Hnext (p, c)). unfold pairs_of. csimpl.
      apply elem_of_app. left. by apply list_elem_of_fmap_2. }
    change (pairs_of ((p, cs) :: pcs)) with ((pair p <$> cs) ++ pairs_of pcs).
    rewrite omap_app, omap_pair_matrix. simpl.
    destruct (lookup_name_cmdline ps p) as [[n cmd]|] eqn:El.
    + set (cm0 := CommMap _ (service_clients cm) (communication_matrix cm)).
      destruct (fold_flow_next (comm_conn self n p) cs cm0) as [cm1 Hcm1].
      { intros c Hc s. apply Hhere. done. }
      rewrite Hcm1.
      destruct (IH cm1 Hrest) as (cm' & Hrun & Hm).
      exists cm'. split; [done|].
      rewrite Hm, (comm_conns_matrix _ _ _ _ _ _ Hcm1). simpl.
      by rewrite <- app_assoc.
    + destruct (IH cm Hrest) as (cm' & Hrun & Hm). exists cm'. by split.
Qed.

Lemma lookup_all_resolves_name ps p r :
  lookup_all ps p = Some r → ∃ cmd, lookup_name_cmdline ps p = Some (r.1.1, cmd).
Proof.
  unfold lookup_all, lookup_name_cmdline.
  destruct (ps p) as [pr|]; [|done]. simpl.
  destruct (p_name pr); [|done]. simpl.
  destruct (p_username pr); [|done]. simpl.
  destruct (p_cmdline pr); [|done]. simpl. intros [= <-]. eauto.
Qed.

(** On a stored pair, the matrix entry read back from the formatted
    address is the entry of the fact it came from. *)
Lemma pair_matrix_fact ps conns self c :
  ipv4_remote c →
  (∀ q, oget q (port_service_map self) = first_listener q conns ≫= binding_of ps) →
  resolved_pair ps c ≫= pair_matrix_entry self ps = fact_matrix_entry ps conns c.
Proof.
  intros Hv4 Hidx. unfold resolved_pair, fact_matrix_entry, pair_matrix_entry.
  destruct (conn_info_of_fields ps c) as (Hst & Hra & _ & Hty).
  destruct (pid_truthy (pid c)) as [p|] eqn:Ep; simpl.
  2:{ destruct (decide (status c = "ESTABLISHED")); [|done].
      by destruct (raddr c). }
  destruct (lookup_all ps p) as [r|] eqn:Er; simpl.
  2:{ destruct (decide (status c = "ESTABLISHED")); [|done].
      by destruct (raddr c). }
  destruct (lookup_all_resolves_name _ _ _ Er) as [cmd ->]. simpl.
  unfold conn_matrix_entry. rewrite Hst, Hra, Hty.
  destruct (decide (status c = "ESTABLISHED")); [|done].
  destruct (raddr c) as [a|] eqn:Ea; [|done].
  rewrite fmt_addr_truthy. cbn [mbind option_bind].
  rewrite comm_parse_remote_fmt by eauto.
  unfold protocol_of, target_service_of. rewrite Hidx.
  by destruct (comm_is_local (ip a)).
Qed.

(** X13.  On a snapshot of IPv4 connections whose LISTEN facts have a local
    address, the communication matrix of [ServerInventory] holds, up to
    order, one entry for each ESTABLISHED fact that has a remote address
    and a resolved owner: a local edge to the service bound to the port (or
    to [unknown-port-N]) for a loopback address, an external edge
    otherwise. *)
Theorem communication_matrix_facts ps conns :
  Forall wf_listen conns → Forall ipv4_remote conns →
  ∃ self ni,
    get_network_info init_state ps (Some conns) = Ok (self, ni)
    ∧ communication_matrix (get_application_communication_map self ps)
      ≡ₚ omap (fact_matrix_entry ps conns) conns.
Proof.
  intros Hwl Hv4.
  destruct (get_network_info_facts ps conns Hwl)
    as (self & ni & Hgni & Hidx & _ & _ & Hpairs & _).
  exists self, ni. split; [done|].
  assert (∀ item, item ∈ pairs_of (process_connections self) →
            ∀ n p cm, ∃ cm', comm_conn self n p cm item.2 = Next cm') as Hnext.
  { intros item Hin n p cm. rewrite Hpairs in Hin.
    apply list_elem_of_omap in Hin as (c & Hc & Hr).
    unfold resolved_pair in Hr.
    destruct (pid_truthy (pid c)) as [p'|]; [|done]. simpl in Hr.
    destruct (lookup_all ps p'); [|done]. injection Hr as <-. simpl.
    apply comm_conn_next. rewrite Forall_forall in Hv4. by apply Hv4. }
  destruct (comm_pids_matrix self ps _ (CommMap [] [] []) Hnext)
    as (cm' & Hrun & Hm).
  unfold get_application_communication_map, comm_run. rewrite Hrun. simpl.
  rewrite Hm. simpl. rewrite Hpairs, omap_omap.
  erewrite list_omap_ext; [done|].
  apply Forall2_same_length_lookup. split; [done|].
  intros i c c' Hc Hc'. simplify_eq.
  apply pair_matrix_fact; [|done].
  rewrite Forall_forall in Hv4. apply Hv4. by eapply list_elem_of_lookup_2.
Qed.

Lemma communication_matrix_facts_witness :
  ∃ self ni,
    get_network_info init_state app_table (Some mixed_snapshot) = Ok (self, ni)
    ∧ communication_matrix (get_application_communication_map self app_table)
      ≡ₚ omap (fact_matrix_entry app_table mixed_snapshot) mixed_snapshot.
Proof.
  apply (communication_matrix_facts app_table mixed_snapshot).
  - repeat constructor; intros _; simpl; eauto.
  - repeat constructor; intros a [= <-]; reflexivity.
Defined.

(** ** Stripping and splitting *)

Lemma rstrip_cons c s :
  PyStr.rstrip (String c s)
  = match PyStr.rstrip s with
    | EmptyString => if PyStr.isspace c then EmptyString else String c EmptyString
    | r => String c r
    end.
Proof. done. Qed.

Lemma rstrip_idemp s : PyStr.rstrip (PyStr.rstrip s) = PyStr.rstrip s.
Proof.
  induction s as [|c s IH]; [done|].
  rewrite rstrip_cons. destruct (PyStr.rstrip s) as [|d r] eqn:E.
  - destruct (PyStr.isspace c) eqn:Ec; [done|].
    rewrite rstrip_cons. simpl. by rewrite Ec.
  - rewrite rstrip_cons, IH. done.
Qed.

Lemma lstrip_head s :
  match PyStr.lstrip s with
  | String c _ => PyStr.isspace c = false
  | EmptyString => True
  end.
Proof.
  induction s as [|c s IH]; [done|]. simpl.
  destruct (PyStr.isspace c) eqn:Ec; [done|]. done.
Qed.

Lemma lstrip_id s :
  match s with String c _ => PyStr.isspace c = false | EmptyString => True end →
  PyStr.lstrip s = s.
Proof. destruct s as [|c s]; [done|]. simpl. by intros ->. Qed.

Lemma rstrip_head s :
  match s with String c _ => PyStr.isspace c = false | EmptyString => True end →
  match PyStr.rstrip s with
  | String c _ => PyStr.isspace c = false
  | EmptyString => True
  end.
Proof.
  destruct s as [|c s]; [done|]. rewrite rstrip_cons. intros Hc.
  destruct (PyStr.rstrip s); by rewrite ?Hc.
Qed.

Lemma strip_idemp s : PyStr.strip (PyStr.strip s) = PyStr.strip s.
Proof.
  unfold PyStr.strip.
  rewrite (lstrip_id (PyStr.rstrip (PyStr.lstrip s))).
  - apply rstrip_idemp.
  - apply rstrip_head, lstrip_head.
Qed.

Lemma split_ws_go_lstrip s :
  PyStr.split_ws_go None (PyStr.lstrip s) = PyStr.split_ws_go None s.
Proof.
  induction s as [|c s IH]; [done|]. simpl.
  destruct (PyStr.isspace c) eqn:Ec; [done|]. simpl. by rewrite Ec.
Qed.

Lemma split_ws_go_rstrip s : ∀ cur,
  PyStr.split_ws_go cur (PyStr.rstrip s) = PyStr.split_ws_go cur s.
Proof.
  induction s as [|c s IH]; intros cur; [done|].
  rewrite rstrip_cons. destruct (PyStr.rstrip s) as [|d r] eqn:E.
  - destruct (PyStr.isspace c) eqn:Ec.
    + simpl. rewrite Ec, <- IH. simpl. by rewrite app_nil_r.
    + simpl. rewrite Ec, <- IH. done.
  - simpl (PyStr.split_ws_go cur (String c (String d r))).
    simpl (PyStr.split_ws_go cur (String c s)).
    destruct (PyStr.isspace c); by rewrite <- IH.
Qed.

Lemma split_ws_strip s : PyStr.split_ws (PyStr.strip s) = PyStr.split_ws s.
Proof.
  unfold PyStr.split_ws, PyStr.strip.
  by rewrite split_ws_go_rstrip, split_ws_go_lstrip.
Qed.

Lemma prefix_cons c w d s :
  String.prefix (String c w) (String d s)
  = if decide (c = d) then String.prefix w s else false.
Proof.
  simpl. destruct (ascii_dec c d), (decide (c = d)); done.
Qed.

Lemma prefix_nil s : String.prefix "" s = true.
Proof. by destruct s. Qed.

Lemma contains_cons w d s :
  PyStr.contains w (String d s)
  = String.prefix w (String d s) || PyStr.contains w s.
Proof. done. Qed.

Lemma prefix_rstrip w : ∀ s,
  last_nonspace w = true →
  String.prefix w (PyStr.rstrip s) = String.prefix w s.
Proof.
  induction w as [|c w IH]; intros s Hw; [done|].
  destruct s as [|d s]; [done|].
  rewrite rstrip_cons, prefix_cons.
  destruct w as [|c' w'].
  - simpl in Hw. apply negb_true_iff in Hw.
    destruct (PyStr.rstrip s) as [|e r].
    + destruct (PyStr.isspace d) eqn:Ed.
      * simpl. destruct (decide (c = d)) as [->|]; [congruence|done].
      * by rewrite prefix_cons, !prefix_nil.
    + by rewrite prefix_cons, !prefix_nil.
  - assert (last_nonspace (String c' w') = true) as Hw' by done.
    specialize (IH s Hw').
    destruct (PyStr.rstrip s) as [|e r].
    + assert (String.prefix (String c' w') s = false) as -> by (by rewrite <- IH).
      destruct (PyStr.isspace d); simpl; [by destruct (decide (c = d))|].
      by destruct (ascii_dec c d), (decide (c = d)).
    + rewrite prefix_cons. by rewrite IH.
Qed.

Lemma contains_nil w : w ≠ "" → PyStr.contains w "" = false.
Proof. by destruct w. Qed.

Lemma last_nonspace_nonempty w : last_nonspace w = true → w ≠ "".
Proof. by destruct w. Qed.

Lemma contains_rstrip w s :
  last_nonspace w = true →
  PyStr.contains w (PyStr.rstrip s) = PyStr.contains w s.
Proof.
  intros Hw. pose proof (last_nonspace_nonempty _ Hw) as Hne.
  induction s as [|d s IH]; [done|].
  rewrite contains_cons, <- IH, <- (prefix_rstrip w (String d s)) by done.
  rewrite rstrip_cons.
  destruct (PyStr.rstrip s) as [|e r] eqn:E.
  - rewrite (contains_nil w) by done.
    destruct (PyStr.isspace d).
    + rewrite contains_nil by done. by destruct w.
    + rewrite contains_cons, contains_nil by done. done.
  - by rewrite contains_cons.
Qed.

Lemma contains_lstrip w s :
  head_nonspace w = true →
  PyStr.contains w (PyStr.lstrip s) = PyStr.contains w s.
Proof.
  intros Hw. destruct w as [|c w]; [done|]. simpl in Hw.
  apply negb_true_iff in Hw.
  induction s as [|d s IH]; [done|].
  simpl PyStr.lstrip. destruct (PyStr.isspace d) eqn:Ed; [|done].
  rewrite IH, contains_cons, prefix_cons.
  destruct (decide (c = d)) as [->|]; [congruence|done].
Qed.

Lemma contains_strip w s :
  head_nonspace w = true → last_nonspace w = true →
  PyStr.contains w (PyStr.strip s) = PyStr.contains w s.
Proof.
  intros. unfold PyStr.strip. by rewrite contains_rstrip, contains_lstrip.
Qed.

(** ** [_parse_iptables_output] *)

Lemma rule_of_strip line : DebRep.rule_of (PyStr.strip line) = DebRep.rule_of line.
Proof. unfold DebRep.rule_of. by rewrite split_ws_strip, strip_idemp. Qed.

Lemma rule_of_ok line r :
  PyStr.strip line ≠ "" → DebRep.rule_of line = Some r → iptables_rule_ok r.
Proof.
  intros Hne Hr. unfold iptables_rule_ok.
  assert (DebRep.raw_line r = PyStr.strip line) as Hraw.
  { revert Hr. unfold DebRep.rule_of. case_decide; [|done]. by intros [= <-]. }
  rewrite Hraw, rule_of_strip. split; [done|].
  revert Hr. unfold DebRep.rule_of. case_decide as Hlen; [|done].
  intros [= <-]. simpl. split_and!; [| |done].
  - apply lookup_lt_is_Some. lia.
  - apply lookup_lt_is_Some. lia.
Qed.

Lemma iptables_loop lines : ∀ st,
  Forall iptables_rule_ok st.2 →
  Forall iptables_rule_ok (foldl DebRep.iptables_step st lines).2.
Proof.
  induction lines as [|line lines IH]; intros st Hst; [done|].
  simpl. apply IH. unfold DebRep.iptables_step.
  destruct (PyStr.startswith "num" line); [done|].
  destruct st.1; simpl; [|done].
  case_bool_decide as Hs; simpl; [done|].
  apply Forall_app. split; [done|].
  destruct (DebRep.rule_of line) as [r|] eqn:Er; simpl; [|done].
  constructor; [|done]. by eapply rule_of_ok.
Qed.

(** X14.  Every rule [_parse_iptables_output] returns can be read again from
    its own [raw_line], which is not empty, and its packet and byte
    counters are present. *)
Theorem iptables_rules_reparse output :
  Forall iptables_rule_ok (DebRep._parse_iptables_output output).
Proof. unfold DebRep._parse_iptables_output. by apply iptables_loop. Qed.

Lemma iptables_before_header lines :
  Forall (λ line, PyStr.startswith "num" line = false) lines →
  foldl DebRep.iptables_step (false, []) lines = (false, []).
Proof.
  induction 1 as [|line lines Hl _ IH]; [done|].
  simpl. unfold DebRep.iptables_step at 2. by rewrite Hl.
Qed.

(** X15.  [_parse_iptables_output] reads no rule from a listing none of whose
    lines starts with [num]: the rules of a chain are read only after the
    header line of the chain. *)
Theorem iptables_needs_header output :
  Forall (λ line, PyStr.startswith "num" line = false)
         (PyStr.split "010" (PyStr.strip output)) →
  DebRep._parse_iptables_output output = [].
Proof.
  intros H. unfold DebRep._parse_iptables_output.
  by rewrite iptables_before_header.
Qed.

Lemma iptables_needs_header_witness :
  DebRep._parse_iptables_output
    ("1 0 0 ACCEPT tcp -- * * 0.0.0.0/0 0.0.0.0/0" +:+ nl
     +:+ "2 0 0 DROP all -- * * 0.0.0.0/0 0.0.0.0/0") = [].
Proof.
  apply iptables_needs_header. vm_compute. repeat constructor.
Defined.

(** ** [_parse_ufw_rules] *)

Lemma ufw_step_ok rules line :
  Forall ufw_rule_ok rules → Forall ufw_rule_ok (DebRep.ufw_step rules line).
Proof.
  intros Hr. unfold DebRep.ufw_step.
  destruct (PyStr.contains "Default:" line) eqn:Ed; [done|].
  destruct (_ || _) eqn:Ew; [|done].
  apply Forall_app. split; [done|]. constructor; [|done].
  unfold ufw_rule_ok, ufw_action_of. simpl DebRep.raw_rule. simpl DebRep.action.
  rewrite strip_idemp, !contains_strip by done. rewrite Ed.
  split; [|done].
  destruct (PyStr.contains "ALLOW" line); [done|].
  destruct (PyStr.contains "DENY" line); [done|].
  destruct (PyStr.contains "REJECT" line); [done|].
  destruct (PyStr.contains "LIMIT" line); done.
Qed.

(** X16.  For every rule [_parse_ufw_rules] returns, the action is the first
    of ALLOW, DENY, REJECT and LIMIT, in this order, that occurs anywhere in
    the text of the rule; the text is stripped and does not contain
    [Default:]. *)
Theorem ufw_rules_action output :
  Forall ufw_rule_ok (DebRep._parse_ufw_rules output).
Proof.
  unfold DebRep._parse_ufw_rules.
  generalize (PyStr.split "010" (PyStr.strip output)).
  intros lines.
  cut (∀ rules, Forall ufw_rule_ok rules →
         Forall ufw_rule_ok (foldl DebRep.ufw_step rules lines)).
  { intros H. by apply H. }
  induction lines as [|line lines IH]; intros rules Hr; [done|].
  simpl. by apply IH, ufw_step_ok.
Qed.

(** ** [get_installed_packages] *)

Lemma nevra_match_cons c rest :
  DebRep.nevra_match (String c rest)
  = if Ascii.eqb c "010" then None
    else if DebRep.starts_hyphen_digit rest then Some (String c EmptyString)
    else String c <$> DebRep.nevra_match rest.
Proof. done. Qed.

Lemma starts_hyphen_digit_app s t :
  DebRep.starts_hyphen_digit s = true →
  DebRep.starts_hyphen_digit (s +:+ t) = true.
Proof. destruct s as [|a [|d s]]; done. Qed.

(** A hyphen-digit pair at the head of [s ++ "-" ++ d...] lies in [s]. *)
Lemma starts_hyphen_digit_sep s d rest :
  DebRep.starts_hyphen_digit s = false →
  DebRep.starts_hyphen_digit (s +:+ "-" +:+ String d rest)
  = match s with
    | EmptyString => PyText.is_digit d
    | _ => false
    end.
Proof.
  intros Hs. destruct s as [|a [|e s]]; simpl in *.
  - done.
  - by rewrite andb_false_r.
  - done.
Qed.

Lemma nevra_match_exact n : ∀ c d rest,
  c ≠ "010"%char → has_char "010" n = false → hyphen_digit n = false →
  PyText.is_digit d = true →
  DebRep.nevra_match (String c n +:+ "-" +:+ String d rest) = Some (String c n).
Proof.
  induction n as [|e n IH]; intros c d rest Hc Hnl Hhd Hd.
  - change (String c "" +:+ "-" +:+ String d rest)
      with (String c (String "-" (String d rest))).
    rewrite nevra_match_cons.
    rewrite (proj2 (Ascii.eqb_neq _ _)) by done.
    simpl. by rewrite Hd.
  - change (String c (String e n) +:+ "-" +:+ String d rest)
      with (String c (String e n +:+ "-" +:+ String d rest)).
    rewrite nevra_match_cons.
    rewrite (proj2 (Ascii.eqb_neq _ _)) by done.
    simpl in Hnl.
    change (hyphen_digit (String e n))
      with (DebRep.starts_hyphen_digit (String e n) || hyphen_digit n) in Hhd.
    apply orb_false_iff in Hnl as [He Hnl].
    apply orb_false_iff in Hhd as [Hs Hhd].
    rewrite starts_hyphen_digit_sep by done.
    rewrite IH; [done| |done|done|done].
    intros ->. done.
Qed.

Lemma hyphen_digit_nonempty s : hyphen_digit s = true → s ≠ "".
Proof. by destruct s. Qed.

Lemma nevra_match_truncates n : ∀ c rest,
  c ≠ "010"%char → has_char "010" n = false → hyphen_digit n = true →
  ∃ short, DebRep.nevra_match (String c n +:+ rest) = Some short
           ∧ String.prefix short (String c n) = true
           ∧ (String.length short < String.length (String c n))%nat.
Proof.
  induction n as [|e n IH]; intros c rest Hc Hnl Hhd; [done|].
  change (String c (String e n) +:+ rest) with (String c (String e n +:+ rest)).
  rewrite nevra_match_cons.
  rewrite (proj2 (Ascii.eqb_neq _ _)) by done.
  destruct (DebRep.starts_hyphen_digit (String e n +:+ rest)) eqn:Es.
  - exists (String c ""). split; [done|]. split.
    + rewrite prefix_cons, decide_True by done. apply prefix_nil.
    + simpl. lia.
  - simpl in Hnl. apply orb_false_iff in Hnl as [He Hnl].
    assert (hyphen_digit n = true) as Hn.
    { change (hyphen_digit (String e n))
        with (DebRep.starts_hyphen_digit (String e n) || hyphen_digit n) in Hhd.
      apply orb_true_iff in Hhd as [Hs|?]; [|done].
      by rewrite (starts_hyphen_digit_app _ rest Hs) in Es. }
    destruct (IH e rest) as (short & -> & Hp & Hl); [|done|done|].
    { intros ->. done. }
    exists (String c short). split; [done|]. split.
    + rewrite prefix_cons, decide_True by done. done.
    + simpl in *. lia.
Qed.

(** X17.  In [get_installed_packages], the name read from a package text of
    the history is the package name when it is followed by a hyphen and a
    digit and holds itself no line feed and no hyphen followed by a
    digit. *)
Theorem nevra_name_exact c n d rest :
  c ≠ "010"%char → has_char "010" n = false → hyphen_digit n = false →
  PyText.is_digit d = true →
  DebRep.nevra_name (String c n +:+ "-" +:+ String d rest) = String c n.
Proof.
  intros. unfold DebRep.nevra_name. by rewrite nevra_match_exact.
Qed.

Lemma nevra_name_exact_witness :
  DebRep.nevra_name ("containerd.io" +:+ "-" +:+ "2.2.1-1.el9.x86_64")
  = "containerd.io".
Proof.
  apply (nevra_name_exact "c" "ontainerd.io" "2" ".2.1-1.el9.x86_64");
    [done|reflexivity|reflexivity|reflexivity].
Defined.

(** X18.  In [get_installed_packages], a package name that holds a hyphen
    followed by a digit is cut: the name read from the package text is a
    proper prefix of it. *)
Theorem nevra_name_truncates c n rest :
  c ≠ "010"%char → has_char "010" n = false → hyphen_digit n = true →
  String.prefix (DebRep.nevra_name (String c n +:+ rest)) (String c n) = true
  ∧ (String.length (DebRep.nevra_name (String c n +:+ rest))
     < String.length (String c n))%nat.
Proof.
  intros Hc Hnl Hhd. unfold DebRep.nevra_name.
  destruct (nevra_match_truncates n c rest Hc Hnl Hhd) as (short & -> & ? & ?).
  done.
Qed.

Lemma nevra_name_truncates_witness :
  String.prefix
    (DebRep.nevra_name ("xorg-x11-fonts-100dpi" +:+ "-7.5-9.el7.noarch"))
    "xorg-x11-fonts-100dpi" = true
  ∧ (String.length
       (DebRep.nevra_name ("xorg-x11-fonts-100dpi" +:+ "-7.5-9.el7.noarch"))
     < String.length "xorg-x11-fonts-100dpi")%nat.
Proof.
  apply (nevra_name_truncates "x" "org-x11-fonts-100dpi" "-7.5-9.el7.noarch");
    [done|reflexivity|reflexivity].
Defined.

Lemma checked_completed out err : DebRep.checked (Completed 0 out err) = Ok (Some out).
Proof. done. Qed.

Lemma dpkg_line_spec manual line p :
  DebRep.dpkg_line manual line = Some p
  ↔ PyStr.startswith "ii" line = true
    ∧ (3 ≤ length (PyStr.split_ws line))%nat
    ∧ PyStr.split_ws line !! 1%nat = Some (DebRep.pkg_name p)
    ∧ PyStr.split_ws line !! 2%nat = Some (DebRep.pkg_version p)
    ∧ DebRep.pkg_architecture p = PyStr.split_ws line !! 3%nat
    ∧ DebRep.pkg_source p = "apt"
    ∧ DebRep.pkg_name p ∈ manual.
Proof.
  unfold DebRep.dpkg_line.
  destruct (PyStr.startswith "ii" line); [|split; [done|by intros [? _]]].
  case_decide as Hlen; [|split; [done|by intros (_ & ? & _)]].
  destruct (PyStr.split_ws line !! 1%nat) as [name|] eqn:E1; simpl.
  2:{ split; [done|]. by intros (_ & _ & ? & _). }
  destruct (PyStr.split_ws line !! 2%nat) as [version|] eqn:E2; simpl.
  2:{ split; [done|]. by intros (_ & _ & _ & ? & _). }
  case_bool_decide as Hin.
  - split.
    + intros [= <-]. simpl. done.
    + intros (_ & _ & [= ->] & [= ->] & Ha & Hs & _).
      destruct p; simpl in *; by subst.
  - split; [done|]. intros (_ & _ & [= ->] & _ & _ & _ & ?). done.
Qed.

(** X19.  On a host with [dpkg] and [apt-mark] whose two queries succeed,
    [get_installed_packages] returns packages of source [apt] only, and a
    name is reported exactly when [apt-mark showmanual] lists it and an [ii]
    line of [dpkg -l] with three fields or more has it as second field. *)
Theorem apt_packages_manual env mout dout :
  apt_succeeds env mout dout →
  ∃ pk, DebRep.get_installed_packages env = Ok pk
        ∧ Forall (λ p, DebRep.pkg_source p = "apt") pk
        ∧ ∀ name, name ∈ DebRep.pkg_name <$> pk
                  ↔ name ∈ DebRep.manual_set mout ∧ dpkg_installed dout name.
Proof.
  intros (Hd & Ha & [e1 Hm] & [e2 Hp]).
  unfold DebRep.get_installed_packages, DebRep.apt_branch.
  rewrite Hd, Ha, Hm, Hp. simpl.
  eexists. split; [done|]. split.
  - apply Forall_forall. intros p (line & _ & Hl)%list_elem_of_omap.
    apply dpkg_line_spec in Hl. tauto.
  - intros name. rewrite list_elem_of_fmap. split.
    + intros (p & -> & (line & Hin & Hl)%list_elem_of_omap).
      apply dpkg_line_spec in Hl as (? & ? & ? & ? & ? & ? & ?).
      split; [done|]. by exists line.
    + intros (Hman & line & Hin & Hii & Hlen & Hname).
      destruct (PyStr.split_ws line !! 2%nat) as [version|] eqn:E2.
      2:{ apply lookup_ge_None in E2. lia. }
      exists (DebRep.Package name version (PyStr.split_ws line !! 3%nat) "apt").
      split; [done|]. apply list_elem_of_omap. exists line. split; [done|].
      apply dpkg_line_spec. simpl. done.
Qed.

Lemma apt_packages_manual_witness :
  ∃ pk, DebRep.get_installed_packages apt_env = Ok pk
        ∧ Forall (λ p, DebRep.pkg_source p = "apt") pk
        ∧ ∀ name, name ∈ DebRep.pkg_name <$> pk
                  ↔ name ∈ DebRep.manual_set ("nginx" +:+ nl +:+ "curl" +:+ nl)
                    ∧ dpkg_installed
                        ("Desired=Unknown/Install/Remove/Purge/Hold" +:+ nl
                         +:+ "ii  curl   7.81.0-1  amd64  command line tool" +:+ nl
                         +:+ "ii  libc6:amd64  2.35-0  amd64  GNU C Library" +:+ nl
                         +:+ "ii  nginx  1.18.0-6  all  web server" +:+ nl) name.
Proof.
  apply (apt_packages_manual apt_env).
  split; [reflexivity|]. split; [reflexivity|]. split; by eexists.
Defined.

Lemma rpm_line_source u line p :
  DebRep.rpm_line u line = Some p →
  match u with
  | [] => DebRep.pkg_source p = "rpm-unknown"
  | _ :: _ => DebRep.pkg_source p = "dnf/yum" ∧ DebRep.pkg_name p ∈ u
  end.
Proof.
  unfold DebRep.rpm_line. case_decide; [done|].
  destruct (PyStr.split_ws line) as [|name [|version [|arch rest]]]; try done.
  destruct u as [|x u]; [by intros [= <-]|].
  case_bool_decide; [|done]. by intros [= <-].
Qed.

Lemma rpm_block_source env u pk :
  DebRep.rpm_block env u = Ok pk →
  match u with
  | [] => Forall (λ p, DebRep.pkg_source p = "rpm-unknown") pk
  | _ :: _ => Forall (λ p, DebRep.pkg_source p = "dnf/yum" ∧ DebRep.pkg_name p ∈ u) pk
  end.
Proof.
  unfold DebRep.rpm_block.
  destruct (DebRep.which env "rpm").
  2:{ intros [= <-]. by destruct u. }
  intros ([out|] & _ & [= <-])%rbind_Ok.
  2:{ by destruct u. }
  destruct u as [|x u]; apply Forall_forall;
    intros p (line & _ & Hl)%list_elem_of_omap;
    by apply rpm_line_source in Hl.
Qed.

(** X20.  All packages [get_installed_packages] returns carry the same source
    label: [apt], or [rpm-unknown], or [dnf/yum], and a package labelled
    [dnf/yum] bears a name read from the transaction history. *)
Theorem packages_one_source env pk :
  DebRep.get_installed_packages env = Ok pk →
  Forall (λ p, DebRep.pkg_source p = "apt") pk
  ∨ Forall (λ p, DebRep.pkg_source p = "rpm-unknown") pk
  ∨ ∃ u1 u, DebRep.dnf_block env = Ok u1 ∧ DebRep.yum_block env u1 = Ok u
            ∧ Forall (λ p, DebRep.pkg_source p = "dnf/yum" ∧ DebRep.pkg_name p ∈ u) pk.
Proof.
  unfold DebRep.get_installed_packages.
  intros ([pk0|] & Hapt & Hrest)%rbind_Ok.
  - injection Hrest as <-. left.
    revert Hapt. unfold DebRep.apt_branch.
    destruct (_ && _); [|done].
    intros ([mout|] & _ & H)%rbind_Ok; [|done].
    apply rbind_Ok in H as ([dout|] & _ & H); [|done].
    injection H as <-.
    apply Forall_forall. intros p (line & _ & Hl)%list_elem_of_omap.
    apply dpkg_line_spec in Hl. tauto.
  - apply rbind_Ok in Hrest as (u1 & Hu1 & Hrest).
    apply rbind_Ok in Hrest as (u & Hu & Hrpm).
    apply rpm_block_source in Hrpm.
    destruct u as [|x u]; [by right; left|].
    right; right. eauto.
Qed.

Lemma packages_one_source_witness :
  Forall (λ p, DebRep.pkg_source p = "apt")
         [DebRep.Package "containerd.io" "2.2.1-1.el9" (Some "x86_64") "dnf/yum"]
  ∨ Forall (λ p, DebRep.pkg_source p = "rpm-unknown")
           [DebRep.Package "containerd.io" "2.2.1-1.el9" (Some "x86_64") "dnf/yum"]
  ∨ ∃ u1 u, DebRep.dnf_block rpm_env = Ok u1 ∧ DebRep.yum_block rpm_env u1 = Ok u
            ∧ Forall (λ p, DebRep.pkg_source p = "dnf/yum" ∧ DebRep.pkg_name p ∈ u)
                     [DebRep.Package "containerd.io" "2.2.1-1.el9" (Some "x86_64")
                                     "dnf/yum"].
Proof.
  apply (packages_one_source rpm_env). reflexivity.
Defined.

(** ** Sorting by a key, largest first *)

Section sort_desc_facts.
Context {A K : Type} (key : A → K) (lt : K → K → bool).
Hypothesis Hlt : strict_weak lt.

Lemma insert_desc_perm x l : insert_desc key lt x l ≡ₚ x :: l.
Proof.
  induction l as [|y l IH]; simpl; [done|].
  destruct (lt (key y) (key x)); [done|].
  rewrite IH. apply Permutation_swap.
Qed.

Lemma sorted_desc_perm l : sorted_desc key lt l ≡ₚ l.
Proof.
  unfold sorted_desc.
  cut (∀ acc, foldl (λ acc x, insert_desc key lt x acc) acc l ≡ₚ acc ++ l).
  { intros H. apply (H []). }
  induction l as [|x l IH]; intros acc; simpl.
  - by rewrite app_nil_r.
  - rewrite IH, insert_desc_perm. by rewrite <- Permutation_middle.
Qed.

Lemma insert_desc_sorted x l :
  StronglySorted (key_ge key lt) l →
  StronglySorted (key_ge key lt) (insert_desc key lt x l).
Proof.
  destruct Hlt as [Hasym Hneg].
  induction 1 as [|y l Hl IH Hy]; simpl.
  - repeat constructor.
  - destruct (lt (key y) (key x)) eqn:E.
    + constructor; [by constructor|].
      constructor; [by apply Hasym|].
      eapply Forall_impl; [exact Hy|]. unfold key_ge. intros z Hz.
      eapply Hneg; [|exact Hz]. by apply Hasym.
    + constructor; [done|].
      rewrite insert_desc_perm. by constructor.
Qed.

Lemma sorted_desc_sorted l : StronglySorted (key_ge key lt) (sorted_desc key lt l).
Proof.
  unfold sorted_desc.
  cut (∀ acc, StronglySorted (key_ge key lt) acc →
         StronglySorted (key_ge key lt)
           (foldl (λ acc x, insert_desc key lt x acc) acc l)).
  { intros H. apply H. constructor. }
  induction l as [|x l IH]; intros acc Hacc; simpl; [done|].
  apply IH. by apply insert_desc_sorted.
Qed.

End sort_desc_facts.

Lemma top_of_take {A K} (key : A → K) (lt : K → K → bool) n all s :
  StronglySorted (key_ge key lt) s → s ≡ₚ all →
  top_of key lt n all (take n s).
Proof.
  intros Hs Hp. rewrite <- (take_drop n s) in Hs. split_and!.
  - by eapply StronglySorted_app_1_l.
  - rewrite length_take. by rewrite (Permutation_length Hp).
  - exists (drop n s). split; [by rewrite take_drop|].
    intros x y Hx Hy. by eapply StronglySorted_app_1_elem_of.
Qed.

(** ** [get_running_processes] *)

(** X21.  When [<] on the CPU shares is a strict weak order,
    [WindowsServerInventory.get_running_processes] returns, largest share
    first, the [top_n] processes with the largest CPU share among those
    whose share could be measured (all of them when they are fewer). *)
Theorem win_top_processes {P K} (lt : K → K → bool) top_n
    (procs : list (P * option K)) :
  strict_weak lt →
  top_of snd lt top_n (omap (λ pk, pair pk.1 <$> pk.2) procs)
         (WinCmd.get_running_processes lt top_n procs).
Proof.
  intros Hlt. unfold WinCmd.get_running_processes.
  apply top_of_take; [by apply sorted_desc_sorted|apply sorted_desc_perm].
Qed.

Lemma strict_weak_Z : strict_weak Z.ltb.
Proof.
  split.
  - intros x y ?%Z.ltb_lt. apply Z.ltb_ge. lia.
  - intros x y z ?%Z.ltb_ge ?%Z.ltb_ge. apply Z.ltb_ge. lia.
Qed.

Lemma win_top_processes_witness :
  top_of snd Z.ltb 2 (omap (λ pk, pair pk.1 <$> pk.2) win_processes)
         (WinCmd.get_running_processes Z.ltb 2 win_processes).
Proof. apply win_top_processes. apply strict_weak_Z. Defined.

Lemma StronglySorted_fmap_on {A B} (Q : A → Prop) (R1 : relation A)
    (R2 : relation B) (f : A → B) l :
  (∀ x y, Q x → Q y → R1 x y → R2 (f x) (f y)) →
  Forall Q l → StronglySorted R1 l → StronglySorted R2 (f <$> l).
Proof.
  intros Hf HQ Hs. induction Hs as [|x l Hl IH Hx]; csimpl; [constructor|].
  apply Forall_cons in HQ as [Hqx HQ]. constructor; [by apply IH|].
  apply Forall_fmap, Forall_forall. intros y Hy. simpl.
  rewrite Forall_forall in Hx, HQ. apply Hf; auto.
Qed.

(** X22.  When [<] on the memory shares is a strict weak order,
    [ServerInventory.get_running_processes] returns, largest share first,
    the [limit] processes with the largest memory share, and it raises
    (the [TypeError] of the comparison) exactly when two processes or more
    are listed and the memory share of one of them is [None]. *)
Theorem linux_top_processes {P K} (memory_percent : P → option K)
    (lt : K → K → bool) limit (procs : list P) :
  strict_weak lt →
  match DebRep.get_running_processes memory_percent lt limit procs with
  | Ok r => top_of memory_percent (key_lt lt) limit procs r
            ∧ (Forall (λ p, is_Some (memory_percent p)) procs
               ∨ length procs ≤ 1)%nat
  | Raise e => (2 ≤ length procs)%nat
               ∧ Exists (λ p, memory_percent p = None) procs
  end.
Proof.
  intros Hlt. unfold DebRep.get_running_processes.
  destruct (mapM _ procs) as [keyed|] eqn:E.
  - apply mapM_Some in E.
    assert (keyed.*1 = procs ∧ Forall (λ pk, memory_percent pk.1 = Some pk.2) keyed)
      as [H1 H2].
    { clear -E. induction E as [|p pk procs' keyed' Hp HF IH]; [done|].
      destruct IH as [IH1 IH2].
      destruct (memory_percent p) as [k|] eqn:Ek; simplify_eq/=.
      split; [done|]. by constructor. }
    split.
    2:{ left. rewrite <- H1. apply Forall_fmap.
        eapply Forall_impl; [exact H2|]. intros pk Hpk. simpl. rewrite Hpk. eauto. }
    rewrite <- fmap_take.
    assert (top_of memory_percent (key_lt lt) limit procs
              (take limit (sorted_desc snd lt keyed).*1)) as Htop.
    { apply top_of_take.
      - apply (StronglySorted_fmap_on
                 (λ pk, memory_percent pk.1 = Some pk.2) (key_ge snd lt)).
        + intros x y Hx Hy. unfold key_ge. by rewrite Hx, Hy.
        + rewrite sorted_desc_perm. done.
        + by apply sorted_desc_sorted.
      - by rewrite sorted_desc_perm, H1. }
    by rewrite fmap_take.
  - assert (Exists (λ p, memory_percent p = None) procs) as Hex.
    { clear -E. induction procs as [|p procs IH]; [done|].
      csimpl in E. destruct (memory_percent p) as [k|] eqn:Ek; [|by left].
      simpl in E. right. apply IH.
      destruct (mapM _ procs); [done|done]. }
    case_decide as Hlen; [done|].
    split; [|right; lia].
    destruct procs as [|p [|q procs]]; [| |simpl in Hlen; lia].
    + by apply Exists_nil in Hex.
    + apply (top_of_take memory_percent (key_lt lt) limit [p] [p]); [|done].
      repeat constructor.
Qed.

Lemma linux_top_processes_witness :
  match DebRep.get_running_processes snd Z.ltb 2 linux_processes with
  | Ok r => top_of snd (key_lt Z.ltb) 2 linux_processes r
            ∧ (Forall (λ p, is_Some p.2) linux_processes
               ∨ length linux_processes ≤ 1)%nat
  | Raise e => (2 ≤ length linux_processes)%nat
               ∧ Exists (λ p, p.2 = None) linux_processes
  end.
Proof.
  apply (linux_top_processes snd Z.ltb 2 linux_processes). apply strict_weak_Z.
Defined.

(** ** The fields of [str.split()] *)

Lemma no_space_rev_app s1 : ∀ s2,
  no_space (String.rev_app s1 s2) = no_space s1 && no_space s2.
Proof.
  induction s1 as [|c s1 IH]; intros s2; simpl; [done|].
  rewrite IH. simpl. destruct (PyStr.isspace c), (no_space s1); done.
Qed.

Lemma rev_app_nonempty s1 s2 : s1 ≠ "" → String.rev_app s1 s2 ≠ "".
Proof.
  revert s2. induction s1 as [|c s1 IH]; intros s2 Hne; [done|]. simpl.
  destruct s1 as [|d s1]; [done|]. by apply IH.
Qed.

Lemma split_ws_go_fields s : ∀ cur w,
  match cur with Some r => r ≠ "" ∧ no_space r = true | None => True end →
  w ∈ PyStr.split_ws_go cur s → w ≠ "" ∧ no_space w = true.
Proof.
  induction s as [|c s IH]; intros cur w Hcur; simpl.
  - destruct cur as [r|]; csimpl; [|intros Hw; by apply elem_of_nil in Hw].
    intros ->%list_elem_of_singleton. destruct Hcur as [Hne Hns].
    unfold String.rev. split; [by apply rev_app_nonempty|].
    by rewrite no_space_rev_app, Hns.
  - destruct (PyStr.isspace c) eqn:Ec.
    + intros [Hw|Hw]%elem_of_app; [|by apply (IH None w)].
      destruct cur as [r|]; csimpl in Hw; [|by apply elem_of_nil in Hw].
      apply list_elem_of_singleton in Hw as ->. destruct Hcur as [Hne Hns].
      unfold String.rev. split; [by apply rev_app_nonempty|].
      by rewrite no_space_rev_app, Hns.
    + apply IH. split; [done|]. simpl. rewrite Ec. simpl.
      destruct cur as [r|]; [by destruct Hcur|done].
Qed.

(** A field holds no white space and is not empty. *)
Lemma split_ws_fields s w : w ∈ PyStr.split_ws s → w ≠ "" ∧ no_space w = true.
Proof. by apply split_ws_go_fields. Qed.

Lemma no_space_prefix p : ∀ w,
  String.prefix p w = true → no_space w = true → no_space p = true.
Proof.
  induction p as [|c p IH]; intros w; [done|].
  destruct w as [|d w]; [done|]. rewrite prefix_cons.
  destruct (decide (c = d)) as [->|]; [|done]. simpl.
  intros Hp [Hd Hw]%andb_true_iff. rewrite Hd. simpl. by eapply IH.
Qed.

Lemma split_ws_nil_strip s : PyStr.strip s = "" → PyStr.split_ws s = [].
Proof. intros H. by rewrite <- split_ws_strip, H. Qed.

(** ** [get_users] *)

Lemma filter_all {A} (P : A → Prop) `{∀ x, Decision (P x)} l :
  Forall P l → filter P l = l.
Proof.
  induction 1 as [|x l Hx _ IH]; [done|].
  by rewrite filter_cons_True, IH.
Qed.

(** The test against ['The command'] keeps every field. *)
Lemma users_filter_id line :
  filter (λ username, negb (bool_decide (username = ""))
                      && negb (PyStr.startswith "The command" username))
         (PyStr.split_ws line)
  = PyStr.split_ws line.
Proof.
  apply filter_all, Forall_forall. intros w Hw.
  apply split_ws_fields in Hw as [Hne Hns].
  rewrite bool_decide_eq_false_2 by done. simpl.
  destruct (PyStr.startswith "The command" w) eqn:E; [|done].
  by apply (no_space_prefix _ _ E) in Hns.
Qed.

Lemma users_step_spec st line :
  WinCmd.users_step st line
  = if PyStr.contains "---" (PyStr.strip line) then (true, st.2)
    else if st.1 then (true, st.2 ++ PyStr.split_ws line)
    else st.
Proof.
  unfold WinCmd.users_step.
  destruct (PyStr.contains "---" (PyStr.strip line)); [done|].
  destruct st as [[] us]; simpl; [|done].
  rewrite users_filter_id, split_ws_strip.
  case_bool_decide as Hs; simpl; [|done].
  by rewrite (split_ws_nil_strip _ Hs), app_nil_r.
Qed.

Lemma users_loop lines : ∀ st i line w,
  lines !! i = Some line →
  (st.1 = true ∨ ∃ j l, (j < i)%nat ∧ lines !! j = Some l
                        ∧ PyStr.contains "---" (PyStr.strip l) = true) →
  PyStr.contains "---" (PyStr.strip line) = false →
  w ∈ PyStr.split_ws line →
  w ∈ (foldl WinCmd.users_step st lines).2.
Proof.
  assert (∀ ls st w, w ∈ st.2 → w ∈ (foldl WinCmd.users_step st ls).2)
    as Hkeep.
  { clear. intros ls. induction ls as [|l ls IH]; intros st w Hw; simpl; [done|].
    apply IH. rewrite users_step_spec.
    destruct (PyStr.contains _ _); [done|].
    destruct st.1; [|done]. simpl. apply elem_of_app. by left. }
  induction lines as [|l lines IH]; intros st i line w Hi Hflag Hnd Hw; [done|].
  simpl. destruct i as [|i]; simpl in Hi.
  - injection Hi as ->. apply Hkeep. rewrite users_step_spec, Hnd.
    destruct Hflag as [->|(j & ? & ? & _)]; [|lia].
    simpl. apply elem_of_app. by right.
  - eapply IH; [done| |done|done].
    rewrite users_step_spec.
    destruct (PyStr.contains "---" (PyStr.strip l)) eqn:El; [by left|].
    destruct Hflag as [Hf|(j & l' & Hj & Hl & Hd)].
    + rewrite Hf. by left.
    + destruct j as [|j]; simpl in Hl.
      * injection Hl as ->. congruence.
      * right. exists j, l'. split; [lia|done].
Qed.

(** X23.  When [net user] exits with status 0, every word of a line without
    dashes that follows a dashed line is reported as a user name by
    [WindowsServerInventory.get_users]; the test against [The command]
    removes none, the words of the closing line included. *)
Theorem users_every_word out err i line w :
  PyStr.split "010" out !! i = Some line →
  (∃ j l, (j < i)%nat ∧ PyStr.split "010" out !! j = Some l
          ∧ PyStr.contains "---" (PyStr.strip l) = true) →
  PyStr.contains "---" (PyStr.strip line) = false →
  w ∈ PyStr.split_ws line →
  ∃ users, WinCmd.get_users (Completed 0 out err) = WinCmd.Users users
           ∧ w ∈ users.
Proof.
  intros Hi Hd Hnd Hw. eexists. split; [done|].
  eapply users_loop; [done|by right|done|done].
Qed.

Lemma users_every_word_witness :
  ∃ users, WinCmd.get_users (Completed 0 net_user_output "") = WinCmd.Users users
           ∧ "command" ∈ users.
Proof.
  apply (users_every_word net_user_output "" 4
           "The command completed successfully." "command").
  - reflexivity.
  - exists 2%nat, "-------------------------------------------------------".
    split; [lia|]. split; reflexivity.
  - reflexivity.
  - vm_compute. apply list_elem_of_further, list_elem_of_here.
Defined.

(** ** [get_firewall_info] *)

Lemma rule_line_inv st line st' :
  WinCmd.rule_line st line = Ok st' →
  WinCmd.rl_rule_count st = length (WinCmd.rl_rules st) →
  (WinCmd.rl_rule_count st < WinCmd.max_rules)%nat →
  Forall (λ r, r ≠ []) (WinCmd.rl_rules st) →
  WinCmd.rl_rule_count st' = length (WinCmd.rl_rules st')
  ∧ (WinCmd.rl_rule_count st' ≤ WinCmd.max_rules)%nat
  ∧ Forall (λ r, r ≠ []) (WinCmd.rl_rules st').
Proof.
  unfold WinCmd.rule_line. intros Hstep Hc Hlt Hne.
  case_decide.
  - destruct (WinCmd.rl_rule st) as [|kv rule] eqn:Er.
    + injection Hstep as <-. simpl. split_and!; [done|lia|done].
    + rewrite decide_True in Hstep by done. injection Hstep as <-. simpl.
      rewrite length_app. simpl. split_and!; [lia|lia|].
      apply Forall_app. split; [done|]. by repeat constructor.
  - destruct (PyStr.contains ":" (PyStr.strip line)).
    + destruct (PyText.split1 ":" (PyStr.strip line)) as [key [value|]]; [|done].
      injection Hstep as <-. simpl. split_and!; [done|lia|done].
    + injection Hstep as <-. split_and!; [done|lia|done].
Qed.

Lemma rules_run_inv lines : ∀ st,
  WinCmd.rl_rule_count st = length (WinCmd.rl_rules st) →
  (WinCmd.rl_rule_count st < WinCmd.max_rules)%nat →
  Forall (λ r, r ≠ []) (WinCmd.rl_rules st) →
  let st' := flow_state (WinCmd.rules_run st lines) in
  WinCmd.rl_rule_count st' = length (WinCmd.rl_rules st')
  ∧ (WinCmd.rl_rule_count st' ≤ WinCmd.max_rules)%nat
  ∧ Forall (λ r, r ≠ []) (WinCmd.rl_rules st').
Proof.
  induction lines as [|line lines IH]; intros st Hc Hlt Hne; simpl.
  - split_and!; [done|lia|done].
  - destruct (WinCmd.rule_line st line) as [st1|e] eqn:E; simpl.
    2:{ split_and!; [done|lia|done]. }
    destruct (rule_line_inv _ _ _ E Hc Hlt Hne) as (Hc1 & Hle1 & Hne1).
    case_decide as Hmax; simpl; [done|].
    apply IH; [done|lia|done].
Qed.

(** X24.  [WindowsServerInventory.get_firewall_info] reports at most a
    hundred firewall rules, none of them empty; the note on the cut is set
    only when a hundred rules are reported, and is set then unless the
    listing failed. *)
Theorem firewall_rules_capped state listing :
  let info := WinCmd.get_firewall_info state listing in
  (length (WinCmd.rules info) ≤ 100)%nat
  ∧ Forall (λ r, r ≠ []) (WinCmd.rules info)
  ∧ (is_Some (WinCmd.rules_note info) → length (WinCmd.rules info) = 100%nat)
  ∧ (length (WinCmd.rules info) = 100%nat → WinCmd.rules_error info = None →
     is_Some (WinCmd.rules_note info)).
Proof.
  unfold WinCmd.get_firewall_info.
  destruct (match state with RunRaises _ => _ | Completed _ _ _ => _ end)
    as [profiles state_error].
  destruct listing as [rc out err|e]; simpl.
  2:{ split_and!; [lia|done|by intros [? ?]|done]. }
  case_decide; simpl.
  2:{ split_and!; [lia|done|by intros [? ?]|done]. }
  pose proof (rules_run_inv (PyStr.split "010" out) (WinCmd.RulesLoop [] 0 [])
                eq_refl) as Hinv.
  simpl in Hinv. specialize (Hinv ltac:(unfold WinCmd.max_rules; lia) ltac:(done)).
  destruct (WinCmd.rules_run _ _) as [st|e st]; simpl in *.
  - destruct Hinv as (Hc & Hle & Hne). unfold WinCmd.max_rules in *.
    split_and!; [lia|done| |].
    + case_decide; [lia|by intros [? ?]].
    + intros Hl _. case_decide; [eauto|lia].
  - destruct Hinv as (Hc & Hle & Hne). unfold WinCmd.max_rules in *.
    split_and!; [lia|done|by intros [? ?]|done].
Qed.

(** ** [print_summary] of [ServerInventory] *)



(** ** The samples of the sar series *)

Section sar_sample_facts.
Context `{FO : FloatOps}.
Implicit Types h : gmap string pyval.

Lemma six_floats_percentages parts base fl :
  six_floats parts base = Ok fl → sar_percentages fl.
Proof.
  unfold six_floats. intros H.
  repeat (match type of H with
          | context [float_at ?p ?i] =>
              destruct (float_at p i); simpl in H; [|done]
          end).
  simplify_eq. by repeat eexists.
Qed.

Lemma sar_sample_shape parts tc d :
  colon_at parts tc = true → sar_sample parts tc = Ok d → sar_sample_ok d.
Proof.
  unfold colon_at, sar_sample. intros Hc H.
  destruct (parts !! tc) as [t|]; [|done].
  destruct (parts !! (tc + 1)%nat) as [c|]; [|done].
  destruct (six_floats parts (tc + 2)) as [fl|] eqn:E; [|done].
  simpl in H. simplify_eq. exists t, c, fl. split_and!; [done..|].
  by eapply six_floats_percentages.
Qed.

Lemma sar_line_ok st line :
  sar_state_ok st → sar_state_ok (flow_state (sar_line st line)).
Proof.
  intros [Hh Ha]. unfold sar_line.
  destruct (decide (PyStr.strip line = "")); [done|].
  destruct (PyStr.startswith "Average:" _).
  { destruct (decide _); [|done].
    destruct (six_floats _ 2) as [avg|] eqn:E; [|done].
    split; [done|right]. by eapply six_floats_percentages. }
  destruct (_ && _ && _); [|done].
  destruct (bool_decide _ && _) eqn:G; [|done].
  apply andb_prop in G as [_ G].
  destruct (sar_sample _ _) as [d|] eqn:E; [|done].
  split; [|done]. simpl. apply Forall_app. split; [done|].
  apply Forall_singleton. eapply sar_sample_shape; [|done].
  destruct (colon_at _ 0) eqn:G0; [done|]. by rewrite orb_false_l in G.
Qed.

Lemma sar_loop_ok lines :
  sar_state_ok (flow_state (fold_flow sar_line (SarState [] []) lines)).
Proof.
  apply (fold_flow_inv _ sar_state_ok).
  - intros st line. apply sar_line_ok.
  - split; [constructor|by left].
Qed.

End sar_sample_facts.

(** X26.  whatever sar prints, every element of [hourly_data] in the series of
    [ServerInventory] is a complete sample: the time (a field that holds a
    colon), the CPU column and the six percentages [user], [nice],
    [system], [iowait], [steal] and [idle] as floats, in this order.  A
    line with a field that is not a number leaves no partial sample.  The
    [average] is empty or holds the same six percentages. *)
Theorem sar_samples_complete `{FO : FloatOps} (env : sar_env) :
  ∃ h l a, get_previous_day_cpu_utilization env = Ok h
           ∧ h !! "hourly_data" = Some (PList l)
           ∧ Forall sar_sample_ok l
           ∧ h !! "average" = Some (PDict a)
           ∧ (a = [] ∨ sar_percentages a).
Proof.
  unfold get_previous_day_cpu_utilization, sar_try.
  destruct (negb _).
  { eexists _, [], []. split_and!; [done|by simplify_map_eq|constructor|
                                    by simplify_map_eq|by left]. }
  destruct (run_sar env (sa_file_path env)) as [rc out err|e].
  2:{ eexists _, [], []. split_and!; [done|by simplify_map_eq|constructor|
                                      by simplify_map_eq|by left]. }
  destruct (decide (rc = 0)) as [Hrc|Hrc].
  2:{ eexists _, [], []. split_and!; [done|by simplify_map_eq|constructor|
                                      by simplify_map_eq|by left]. }
  pose proof (sar_loop_ok (PyStr.split "010" (PyStr.strip out))) as [Hh Ha].
  destruct (fold_flow _ _ _) as [st|e st]; simpl in Hh, Ha;
    (eexists _, (sar_hourly st), (sar_average st);
     unfold sar_store; split_and!; [done|by simplify_map_eq|done|
                                    by simplify_map_eq|done]).
Qed.

(** ** The Windows service list *)

Lemma split1_has_char c : ∀ s,
  has_char c s = true → is_Some (PyText.split1 c s).2.
Proof.
  induction s as [|a s IH]; simpl; [done|].
  destruct (Ascii.eqb a c); simpl; [by eexists|].
  intros H. specialize (IH H). by destruct (PyText.split1 c s).
Qed.

Lemma prefix_has_char c : ∀ p s,
  String.prefix p s = true → has_char c p = true → has_char c s = true.
Proof.
  induction p as [|a p IH]; intros s Hp Hc; [done|].
  destruct s as [|b s]; [done|]. simpl in Hp.
  destruct (ascii_dec a b) as [->|]; [|done].
  simpl in *. destruct (Ascii.eqb b c); [done|]. simpl in *. by apply IH.
Qed.

Lemma contains_has_char c p : ∀ s,
  PyStr.contains p s = true → has_char c p = true → has_char c s = true.
Proof.
  induction s as [|b s IH]; intros Hs Hc.
  - simpl in Hs. rewrite orb_false_r in Hs. by eapply prefix_has_char.
  - change (PyStr.contains p (String b s))
      with (String.prefix p (String b s) || PyStr.contains p s) in Hs.
    apply orb_true_iff in Hs as [Hs|Hs]; [by eapply prefix_has_char|].
    simpl. rewrite (IH Hs Hc). apply orb_true_r.
Qed.

(** The subscript [[1]] of the two [split(':', 1)] calls is in range. *)
Lemma after_colon_ok p line :
  PyStr.contains p line = true → has_char ":" p = true →
  ∃ rest, (PyText.split1 ":" line).2 = Some rest
          ∧ WinServices.after_colon line = Ok (PyStr.strip rest).
Proof.
  intros Hp Hc. unfold WinServices.after_colon.
  destruct (split1_has_char ":" line) as [rest ->]; [|by eexists].
  by eapply contains_has_char.
Qed.

Lemma names_flush_named (s : WinServices.service) (l : list WinServices.service) :
  s ≠ [] →
  omap (oget "name") (WinServices.flush (s, l))
  = omap (oget "name") l ++ option_list (oget "name" s).
Proof.
  intros Hs. unfold WinServices.flush. simpl.
  destruct s; [done|]. by rewrite omap_app.
Qed.

Lemma oset_nonempty {V} (k : string) (v : V) d : oset k v d ≠ [].
Proof. destruct d as [|[k' v'] d]; simpl; [done|]. by destruct (decide _). Qed.

(** A step that writes a key other than [name] into [service]. *)
Lemma service_step_set st k v :
  k ≠ "name" → services_inv st →
  services_inv (oset k v st.1, st.2)
  ∧ omap (oget "name") (WinServices.flush (oset k v st.1, st.2))
    = omap (oget "name") (WinServices.flush st).
Proof.
  intros Hk (H1 & H2 & H3). split.
  - split_and!; simpl; [by intros ?%oset_nonempty| |done].
    intros Hne. unfold has_name. rewrite oget_oset_ne by done. by apply H2.
  - rewrite names_flush_named by apply oset_nonempty.
    rewrite oget_oset_ne by done.
    destruct st as [s l]. simpl in *. destruct s as [|kv s].
    + rewrite (H1 eq_refl). done.
    + by rewrite names_flush_named.
Qed.

Lemma service_step_spec st line :
  services_inv st →
  ∃ st', WinServices.service_step st line = Next st'
         ∧ services_inv st'
         ∧ omap (oget "name") (WinServices.flush st')
           = omap (oget "name") (WinServices.flush st)
             ++ option_list (service_name_of line).
Proof.
  intros Hinv. unfold WinServices.service_step, service_name_of.
  destruct (PyStr.contains "SERVICE_NAME:" _) eqn:E1.
  { destruct (after_colon_ok _ _ E1 eq_refl) as (rest & -> & ->).
    eexists. split; [done|]. destruct Hinv as (H1 & H2 & H3). split.
    - split_and!; simpl; [done|by eexists|].
      destruct st as [s l]. unfold WinServices.flush. simpl in *.
      destruct s as [|kv s]; [done|].
      destruct l as [|x l]; [by constructor|]. simpl in *.
      apply Forall_app. split; [done|]. apply Forall_singleton. by apply H2.
    - by rewrite names_flush_named. }
  rewrite app_nil_r.
  destruct (PyStr.contains "DISPLAY_NAME:" _) eqn:E2.
  { destruct (after_colon_ok _ _ E2 eq_refl) as (rest & _ & ->).
    eexists. split; [done|]. by apply service_step_set. }
  destruct (PyStr.contains "STATE" _); [|by eexists].
  destruct (PyStr.split ":" _) as [|? [|p1 ?]]; [by eexists..|].
  repeat (destruct (PyStr.contains _ (PyStr.strip p1));
          [eexists; split; [done|]; by apply service_step_set|]).
  by eexists.
Qed.

Lemma service_loop lines : ∀ st,
  services_inv st →
  ∃ st', fold_flow WinServices.service_step st lines = Next st'
         ∧ services_inv st'
         ∧ omap (oget "name") (WinServices.flush st')
           = omap (oget "name") (WinServices.flush st)
             ++ omap service_name_of lines.
Proof.
  induction lines as [|line lines IH]; intros st Hinv.
  { exists st. by rewrite app_nil_r. }
  destruct (service_step_spec st line Hinv) as (st1 & E & Hinv1 & Hn1).
  destruct (IH st1 Hinv1) as (st' & E' & Hinv' & Hn').
  exists st'. simpl. rewrite E. split; [done|]. split; [done|].
  rewrite Hn', Hn1, <-(assoc_L (++)). f_equal.
  cbn [omap list_omap]. by destruct (service_name_of line).
Qed.

(** X27.  When [sc query] exits with status 0,
    [WindowsServerInventory.get_running_services] returns a list and not
    the error dictionary; the names of its records are, in order, the
    names announced by the lines that hold [SERVICE_NAME:], one record per
    such line, and only the first record can lack a name (it does when a
    [DISPLAY_NAME:] or state line comes before the first service name). *)
Theorem win_services_one_per_name out err :
  ∃ services,
    WinServices.get_running_services (Completed 0 out err)
    = WinServices.Services services
    ∧ omap (oget "name") services = service_names out
    ∧ Forall has_name (tail services).
Proof.
  unfold WinServices.get_running_services. simpl.
  destruct (service_loop (PyStr.split "010" out) ([], []))
    as (st & -> & (H1 & H2 & H3) & Hn).
  { split_and!; simpl; [done|done|constructor]. }
  eexists. split; [done|]. split; [done|].
  destruct st as [s l]. unfold WinServices.flush. simpl in *.
  destruct s as [|kv s]; [done|].
  destruct l as [|x l]; [by constructor|]. simpl.
  apply Forall_app. split; [done|]. apply Forall_singleton. by apply H2.
Qed.
